(** * sc-hooks: useEventListener, useLocalStorage, useSessionStorage

    A shallow embedding of the three hooks of the repository and of the part
    of the browser platform they call (event targets and listener lists,
    React's effect commit, Web Storage, the console, JSON), followed by the
    properties of the specification.

    Sources: [src/hooks/use-event-listener/index.ts] for [useEventListener];
    the listings of [useLocalStorage] and [useSessionStorage] in the two
    READMEs for the storage hooks; the [use.tsx] file of each hook for the
    demo components [UsageEventLister], [UsageLocalStorage] and
    [UsageSessionStorage].

    Layout: Part I holds the definitions (platform first, then the hooks and
    the demo components as the source writes them), Part II the lemmas and
    theorems of the specification, Part III further properties of the hooks
    and of the demo components.

    Conventions of the model:
    - a JavaScript call returns or throws ([Completion]);
    - functions and objects are compared by identity, as [Object.is] does:
      a handler, a listener, a ref object and an options object each carry
      an identity;
    - the page keeps a trace of the calls the hook makes on event targets
      and a log of the handlers that events invoked, which is what the
      properties are stated on;
    - for the hook alone a handler is opaque: invoking it is recorded and
      has no other effect (a state update it triggers is a later render);
      the callbacks of [UsageEventLister] have their bodies;
    - the hook is modelled at two grains.  A history is made of [Render]
      steps, a render taken together with its passive effects, and of
      [Dispatch] steps, the listeners of one object run for an event.  A
      timeline is made of moments: a render is committed, the pending
      effects run, an event walks its path through the page, an options
      object is changed in place, the component leaves the tree.  A history
      is the timeline in which every render's effects run at once
      ([history_in_time]). *)

From Stdlib Require Import ZArith NArith List String Bool Lia Decimal DecimalN DecimalFacts.
From stdpp Require Import base option list gmap strings.

Local Open Scope string_scope.
Local Open Scope list_scope.

Set Warnings "-register-all".

(* ===================================================================== *)
(** * Part I. Definitions                                                 *)
(* ===================================================================== *)

(** ** Completions

    A JavaScript call either returns or throws.  The hooks are written in
    this monad so that "no exception is raised" is a statement about the
    result and not an assumption of the model. *)

Inductive JsError : Type :=
| TypeError
| SyntaxError
| SecurityError
| QuotaExceededError.

Inductive Completion (A : Type) : Type :=
| Normal (a : A)
| Throw (e : JsError).

Arguments Normal {A} a.
Arguments Throw {A} e.

Definition cbind {A B : Type} (c : Completion A) (k : A -> Completion B) : Completion B :=
  match c with
  | Normal a => k a
  | Throw e => Throw e
  end.

Notation "'let*' x ':=' c 'in' k" := (cbind c (fun x => k))
  (at level 10, x name, c at level 100, k at level 200).
Notation "'let*' ( x , y ) ':=' c 'in' k" := (cbind c (fun xy => let '(x, y) := xy in k))
  (at level 10, x name, y name, c at level 100, k at level 200).

(** ** Event targets

    [element?.current] may hold any object.  Three shapes carry
    [addEventListener] (the window, an element or the document, a
    media-query list); [Legacy] stands for an object without the method (a
    MediaQueryList of an engine that only has [addListener], or a plain
    object). *)

Inductive Target : Type :=
| Window
| Document
| Element (id : nat)
| MediaQueryList (id : nat)
| Legacy (id : nat).

Definition has_addEventListener (t : Target) : bool :=
  match t with
  | Legacy _ => false
  | _ => true
  end.

Definition Target_eqb (a b : Target) : bool :=
  match a, b with
  | Window, Window => true
  | Document, Document => true
  | Element i, Element j => Nat.eqb i j
  | MediaQueryList i, MediaQueryList j => Nat.eqb i j
  | Legacy i, Legacy j => Nat.eqb i j
  | _, _ => false
  end.

(** [options?: boolean | AddEventListenerOptions].  An options object has an
    identity ([opt_id], its address) besides its fields: React compares
    dependencies with [Object.is], which looks at the address only. *)

Record AddEventListenerOptions : Type := {
  opt_id : nat;
  capture : bool;
  once : bool;
  passive : bool
}.

Inductive Options : Type :=
| OptUndefined
| OptBool (b : bool)
| OptObject (o : AddEventListenerOptions).

(** The DOM's "flatten options": the capture flag a listener is keyed on. *)
Definition flatten (o : Options) : bool :=
  match o with
  | OptUndefined => false
  | OptBool b => b
  | OptObject r => capture r
  end.

Definition flatten_once (o : Options) : bool :=
  match o with
  | OptObject r => once r
  | _ => false
  end.

(** Functions are compared by identity.  A [Handler] is a callback of the
    caller; a [Listener] is a closure the hook allocates. *)
Definition Handler : Type := nat.

Record Listener : Type := { fn_id : nat }.

Definition Listener_eqb (a b : Listener) : bool := Nat.eqb (fn_id a) (fn_id b).

Record Event : Type := { ev_type : string; ev_detail : nat }.

(** An entry of a target's event listener list. *)
Record Registration : Type := {
  r_target : Target;
  r_type : string;
  r_callback : Listener;
  r_capture : bool;
  r_once : bool
}.

(** The calls the hook makes on the platform, in order, with their
    arguments as passed. *)
Inductive Call : Type :=
| AddEventListener (t : Target) (type : string) (l : Listener) (o : Options)
| RemoveEventListener (t : Target) (type : string) (l : Listener) (o : Options).

Definition RefId : Type := nat.

(** The world outside the hook: the [current] field of every ref object
    (absent = [null]), the listener lists, the allocator of closures, and
    what an observer sees (platform calls, handler invocations). *)
Record World : Type := {
  refs : gmap nat Target;
  registry : list Registration;
  next_fn : nat;
  trace : list Call;
  invoked : list (Handler * Event)
}.

Definition initial_world (rs : gmap nat Target) : World :=
  {| refs := rs; registry := []; next_fn := 0; trace := []; invoked := [] |}.

Definition same_listener (t : Target) (type : string) (l : Listener) (cap : bool)
    (r : Registration) : bool :=
  Target_eqb (r_target r) t && String.eqb (r_type r) type
  && Listener_eqb (r_callback r) l && Bool.eqb (r_capture r) cap.

(** DOM "add an event listener": appended unless the list already has an
    entry with the same type, callback and capture. *)
Definition add_an_event_listener (t : Target) (type : string) (l : Listener) (o : Options)
    (rs : list Registration) : list Registration :=
  if existsb (same_listener t type l (flatten o)) rs then rs
  else rs ++ [ {| r_target := t; r_type := type; r_callback := l;
                  r_capture := flatten o; r_once := flatten_once o |} ].

(** DOM "remove an event listener": the entry with the same type, callback
    and capture goes, if there is one. *)
Definition remove_an_event_listener (t : Target) (type : string) (l : Listener) (o : Options)
    (rs : list Registration) : list Registration :=
  List.filter (fun r => negb (same_listener t type l (flatten o) r)) rs.

(** [t.addEventListener(type, l, o)]: a TypeError when [t] has no such
    method. *)
Definition addEventListener (t : Target) (type : string) (l : Listener) (o : Options)
    (w : World) : Completion World :=
  if has_addEventListener t then
    Normal {| refs := refs w;
              registry := add_an_event_listener t type l o (registry w);
              next_fn := next_fn w;
              trace := trace w ++ [AddEventListener t type l o];
              invoked := invoked w |}
  else Throw TypeError.

Definition removeEventListener (t : Target) (type : string) (l : Listener) (o : Options)
    (w : World) : Completion World :=
  if has_addEventListener t then
    Normal {| refs := refs w;
              registry := remove_an_event_listener t type l o (registry w);
              next_fn := next_fn w;
              trace := trace w ++ [RemoveEventListener t type l o];
              invoked := invoked w |}
  else Throw TypeError.

(** ** React: one mounted call of the hook

    [Object.is] on the three kinds of dependency. *)

Definition Object_is_handler (a b : Handler) : bool := Nat.eqb a b.

Definition Object_is_ref (a b : option RefId) : bool :=
  match a, b with
  | None, None => true
  | Some x, Some y => Nat.eqb x y
  | _, _ => false
  end.

Definition Object_is_options (a b : Options) : bool :=
  match a, b with
  | OptUndefined, OptUndefined => true
  | OptBool x, OptBool y => Bool.eqb x y
  | OptObject x, OptObject y => Nat.eqb (opt_id x) (opt_id y)
  | _, _ => false
  end.

(** The arguments of one call [useEventListener(eventName, handler, element,
    options)]. *)
Record Props : Type := {
  eventName : string;
  handler : Handler;
  element : option RefId;
  options : Options
}.

Definition Deps : Type := (string * option RefId * Options)%type.

Definition deps_of (p : Props) : Deps := (eventName p, element p, options p).

(** React's [areHookInputsEqual] on [[eventName, element, options]]. *)
Definition areHookInputsEqual (prev next : Deps) : bool :=
  let '(n1, e1, o1) := prev in
  let '(n2, e2, o2) := next in
  String.eqb n1 n2 && Object_is_ref e1 e2 && Object_is_options o1 o2.

(** The closure the second effect returns:
    [() => targetElement.removeEventListener(eventName, listener, options)],
    as the variables it captured. *)
Record Cleanup : Type := {
  c_target : Target;
  c_eventName : string;
  c_listener : Listener;
  c_options : Options
}.

(** What React keeps for the call between renders: the [savedHandler] ref
    cell, the dependency arrays of the last commit, and the destroy function
    of the second effect. *)
Record Hook : Type := {
  savedHandler : Handler;
  deps_handler : Handler;
  deps_binding : Deps;
  destroy : option Cleanup
}.

(** [element?.current ?? window] *)
Definition resolve_target (el : option RefId) (w : World) : Target :=
  match el with
  | None => Window
  | Some r =>
      match refs w !! r with
      | Some t => t
      | None => Window
      end
  end.

(** [const listener = (event) => savedHandler.current(event)]: a new
    function object. *)
Definition new_listener (w : World) : Listener * World :=
  ({| fn_id := next_fn w |},
   {| refs := refs w; registry := registry w; next_fn := S (next_fn w);
      trace := trace w; invoked := invoked w |}).

(** The body of the second effect. *)
Definition bind_effect (p : Props) (w : World) : Completion (option Cleanup * World) :=
  let targetElement := resolve_target (element p) w in
  if negb (has_addEventListener targetElement) then Normal (None, w)
  else
    let '(listener, w1) := new_listener w in
    let* w2 := addEventListener targetElement (eventName p) listener (options p) w1 in
    Normal (Some {| c_target := targetElement; c_eventName := eventName p;
                    c_listener := listener; c_options := options p |}, w2).

(** The closure called.  [c_options] stands for the options as the platform
    reads them at this call; for an options object that was changed in
    place since the effect ran, see [live_cleanup] below. *)
Definition run_cleanup (c : Cleanup) (w : World) : Completion World :=
  removeEventListener (c_target c) (c_eventName c) (c_listener c) (c_options c) w.

Definition run_destroy (d : option Cleanup) (w : World) : Completion World :=
  match d with
  | Some c => run_cleanup c w
  | None => Normal w
  end.

(** [useRef(initialValue)]: the cell is made at the first render and is the
    same object at every later one. *)
Definition useRef (initialValue : Handler) (prev : option Hook) : Handler :=
  match prev with
  | None => initialValue
  | Some h => savedHandler h
  end.

(** Whether React runs an effect at this commit: always at the first one,
    later when a dependency is not [Object.is] the previous one. *)
Definition effect_is_due {D : Type} (same : D -> D -> bool) (prev : option D) (next : D)
    : bool :=
  match prev with
  | None => true
  | Some d => negb (same d next)
  end.

Definition previous_destroy (prev : option Hook) : option Cleanup :=
  match prev with
  | Some h => destroy h
  | None => None
  end.

(** One call of the hook together with its passive effects: [prev] is what
    React kept from the previous render ([None] at the first).  The body of
    the function itself changes nothing ([useRef] hands out the cell,
    [useEffect] registers); when React runs the passive effects of the
    render, it first runs the destroy functions of the effects that are due,
    then their bodies in the order of the hook calls:
    [savedHandler.current = handler], then the second effect.  React runs
    them some time after the commit: until then the page and the cell are
    as they were before this render ([run_passive_effects] below places the
    call in time). *)
Definition useEventListener (p : Props) (prev : option Hook) (w : World)
    : Completion (Hook * World) :=
  let savedHandler_current := useRef (handler p) prev in
  let due1 := effect_is_due Object_is_handler (option_map deps_handler prev) (handler p) in
  let due2 := effect_is_due areHookInputsEqual (option_map deps_binding prev) (deps_of p) in
  let* w1 := (if due2 then run_destroy (previous_destroy prev) w else Normal w) in
  let saved := if due1 then handler p else savedHandler_current in
  let* (d, w2) := (if due2 then bind_effect p w1 else Normal (previous_destroy prev, w1)) in
  Normal ({| savedHandler := saved; deps_handler := handler p;
             deps_binding := deps_of p; destroy := d |}, w2).

(** The first render of a component, and a later one. *)
Definition mount (p : Props) (w : World) : Completion (Hook * World) :=
  useEventListener p None w.

Definition update (p : Props) (h : Hook) (w : World) : Completion (Hook * World) :=
  useEventListener p (Some h) w.

(** Unmount: every effect's destroy function runs. *)
Definition unmount (h : Hook) (w : World) : Completion World :=
  run_destroy (destroy h) w.

(** ** Event delivery

    Every listener the hook installs is the same trampoline over the one
    [savedHandler] cell: called with an event, it calls the handler the cell
    holds at that moment. *)
Definition call_listener (h : Hook) (ev : Event) (w : World) : World :=
  {| refs := refs w; registry := registry w; next_fn := next_fn w;
     trace := trace w; invoked := invoked w ++ [(savedHandler h, ev)] |}.

Definition is_registered (r : Registration) (w : World) : bool :=
  existsb (same_listener (r_target r) (r_type r) (r_callback r) (r_capture r)) (registry w).

Definition drop_registration (r : Registration) (w : World) : World :=
  {| refs := refs w;
     registry := List.filter
       (fun x => negb (same_listener (r_target r) (r_type r) (r_callback r) (r_capture r) x))
       (registry w);
     next_fn := next_fn w; trace := trace w; invoked := invoked w |}.

(** DOM "inner invoke" for one listener of the snapshot: skipped when it was
    removed meanwhile; a [once] listener is removed before its callback
    runs. *)
Definition inner_invoke (h : Hook) (ev : Event) (w : World) (r : Registration) : World :=
  if is_registered r w then
    call_listener h ev (if r_once r then drop_registration r w else w)
  else w.

(** The listeners of the one object [t] run for [ev], in the order of the
    list: what [t.dispatchEvent(ev)] does when the path of the event is [t]
    alone.  [dispatch_along] below walks a whole path. *)
Definition dispatchEvent (t : Target) (ev : Event) (h : Hook) (w : World) : World :=
  fold_left (inner_invoke h ev)
    (List.filter (fun r => Target_eqb (r_target r) t && String.eqb (r_type r) (ev_type ev))
       (registry w))
    w.

(** ** Histories of one mounted hook *)

Inductive Step : Type :=
| Render (p : Props)
| SetRef (r : RefId) (v : option Target)
| Dispatch (t : Target) (ev : Event).

Definition set_ref (r : RefId) (v : option Target) (w : World) : World :=
  {| refs := match v with
             | Some t => <[r := t]> (refs w)
             | None => delete r (refs w)
             end;
     registry := registry w; next_fn := next_fn w;
     trace := trace w; invoked := invoked w |}.

Definition step (s : Step) (st : Hook * World) : Completion (Hook * World) :=
  let '(h, w) := st in
  match s with
  | Render p => update p h w
  | SetRef r v => Normal (h, set_ref r v w)
  | Dispatch t ev => Normal (h, dispatchEvent t ev h w)
  end.

Fixpoint run (ss : list Step) (st : Hook * World) : Completion (Hook * World) :=
  match ss with
  | [] => Normal st
  | s :: ss' => let* st' := step s st in run ss' st'
  end.

(** Mount on a fresh page, then the steps. *)
Definition history (rs : gmap nat Target) (p0 : Props) (ss : list Step)
    : Completion (Hook * World) :=
  let* st := mount p0 (initial_world rs) in run ss st.

(** The whole life of the hook: mount, the steps, unmount. *)
Definition lifetime (rs : gmap nat Target) (p0 : Props) (ss : list Step)
    : Completion World :=
  let* (h, w) := history rs p0 ss in unmount h w.

(** ** Shapes of traces *)

Definition call_of_add (c : Cleanup) : Call :=
  AddEventListener (c_target c) (c_eventName c) (c_listener c) (c_options c).

Definition call_of_remove (c : Cleanup) : Call :=
  RemoveEventListener (c_target c) (c_eventName c) (c_listener c) (c_options c).

Definition is_add (c : Call) : bool :=
  match c with AddEventListener _ _ _ _ => true | _ => false end.

Definition is_remove (c : Call) : bool :=
  match c with RemoveEventListener _ _ _ _ => true | _ => false end.

Definition count_adds (tr : list Call) : nat := List.length (List.filter is_add tr).
Definition count_removes (tr : list Call) : nat := List.length (List.filter is_remove tr).

(** The calls of listeners that were attached and detached again: for each,
    its add and then its remove, with the same four arguments. *)
Definition closed_calls (cs : list Cleanup) : list Call :=
  flat_map (fun c => [call_of_add c; call_of_remove c]) cs.

(** The call of the listener that is attached now, if one is. *)
Definition pending_call (d : option Cleanup) : list Call :=
  match d with
  | Some c => [call_of_add c]
  | None => []
  end.

(** The listener-list entry [addEventListener] makes of a cleanup's
    captured arguments. *)
Definition registration_of (c : Cleanup) : Registration :=
  {| r_target := c_target c; r_type := c_eventName c; r_callback := c_listener c;
     r_capture := flatten (c_options c); r_once := flatten_once (c_options c) |}.

(** What holds of the hook and the page between two steps. *)
Record hook_inv (h : Hook) (w : World) : Prop := {
  inv_saved : savedHandler h = deps_handler h;
  inv_capable : forall c, destroy h = Some c -> has_addEventListener (c_target c) = true;
  inv_trace : exists cs, trace w = closed_calls cs ++ pending_call (destroy h);
  inv_registry : forall r, In r (registry w) ->
                 exists c, destroy h = Some c /\ r = registration_of c
}.


(** A step that leaves [eventName], [element] and [options] as [p0] had
    them (compared as React compares them); handlers, ref contents and
    events are free. *)
Definition keeps_binding (p0 : Props) (s : Step) : bool :=
  match s with
  | Render p => areHookInputsEqual (deps_of p0) (deps_of p)
  | _ => true
  end.

(** An options object with the fields of [o] at another address. *)
Definition reallocated (o : AddEventListenerOptions) (i : nat) : AddEventListenerOptions :=
  {| opt_id := i; capture := capture o; once := once o; passive := passive o |}.

Definition with_options (p0 : Props) (o : AddEventListenerOptions) : Props :=
  {| eventName := eventName p0; handler := handler p0; element := element p0;
     options := OptObject o |}.

(** Each address differs from the one used in the render before. *)
Fixpoint freshly_allocated (prev : nat) (ids : list nat) : bool :=
  match ids with
  | [] => true
  | i :: ids' => negb (Nat.eqb prev i) && freshly_allocated i ids'
  end.

(** A platform call on target [t] for events [type] whose options object
    has the fields of [o] (at whatever address). *)
Definition same_subscription (t : Target) (type : string) (o : AddEventListenerOptions)
    (c : Call) : Prop :=
  match c with
  | AddEventListener t' type' _ (OptObject o')
  | RemoveEventListener t' type' _ (OptObject o') =>
      t' = t /\ type' = type /\
      capture o' = capture o /\ once o' = once o /\ passive o' = passive o
  | _ => False
  end.

(** ** JavaScript values (platform model)

    The storage hooks pass values through [JSON.stringify] and [JSON.parse].
    Both are the platform's; they are modelled after ECMA-262 (25.5) on the
    values below.

    A string is its sequence of UTF-16 code units.  A number is [NaN], an
    infinity, [-0], an integer, or a decimal fraction [m * 10^e] ([e < 0],
    [m] not a multiple of ten).  Finite numbers are kept as exact decimals:
    the rounding of a decimal text to binary64 is outside the model, which
    therefore agrees with the platform on the integers binary64 holds
    exactly and on short decimals.  An object is the list of its own
    enumerable string-keyed properties in the order they were created (the
    model does not move integer-like names first, as enumeration does). *)

Abbreviation JsString := (list N) (only parsing).

(** The code units of an ASCII literal. *)
Definition js (s : string) : JsString :=
  List.map (fun a => N.of_nat (Ascii.nat_of_ascii a)) (list_ascii_of_string s).

Inductive JsNumber : Type :=
| NaN
| PosInfinity
| NegInfinity
| NegZero
| Integer (z : Z)
| Fraction (m : Z) (e : Z).

Inductive JsValue : Type :=
| VUndefined
| VNull
| VBool (b : bool)
| VNumber (n : JsNumber)
| VBigInt (z : Z)
| VString (s : JsString)
| VArray (elems : list JsValue)
| VObject (props : list (JsString * JsValue)).

(** *** Decimal digits *)

Fixpoint uint_chars (d : Decimal.uint) : JsString :=
  match d with
  | Nil => []
  | D0 d' => 48%N :: uint_chars d'
  | D1 d' => 49%N :: uint_chars d'
  | D2 d' => 50%N :: uint_chars d'
  | D3 d' => 51%N :: uint_chars d'
  | D4 d' => 52%N :: uint_chars d'
  | D5 d' => 53%N :: uint_chars d'
  | D6 d' => 54%N :: uint_chars d'
  | D7 d' => 55%N :: uint_chars d'
  | D8 d' => 56%N :: uint_chars d'
  | D9 d' => 57%N :: uint_chars d'
  end.

Definition digits_of (n : N) : JsString := uint_chars (N.to_uint n).

Definition is_digit (c : N) : bool := (48 <=? c)%N && (c <=? 57)%N.

(** The digit a code unit stands for, put in front of [d]. *)
Definition push_digit (c : N) (d : Decimal.uint) : Decimal.uint :=
  match (c - 48)%N with
  | 0%N => D0 d
  | 1%N => D1 d
  | 2%N => D2 d
  | 3%N => D3 d
  | 4%N => D4 d
  | 5%N => D5 d
  | 6%N => D6 d
  | 7%N => D7 d
  | 8%N => D8 d
  | _ => D9 d
  end.

(** The longest run of digits at the head of the text, and what follows. *)
Fixpoint read_digits (s : JsString) : Decimal.uint * JsString :=
  match s with
  | c :: rest =>
      if is_digit c then
        let '(d, rest') := read_digits rest in (push_digit c d, rest')
      else (Nil, s)
  | [] => (Nil, [])
  end.

(** The digits of a run of digit characters. *)
Fixpoint uint_of_chars (cs : JsString) : Decimal.uint :=
  match cs with
  | [] => Nil
  | c :: cs' => push_digit c (uint_of_chars cs')
  end.

(** The digits of [d] followed by those of [d']. *)
Fixpoint uint_app (d d' : Decimal.uint) : Decimal.uint :=
  match d with
  | Nil => d'
  | D0 u => D0 (uint_app u d')
  | D1 u => D1 (uint_app u d')
  | D2 u => D2 (uint_app u d')
  | D3 u => D3 (uint_app u d')
  | D4 u => D4 (uint_app u d')
  | D5 u => D5 (uint_app u d')
  | D6 u => D6 (uint_app u d')
  | D7 u => D7 (uint_app u d')
  | D8 u => D8 (uint_app u d')
  | D9 u => D9 (uint_app u d')
  end.

(** *** Number::toString *)

Fixpoint strip_trailing_zeros (s : JsString) : JsString :=
  match s with
  | [] => []
  | c :: rest =>
      match strip_trailing_zeros rest with
      | [] => if (c =? 48)%N then [] else [c]
      | rest' => c :: rest'
      end
  end.

(** [d.ddd e±x] for the digits [ds] of a number [0.ds * 10^n]. *)
Definition exponent_form (ds : JsString) (n : Z) : JsString :=
  match ds with
  | [] => []
  | d :: more =>
      d :: (match more with [] => [] | _ => 46%N :: more end)
        ++ 101%N :: (if (0 <=? n - 1)%Z then 43%N else 45%N)
        :: digits_of (Z.abs_N (n - 1))
  end.

Definition sign_chars (negative : bool) : JsString :=
  if negative then [45%N] else [].

Definition Number_toString (x : JsNumber) : JsString :=
  match x with
  | NaN => js "NaN"
  | PosInfinity => js "Infinity"
  | NegInfinity => js "-Infinity"
  | NegZero => js "0"
  | Integer z =>
      if (Z.abs z <? 10 ^ 21)%Z then
        sign_chars (z <? 0)%Z ++ digits_of (Z.abs_N z)
      else
        sign_chars (z <? 0)%Z
        ++ exponent_form (strip_trailing_zeros (digits_of (Z.abs_N z)))
             (Z.of_nat (List.length (digits_of (Z.abs_N z))))
  | Fraction m e =>
      let ds := digits_of (Z.abs_N m) in
      let n := (Z.of_nat (List.length ds) + e)%Z in
      sign_chars (m <? 0)%Z ++
      (if (0 <? n)%Z && (n <=? 21)%Z then
         firstn (Z.to_nat n) ds ++ 46%N :: skipn (Z.to_nat n) ds
       else if (-6 <? n)%Z && (n <=? 0)%Z then
         48%N :: 46%N :: repeat 48%N (Z.to_nat (- n)) ++ ds
       else exponent_form ds n)
  end.

(** *** QuoteJSONString *)

Definition is_leading_surrogate (c : N) : bool := (55296 <=? c)%N && (c <=? 56319)%N.
Definition is_trailing_surrogate (c : N) : bool := (56320 <=? c)%N && (c <=? 57343)%N.

Definition hex_char (n : N) : N := if (n <? 10)%N then (48 + n)%N else (87 + n)%N.

(** [\uXXXX], lower-case. *)
Definition UnicodeEscape (c : N) : JsString :=
  [92%N; 117%N; hex_char (c / 4096); hex_char ((c / 256) mod 16);
   hex_char ((c / 16) mod 16); hex_char (c mod 16)].

(** One code unit that is not the first half of a surrogate pair. *)
Definition quote_unit (c : N) : JsString :=
  if (c =? 8)%N then [92%N; 98%N]
  else if (c =? 9)%N then [92%N; 116%N]
  else if (c =? 10)%N then [92%N; 110%N]
  else if (c =? 12)%N then [92%N; 102%N]
  else if (c =? 13)%N then [92%N; 114%N]
  else if (c =? 34)%N then [92%N; 34%N]
  else if (c =? 92)%N then [92%N; 92%N]
  else if (c <? 32)%N || is_trailing_surrogate c then UnicodeEscape c
  else [c].

Fixpoint quote_units (s : JsString) : JsString :=
  match s with
  | [] => []
  | c :: rest =>
      if is_leading_surrogate c then
        match rest with
        | d :: rest' =>
            if is_trailing_surrogate d then c :: d :: quote_units rest'
            else UnicodeEscape c ++ quote_units rest
        | [] => UnicodeEscape c
        end
      else quote_unit c ++ quote_units rest
  end.

Definition QuoteJSONString (s : JsString) : JsString :=
  34%N :: quote_units s ++ [34%N].

(** *** JSON.stringify (no replacer, no indentation)

    [None] is the [undefined] that SerializeJSONProperty returns for a value
    with no JSON text. *)

Fixpoint join_comma (parts : list JsString) : JsString :=
  match parts with
  | [] => []
  | [p] => p
  | p :: more => p ++ 44%N :: join_comma more
  end.

Fixpoint SerializeJSONProperty (v : JsValue) : Completion (option JsString) :=
  match v with
  | VUndefined => Normal None
  | VNull => Normal (Some (js "null"))
  | VBool true => Normal (Some (js "true"))
  | VBool false => Normal (Some (js "false"))
  | VNumber (Integer z) => Normal (Some (Number_toString (Integer z)))
  | VNumber (Fraction m e) => Normal (Some (Number_toString (Fraction m e)))
  | VNumber NegZero => Normal (Some (Number_toString NegZero))
  | VNumber _ => Normal (Some (js "null"))
  | VBigInt _ => Throw TypeError
  | VString s => Normal (Some (QuoteJSONString s))
  | VArray elems =>
      let* parts :=
        (fix SerializeJSONArray (l : list JsValue) : Completion (list JsString) :=
           match l with
           | [] => Normal []
           | x :: l' =>
               let* sx := SerializeJSONProperty x in
               let* more := SerializeJSONArray l' in
               Normal (match sx with Some t => t | None => js "null" end :: more)
           end) elems in
      Normal (Some (91%N :: join_comma parts ++ [93%N]))
  | VObject props =>
      let* parts :=
        (fix SerializeJSONObject (l : list (JsString * JsValue)) : Completion (list JsString) :=
           match l with
           | [] => Normal []
           | (k, x) :: l' =>
               let* sx := SerializeJSONProperty x in
               let* more := SerializeJSONObject l' in
               Normal (match sx with
                       | Some t => (QuoteJSONString k ++ 58%N :: t) :: more
                       | None => more
                       end)
           end) props in
      Normal (Some (123%N :: join_comma parts ++ [125%N]))
  end.

Definition JSON_stringify (v : JsValue) : Completion (option JsString) :=
  SerializeJSONProperty v.

(** *** JSON.parse (no reviver) *)

Inductive ParseResult (A : Type) : Type :=
| Parsed (a : A) (rest : JsString)
| Invalid
| OutOfFuel.

Arguments Parsed {A} a rest.
Arguments Invalid {A}.
Arguments OutOfFuel {A}.

Definition is_ws (c : N) : bool :=
  (c =? 9)%N || (c =? 10)%N || (c =? 13)%N || (c =? 32)%N.

Fixpoint skip_ws (s : JsString) : JsString :=
  match s with
  | c :: rest => if is_ws c then skip_ws rest else s
  | [] => []
  end.

Fixpoint strip_prefix (p s : JsString) : option JsString :=
  match p, s with
  | [], _ => Some s
  | a :: p', b :: s' => if (a =? b)%N then strip_prefix p' s' else None
  | _ :: _, [] => None
  end.

Definition hex_value (c : N) : option N :=
  if is_digit c then Some (c - 48)%N
  else if (97 <=? c)%N && (c <=? 102)%N then Some (c - 87)%N
  else if (65 <=? c)%N && (c <=? 70)%N then Some (c - 55)%N
  else None.

Definition hex4_value (a b c d : N) : option N :=
  match hex_value a, hex_value b, hex_value c, hex_value d with
  | Some x, Some y, Some z, Some t => Some (x * 4096 + y * 256 + z * 16 + t)%N
  | _, _, _, _ => None
  end.

(** The code unit of a two-character escape [\e]. *)
Definition simple_escape (e : N) : option N :=
  if (e =? 34)%N then Some 34%N
  else if (e =? 92)%N then Some 92%N
  else if (e =? 47)%N then Some 47%N
  else if (e =? 98)%N then Some 8%N
  else if (e =? 102)%N then Some 12%N
  else if (e =? 110)%N then Some 10%N
  else if (e =? 114)%N then Some 13%N
  else if (e =? 116)%N then Some 9%N
  else None.

(** The characters of a string literal after its opening quote, up to and
    including the closing one. *)
Fixpoint parse_string_units (s : JsString) : option (JsString * JsString) :=
  match s with
  | [] => None
  | c :: rest =>
      if (c =? 34)%N then Some ([], rest)
      else if (c =? 92)%N then
        match rest with
        | [] => None
        | e :: rest1 =>
            if (e =? 117)%N then
              match rest1 with
              | h1 :: h2 :: h3 :: h4 :: rest2 =>
                  match hex4_value h1 h2 h3 h4 with
                  | Some u =>
                      match parse_string_units rest2 with
                      | Some (str, r) => Some (u :: str, r)
                      | None => None
                      end
                  | None => None
                  end
              | _ => None
              end
            else
              match simple_escape e with
              | Some u =>
                  match parse_string_units rest1 with
                  | Some (str, r) => Some (u :: str, r)
                  | None => None
                  end
              | None => None
              end
        end
      else if (c <? 32)%N then None
      else
        match parse_string_units rest with
        | Some (str, r) => Some (c :: str, r)
        | None => None
        end
  end.

(** The number [±m * 10^e] in the model's normal form. *)
Fixpoint strip_factor_ten (fuel : nat) (m : N) (e : Z) : N * Z :=
  match fuel with
  | O => (m, e)
  | S fuel' =>
      if (e <? 0)%Z && (m mod 10 =? 0)%N
      then strip_factor_ten fuel' (m / 10)%N (e + 1)%Z
      else (m, e)
  end.

Definition signed (negative : bool) (m : N) : Z :=
  if negative then (- Z.of_N m)%Z else Z.of_N m.

Definition decimal_number (negative : bool) (m : N) (e : Z) : JsNumber :=
  if (m =? 0)%N then (if negative then NegZero else Integer 0)
  else if (0 <=? e)%Z then Integer (signed negative m * 10 ^ e)
  else
    let '(m', e') := strip_factor_ten (Z.to_nat (- e)) m e in
    if (e' =? 0)%Z then Integer (signed negative m') else Fraction (signed negative m') e'.

Definition parse_minus (s : JsString) : bool * JsString :=
  match s with
  | c :: rest => if (c =? 45)%N then (true, rest) else (false, s)
  | [] => (false, s)
  end.

(** [0] or a digit from 1 to 9 followed by digits. *)
Definition int_part_ok (d : Decimal.uint) : bool :=
  match d with
  | Nil => false
  | D0 Nil => true
  | D0 _ => false
  | _ => true
  end.

Definition parse_int_digits (s : JsString) : option (Decimal.uint * JsString) :=
  let '(d, rest) := read_digits s in
  if int_part_ok d then Some (d, rest) else None.

Definition parse_fraction (s : JsString) : option (Decimal.uint * JsString) :=
  match s with
  | c :: rest =>
      if (c =? 46)%N then
        match read_digits rest with
        | (Nil, _) => None
        | (d, rest') => Some (d, rest')
        end
      else Some (Nil, s)
  | [] => Some (Nil, s)
  end.

Definition parse_exponent_sign (s : JsString) : bool * JsString :=
  match s with
  | c :: rest =>
      if (c =? 45)%N then (true, rest)
      else if (c =? 43)%N then (false, rest)
      else (false, s)
  | [] => (false, s)
  end.

Definition parse_exponent (s : JsString) : option (Z * JsString) :=
  match s with
  | c :: rest =>
      if (c =? 101)%N || (c =? 69)%N then
        let '(negative, rest1) := parse_exponent_sign rest in
        match read_digits rest1 with
        | (Nil, _) => None
        | (d, rest2) => Some (signed negative (N.of_uint d), rest2)
        end
      else Some (0%Z, s)
  | [] => Some (0%Z, s)
  end.

Definition parse_number (s : JsString) : option (JsNumber * JsString) :=
  let '(negative, s1) := parse_minus s in
  match parse_int_digits s1 with
  | None => None
  | Some (int_part, s2) =>
      match parse_fraction s2 with
      | None => None
      | Some (frac_part, s3) =>
          match parse_exponent s3 with
          | None => None
          | Some (ex, s4) =>
              Some (decimal_number negative
                      (N.of_uint (uint_app int_part frac_part))
                      (ex - Z.of_nat (Decimal.nb_digits frac_part)),
                    s4)
          end
      end
  end.

(** A member [k: v] read before the members [later] of the same object: a
    later member of the same name gives the value, the first occurrence the
    place. *)
Fixpoint find_property (k : JsString) (ps : list (JsString * JsValue)) : option JsValue :=
  match ps with
  | [] => None
  | (k', v) :: ps' => if decide (k' = k) then Some v else find_property k ps'
  end.

Fixpoint drop_property (k : JsString) (ps : list (JsString * JsValue))
    : list (JsString * JsValue) :=
  match ps with
  | [] => []
  | (k', v) :: ps' =>
      if decide (k' = k) then drop_property k ps' else (k', v) :: drop_property k ps'
  end.

Definition define_member (k : JsString) (v : JsValue) (later : list (JsString * JsValue))
    : list (JsString * JsValue) :=
  match find_property k later with
  | Some v' => (k, v') :: drop_property k later
  | None => (k, v) :: later
  end.

Fixpoint parse_value (fuel : nat) (s : JsString) : ParseResult JsValue :=
  match fuel with
  | O => OutOfFuel
  | S f =>
      match skip_ws s with
      | [] => Invalid
      | c :: rest =>
          if (c =? 34)%N then
            match parse_string_units rest with
            | Some (str, r) => Parsed (VString str) r
            | None => Invalid
            end
          else if (c =? 91)%N then
            match skip_ws rest with
            | [] => Invalid
            | d :: r =>
                if (d =? 93)%N then Parsed (VArray []) r
                else
                  match parse_elements f (d :: r) with
                  | Parsed vs r' => Parsed (VArray vs) r'
                  | Invalid => Invalid
                  | OutOfFuel => OutOfFuel
                  end
            end
          else if (c =? 123)%N then
            match skip_ws rest with
            | [] => Invalid
            | d :: r =>
                if (d =? 125)%N then Parsed (VObject []) r
                else
                  match parse_members f (d :: r) with
                  | Parsed ps r' => Parsed (VObject ps) r'
                  | Invalid => Invalid
                  | OutOfFuel => OutOfFuel
                  end
            end
          else
            match strip_prefix (js "null") (c :: rest) with
            | Some r => Parsed VNull r
            | None =>
            match strip_prefix (js "true") (c :: rest) with
            | Some r => Parsed (VBool true) r
            | None =>
            match strip_prefix (js "false") (c :: rest) with
            | Some r => Parsed (VBool false) r
            | None =>
            match parse_number (c :: rest) with
            | Some (n, r) => Parsed (VNumber n) r
            | None => Invalid
            end end end end
      end
  end

with parse_elements (fuel : nat) (s : JsString) : ParseResult (list JsValue) :=
  match fuel with
  | O => OutOfFuel
  | S f =>
      match parse_value f s with
      | Parsed v r =>
          match skip_ws r with
          | [] => Invalid
          | c :: r' =>
              if (c =? 44)%N then
                match parse_elements f r' with
                | Parsed vs r'' => Parsed (v :: vs) r''
                | Invalid => Invalid
                | OutOfFuel => OutOfFuel
                end
              else if (c =? 93)%N then Parsed [v] r'
              else Invalid
          end
      | Invalid => Invalid
      | OutOfFuel => OutOfFuel
      end
  end

with parse_members (fuel : nat) (s : JsString) : ParseResult (list (JsString * JsValue)) :=
  match fuel with
  | O => OutOfFuel
  | S f =>
      match skip_ws s with
      | [] => Invalid
      | q :: r0 =>
          if (q =? 34)%N then
            match parse_string_units r0 with
            | None => Invalid
            | Some (k, r1) =>
                match skip_ws r1 with
                | [] => Invalid
                | colon :: r2 =>
                    if (colon =? 58)%N then
                      match parse_value f r2 with
                      | Parsed v r3 =>
                          match skip_ws r3 with
                          | [] => Invalid
                          | c :: r4 =>
                              if (c =? 44)%N then
                                match parse_members f r4 with
                                | Parsed ps r5 => Parsed (define_member k v ps) r5
                                | Invalid => Invalid
                                | OutOfFuel => OutOfFuel
                                end
                              else if (c =? 125)%N then Parsed [(k, v)] r4
                              else Invalid
                          end
                      | Invalid => Invalid
                      | OutOfFuel => OutOfFuel
                      end
                    else Invalid
                end
            end
          else Invalid
      end
  end.

Definition parse_fuel (text : JsString) : nat := 2 * List.length text + 2.

Definition JSON_parse (text : JsString) : Completion JsValue :=
  match parse_value (parse_fuel text) text with
  | Parsed v rest =>
      match skip_ws rest with
      | [] => Normal v
      | _ :: _ => Throw SyntaxError
      end
  | Invalid => Throw SyntaxError
  | OutOfFuel => Throw SyntaxError
  end.

(** *** The values the storage claims are about

    A value every part of which has a JSON text: no [undefined] and no
    BigInt anywhere, finite numbers other than [-0], strings of 16-bit
    units, property names that do not repeat.  A finite number stands for
    the binary64 value whose shortest decimal [Number::toString] prints: an
    integer, or a fraction in normal form. *)

Definition normal_fraction (m e : Z) : bool :=
  negb (m =? 0)%Z && negb (Z.abs_N m mod 10 =? 0)%N && (e <? 0)%Z.

Definition wf_string (s : JsString) : bool := forallb (fun c => (c <? 65536)%N) s.

Fixpoint serializable (v : JsValue) : bool :=
  match v with
  | VUndefined => false
  | VNull => true
  | VBool _ => true
  | VNumber (Integer _) => true
  | VNumber (Fraction m e) => normal_fraction m e
  | VNumber _ => false
  | VBigInt _ => false
  | VString s => wf_string s
  | VArray elems => forallb serializable elems
  | VObject props =>
      forallb (fun kv => let '(k, x) := kv in wf_string k && serializable x) props
      && bool_decide (NoDup (List.map fst props))
  end.

(** The JSON text of a serializable value, written directly. *)
Fixpoint json_text (v : JsValue) : JsString :=
  match v with
  | VUndefined => []
  | VNull => js "null"
  | VBool true => js "true"
  | VBool false => js "false"
  | VNumber x => Number_toString x
  | VBigInt _ => []
  | VString s => QuoteJSONString s
  | VArray elems => 91%N :: join_comma (List.map json_text elems) ++ [93%N]
  | VObject props =>
      123%N :: join_comma (List.map (fun kv => let '(k, x) := kv in
                                       QuoteJSONString k ++ 58%N :: json_text x) props)
      ++ [125%N]
  end.

(** Fuel that suffices to read a value back. *)
Fixpoint need (v : JsValue) : nat :=
  match v with
  | VArray elems =>
      S ((fix need_elems (l : list JsValue) : nat :=
            match l with
            | [] => 0
            | x :: l' => S (need x + need_elems l')
            end) elems)
  | VObject props =>
      S ((fix need_members (l : list (JsString * JsValue)) : nat :=
            match l with
            | [] => 0
            | (_, x) :: l' => S (need x + need_members l')
            end) props)
  | _ => 1
  end.

(** What may follow a value inside a JSON text. *)
Definition value_end (rest : JsString) : bool :=
  match rest with
  | [] => true
  | c :: _ => (c =? 44)%N || (c =? 93)%N || (c =? 125)%N
  end.

(** Induction over values, through the lists of arrays and objects. *)
Section JsValue_nested_ind.
Variable P : JsValue -> Prop.
Hypothesis H_undefined : P VUndefined.
Hypothesis H_null : P VNull.
Hypothesis H_bool : forall b, P (VBool b).
Hypothesis H_number : forall n, P (VNumber n).
Hypothesis H_bigint : forall z, P (VBigInt z).
Hypothesis H_string : forall s, P (VString s).
Hypothesis H_array : forall elems, Forall P elems -> P (VArray elems).
Hypothesis H_object : forall props, Forall (fun kv => P (snd kv)) props -> P (VObject props).

Fixpoint JsValue_nested_ind (v : JsValue) : P v :=
  match v with
  | VUndefined => H_undefined
  | VNull => H_null
  | VBool b => H_bool b
  | VNumber n => H_number n
  | VBigInt z => H_bigint z
  | VString s => H_string s
  | VArray elems =>
      H_array elems
        ((fix go (l : list JsValue) : Forall P l :=
            match l with
            | [] => List.Forall_nil P
            | x :: l' => @List.Forall_cons _ P x l' (JsValue_nested_ind x) (go l')
            end) elems)
  | VObject props =>
      H_object props
        ((fix go (l : list (JsString * JsValue)) : Forall (fun kv => P (snd kv)) l :=
            match l with
            | [] => List.Forall_nil _
            | kv :: l' =>
                @List.Forall_cons _ (fun kv => P (snd kv)) kv l' (JsValue_nested_ind (snd kv)) (go l')
            end) props)
  end.
End JsValue_nested_ind.

Definition need_elems : list JsValue -> nat :=
  fix need_elems (l : list JsValue) : nat :=
    match l with
    | [] => 0
    | x :: l' => S (need x + need_elems l')
    end.

Definition need_members : list (JsString * JsValue) -> nat :=
  fix need_members (l : list (JsString * JsValue)) : nat :=
    match l with
    | [] => 0
    | (_, x) :: l' => S (need x + need_members l')
    end.

Definition member_text (kv : JsString * JsValue) : JsString :=
  let '(k, x) := kv in QuoteJSONString k ++ 58%N :: json_text x.

(** The first code unit of a value's text: no whitespace, no closing
    bracket. *)
Definition starts_value (s : JsString) : bool :=
  match s with
  | [] => false
  | c :: _ => negb (is_ws c) && negb (c =? 93)%N && negb (c =? 125)%N
  end.

(** [parse_value] reads the text of [v] back as [v], whatever follows the
    value, given the fuel [need v]. *)
Definition reads_back (v : JsValue) : Prop :=
  serializable v = true ->
  forall (f : nat) (rest : JsString),
    need v <= f -> value_end rest = true ->
    parse_value f (json_text v ++ rest) = Parsed v rest.

(** ** Web Storage and the console

    A storage area maps keys to strings.  Reading the [localStorage] or
    [sessionStorage] attribute of the window throws a SecurityError when the
    page may not use storage; [setItem] throws a QuotaExceededError when the
    new value does not fit. *)

Record Storage : Type := {
  items : gmap (list N) (list N);
  quota : nat;
  denied : bool
}.

Definition Storage_used (m : gmap (list N) (list N)) : nat :=
  map_fold (fun k v acc => List.length k + List.length v + acc) 0 m.

Definition Storage_fits (key value : JsString) (st : Storage) : bool :=
  Nat.leb (Storage_used (delete key (items st)) + List.length key + List.length value)
          (quota st).

Inductive ConsoleEntry : Type :=
| ConsoleLog (e : JsError)
| ConsoleError (e : JsError).

Record Page : Type := {
  localStorage : Storage;
  sessionStorage : Storage;
  console : list ConsoleEntry
}.

Inductive Area : Type := LocalArea | SessionArea.

Definition area (a : Area) (pg : Page) : Storage :=
  match a with
  | LocalArea => localStorage pg
  | SessionArea => sessionStorage pg
  end.

Definition set_area (a : Area) (st : Storage) (pg : Page) : Page :=
  match a with
  | LocalArea =>
      {| localStorage := st; sessionStorage := sessionStorage pg; console := console pg |}
  | SessionArea =>
      {| localStorage := localStorage pg; sessionStorage := st; console := console pg |}
  end.

(** Code that runs against the page: it returns or throws, and what it did
    to the page before throwing stays done. *)
Definition JsM (A : Type) : Type := Page -> Completion A * Page.

Definition ret {A : Type} (a : A) : JsM A := fun pg => (Normal a, pg).

Definition lift {A : Type} (c : Completion A) : JsM A := fun pg => (c, pg).

Definition bind {A B : Type} (m : JsM A) (k : A -> JsM B) : JsM B :=
  fun pg =>
    match m pg with
    | (Normal a, pg') => k a pg'
    | (Throw e, pg') => (Throw e, pg')
    end.

(** [try { body } catch (error) { handler }] *)
Definition try_catch {A : Type} (body : JsM A) (handler : JsError -> JsM A) : JsM A :=
  fun pg =>
    match body pg with
    | (Normal a, pg') => (Normal a, pg')
    | (Throw e, pg') => handler e pg'
    end.

Notation "'let!' x ':=' m 'in' k" := (bind m (fun x => k))
  (at level 10, x name, m at level 100, k at level 200).

(** [window.localStorage], [window.sessionStorage] *)
Definition window_storage (a : Area) : JsM Area :=
  fun pg => if denied (area a pg) then (Throw SecurityError, pg) else (Normal a, pg).

Definition window_localStorage : JsM Area := window_storage LocalArea.
Definition window_sessionStorage : JsM Area := window_storage SessionArea.

Definition Storage_getItem (a : Area) (key : JsString) : JsM (option JsString) :=
  fun pg => (Normal (items (area a pg) !! key), pg).

Definition Storage_setItem (a : Area) (key value : JsString) : JsM unit :=
  fun pg =>
    let st := area a pg in
    if Storage_fits key value st then
      (Normal tt,
       set_area a {| items := <[key := value]> (items st); quota := quota st;
                     denied := denied st |} pg)
    else (Throw QuotaExceededError, pg).

Definition Storage_removeItem (a : Area) (key : JsString) : JsM unit :=
  fun pg =>
    let st := area a pg in
    (Normal tt,
     set_area a {| items := delete key (items st); quota := quota st;
                   denied := denied st |} pg).

Definition window_console_log (e : JsError) : JsM unit :=
  fun pg =>
    (Normal tt,
     {| localStorage := localStorage pg; sessionStorage := sessionStorage pg;
        console := console pg ++ [ConsoleLog e] |}).

Definition window_console_error (e : JsError) : JsM unit :=
  fun pg =>
    (Normal tt,
     {| localStorage := localStorage pg; sessionStorage := sessionStorage pg;
        console := console pg ++ [ConsoleError e] |}).

(** The DOMString a [string | undefined] argument is converted to. *)
Definition ToString (r : option JsString) : JsString :=
  match r with
  | Some s => s
  | None => js "undefined"
  end.

(** ** useLocalStorage *)

Definition setItem (key : JsString) (value : JsValue) : JsM unit :=
  try_catch
    (let! storage := window_localStorage in
     let! text := lift (JSON_stringify value) in
     Storage_setItem storage key (ToString text))
    (fun error => window_console_log error).

Definition getItem (key : JsString) : JsM JsValue :=
  try_catch
    (let! storage := window_localStorage in
     let! item := Storage_getItem storage key in
     match item with
     | None => ret VUndefined
     | Some text => lift (JSON_parse text)
     end)
    (fun error =>
       let! _ := window_console_log error in
       ret VUndefined).

Definition removeItem (key : JsString) : JsM unit :=
  try_catch
    (let! storage := window_localStorage in
     Storage_removeItem storage key)
    (fun error => window_console_log error).

(** [[getItem, setItem, removeItem]] *)
Definition useLocalStorage (key : JsString)
    : JsM JsValue * (JsValue -> JsM unit) * JsM unit :=
  (getItem key, setItem key, removeItem key).

(** ** useSessionStorage *)

Definition setSessionStorageItem (key : JsString) (value : JsValue) : JsM unit :=
  try_catch
    (let! storage := window_sessionStorage in
     let! text := lift (JSON_stringify value) in
     Storage_setItem storage key (ToString text))
    (fun error => window_console_error error).

Definition getSessionStorageItem (key : JsString) : JsM JsValue :=
  try_catch
    (let! storage := window_sessionStorage in
     let! item := Storage_getItem storage key in
     match item with
     | None => ret VUndefined
     | Some text => lift (JSON_parse text)
     end)
    (fun error =>
       let! _ := window_console_error error in
       ret VUndefined).

Definition removeSessionStorageItem (key : JsString) : JsM unit :=
  try_catch
    (let! storage := window_sessionStorage in
     Storage_removeItem storage key)
    (fun error => window_console_error error).

(** [[getSessionStorageItem, setSessionStorageItem, removeSessionStorageItem]] *)
Definition useSessionStorage (key : JsString)
    : JsM JsValue * (JsValue -> JsM unit) * JsM unit :=
  (getSessionStorageItem key, setSessionStorageItem key, removeSessionStorageItem key).

(** The hook of an area, and the console entry it writes for an error. *)
Definition storage_hook (a : Area) (key : JsString)
    : JsM JsValue * (JsValue -> JsM unit) * JsM unit :=
  match a with
  | LocalArea => useLocalStorage key
  | SessionArea => useSessionStorage key
  end.

Definition logged (a : Area) (e : JsError) : ConsoleEntry :=
  match a with
  | LocalArea => ConsoleLog e
  | SessionArea => ConsoleError e
  end.

Definition getter (a : Area) (key : JsString) : JsM JsValue := fst (fst (storage_hook a key)).
Definition setter (a : Area) (key : JsString) : JsValue -> JsM unit :=
  snd (fst (storage_hook a key)).
Definition remover (a : Area) (key : JsString) : JsM unit := snd (storage_hook a key).

Definition with_console (pg : Page) (entries : list ConsoleEntry) : Page :=
  {| localStorage := localStorage pg; sessionStorage := sessionStorage pg;
     console := console pg ++ entries |}.

Definition empty_page (q : nat) : Page :=
  {| localStorage := {| items := ∅; quota := q; denied := false |};
     sessionStorage := {| items := ∅; quota := q; denied := false |};
     console := [] |}.

(** A code unit read, then the rest of the string. *)
Definition then_unit (c : N) (r : option (JsString * JsString)) : option (JsString * JsString) :=
  match r with
  | Some (str, rest) => Some (c :: str, rest)
  | None => None
  end.

(** ** A mounted hook between two steps, seen from the platform *)

(** The page's listener list against the cleanup React keeps for the hook:
    the one entry the cleanup would remove; nothing once a [once] listener
    has fired; nothing when no listener was attached. *)
Definition registry_shape (h : Hook) (w : World) : Prop :=
  match destroy h with
  | Some c => registry w = [registration_of c] \/
              (flatten_once (c_options c) = true /\ registry w = [])
  | None => registry w = []
  end.

(** ** Renders, effects and events in time

    [useEventListener] above is what React runs for one render by the time
    its passive effects have run: a [Render] step takes the render and its
    effects together, a [Dispatch] step runs the listeners of one target,
    and a cleanup removes with the options as they were when the effect
    ran.  On the page the three are looser.  React commits a render and
    runs its passive effects later, before the next render at the latest,
    and an event may arrive in between.  An event travels a path, from the
    window down to its target and back up.  An options object is passed by
    reference: [removeEventListener] reads the fields the object holds when
    the cleanup runs.  The definitions below place the same hook in that
    setting. *)

(** *** Options objects by address

    [objs] below is the heap of options objects: what the object at each
    address holds now.  An options argument keeps its address; the platform
    reads its fields from the heap at the moment of the call. *)
Definition live_options (objs : gmap nat AddEventListenerOptions) (o : Options)
    : Options :=
  match o with
  | OptObject r =>
      match objs !! opt_id r with
      | Some now => OptObject (reallocated now (opt_id r))
      | None => o
      end
  | _ => o
  end.

Definition live_props (objs : gmap nat AddEventListenerOptions) (p : Props) : Props :=
  {| eventName := eventName p; handler := handler p; element := element p;
     options := live_options objs (options p) |}.

(** The cleanup closure holds [options] as a reference. *)
Definition live_cleanup (objs : gmap nat AddEventListenerOptions) (c : Cleanup)
    : Cleanup :=
  {| c_target := c_target c; c_eventName := c_eventName c; c_listener := c_listener c;
     c_options := live_options objs (c_options c) |}.

Definition live_hook (objs : gmap nat AddEventListenerOptions) (h : Hook) : Hook :=
  {| savedHandler := savedHandler h; deps_handler := deps_handler h;
     deps_binding := deps_binding h;
     destroy := option_map (live_cleanup objs) (destroy h) |}.

(** A render passes the object as it is at that render. *)
Definition observe (o : Options) (objs : gmap nat AddEventListenerOptions)
    : gmap nat AddEventListenerOptions :=
  match o with
  | OptObject r => <[opt_id r := r]> objs
  | _ => objs
  end.

(** *** The component between commits and effects *)

Inductive Phase : Type :=
| FirstRender (p : Props)          (* committed once; no effect has run *)
| Settled (h : Hook)               (* the effects of the last render have run *)
| Rendered (h : Hook) (p : Props)  (* a later render is committed, its effects are pending *)
| Unmounting (h : Hook)            (* removed from the tree; the cleanup is pending *)
| Unmounted (h : Hook).            (* the cleanup has run *)

Record Stage : Type := {
  st_phase : Phase;
  st_objects : gmap nat AddEventListenerOptions;
  st_world : World
}.

(** The [savedHandler] cell the trampolines read.  [useRef(handler)] made
    it at the first render, holding that render's handler; afterwards only
    the first effect writes it. *)
Definition cell_hook (ph : Phase) : Hook :=
  match ph with
  | FirstRender p =>
      {| savedHandler := handler p; deps_handler := handler p;
         deps_binding := deps_of p; destroy := None |}
  | Settled h | Rendered h _ | Unmounting h | Unmounted h => h
  end.

(** The passive effects that are pending run: those of the committed
    render, or the cleanup of a component that was removed. *)
Definition run_passive_effects (ph : Phase) (objs : gmap nat AddEventListenerOptions) (w : World)
    : Completion (Phase * World) :=
  match ph with
  | FirstRender p =>
      let* (h, w') := useEventListener (live_props objs p) None w in
      Normal (Settled h, w')
  | Rendered h p =>
      let* (h', w') := useEventListener (live_props objs p) (Some (live_hook objs h)) w in
      Normal (Settled h', w')
  | Unmounting h =>
      let* w' := unmount (live_hook objs h) w in
      Normal (Unmounted h, w')
  | Settled h => Normal (Settled h, w)
  | Unmounted h => Normal (Unmounted h, w)
  end.

(** *** An event along its path

    DOM "invoke" on one object of the path: the listeners of that object
    for the event's type, those with [capture] on the way down, the others
    at the target and on the way up. *)
Definition invoke_at (capturing : bool) (h : Hook) (ev : Event) (w : World) (t : Target)
    : World :=
  fold_left (inner_invoke h ev)
    (List.filter (fun r => Target_eqb (r_target r) t && String.eqb (r_type r) (ev_type ev)
                           && Bool.eqb (r_capture r) capturing)
       (registry w))
    w.

(** DOM "dispatch".  [path] is the event's path, outermost object first
    and the target last (for a click on an element: the window, the
    document, the ancestors, the element; for [resize]: the window
    alone). *)
Definition dispatch_along (path : list Target) (bubbles : bool) (ev : Event) (h : Hook)
    (w : World) : World :=
  let w1 := fold_left (invoke_at true h ev) path w in
  match List.rev path with
  | [] => w1
  | target :: ancestors =>
      let w2 := invoke_at false h ev w1 target in
      if bubbles then fold_left (invoke_at false h ev) ancestors w2 else w2
  end.

(** *** What happens, one thing at a time *)

Inductive Moment : Type :=
| Commit (p : Props)                                  (* the component renders with [p] *)
| Effects                                             (* React runs the pending passive effects *)
| Assign (r : RefId) (v : option Target)              (* [ref.current = v] *)
| Mutate (i : nat) (fields : AddEventListenerOptions) (* the object at [i] gets these fields *)
| Propagate (path : list Target) (bubbles : bool) (ev : Event)
| Remove.                                             (* the component leaves the tree *)

(** Before it renders a component again, and before it removes it, React
    runs the passive effects that are still pending. *)
Definition moment (m : Moment) (s : Stage) : Completion Stage :=
  match m with
  | Commit p =>
      let* (ph, w) := run_passive_effects (st_phase s) (st_objects s) (st_world s) in
      Normal {| st_phase := match ph with
                            | Settled h => Rendered h p
                            | gone => gone
                            end;
                st_objects := observe (options p) (st_objects s);
                st_world := w |}
  | Effects =>
      let* (ph, w) := run_passive_effects (st_phase s) (st_objects s) (st_world s) in
      Normal {| st_phase := ph; st_objects := st_objects s; st_world := w |}
  | Assign r v =>
      Normal {| st_phase := st_phase s; st_objects := st_objects s;
                st_world := set_ref r v (st_world s) |}
  | Mutate i fields =>
      Normal {| st_phase := st_phase s;
                st_objects := <[i := reallocated fields i]> (st_objects s);
                st_world := st_world s |}
  | Propagate path bubbles ev =>
      Normal {| st_phase := st_phase s; st_objects := st_objects s;
                st_world := dispatch_along path bubbles ev (cell_hook (st_phase s))
                              (st_world s) |}
  | Remove =>
      let* (ph, w) := run_passive_effects (st_phase s) (st_objects s) (st_world s) in
      Normal {| st_phase := match ph with
                            | Settled h => Unmounting h
                            | gone => gone
                            end;
                st_objects := st_objects s;
                st_world := w |}
  end.

Fixpoint moments (ms : list Moment) (s : Stage) : Completion Stage :=
  match ms with
  | [] => Normal s
  | m :: ms' => let* s' := moment m s in moments ms' s'
  end.

(** The first render on a fresh page, then the moments. *)
Definition first_render (rs : gmap nat Target) (p0 : Props) : Stage :=
  {| st_phase := FirstRender p0; st_objects := observe (options p0) ∅;
     st_world := initial_world rs |}.

Definition timeline (rs : gmap nat Target) (p0 : Props) (ms : list Moment)
    : Completion Stage :=
  moments ms (first_render rs p0).

(** *** Conditions on a timeline *)

Definition same_fields (a b : AddEventListenerOptions) : bool :=
  Nat.eqb (opt_id a) (opt_id b) && Bool.eqb (capture a) (capture b)
  && Bool.eqb (once a) (once b) && Bool.eqb (passive a) (passive b).

(** The object passed is new, or holds what it held when it was passed
    before. *)
Definition as_before (objs : gmap nat AddEventListenerOptions) (o : Options) : bool :=
  match o with
  | OptObject r =>
      match objs !! opt_id r with
      | Some now => same_fields now r
      | None => true
      end
  | _ => true
  end.

(** No options object is changed in place: nothing assigns to a field, and
    an object passed again is passed as it was. *)
Fixpoint unmutated (objs : gmap nat AddEventListenerOptions) (ms : list Moment) : bool :=
  match ms with
  | [] => true
  | Commit p :: ms' => as_before objs (options p) && unmutated (observe (options p) objs) ms'
  | Mutate _ _ :: _ => false
  | _ :: ms' => unmutated objs ms'
  end.

Definition is_Remove (m : Moment) : bool :=
  match m with
  | Remove => true
  | _ => false
  end.

(** Whether an event of type [type] with this path runs the listener the
    cleanup [c] stands for: the listener's target is the event's target, or
    an ancestor reached on the way down ([capture]) or on the way up (the
    event bubbles). *)
Definition reaches (c : Cleanup) (path : list Target) (bubbles : bool) (type : string)
    : bool :=
  String.eqb (c_eventName c) type &&
  match List.rev path with
  | [] => false
  | target :: ancestors =>
      Target_eqb (c_target c) target
      || (existsb (Target_eqb (c_target c)) ancestors && (flatten (c_options c) || bubbles))
  end.

(** The object holds what the hook was given. *)
Definition known (objs : gmap nat AddEventListenerOptions) (o : Options) : Prop :=
  match o with
  | OptObject r => objs !! opt_id r = Some r
  | _ => True
  end.

Definition known_hook (objs : gmap nat AddEventListenerOptions) (h : Hook) : Prop :=
  match destroy h with
  | Some c => known objs (c_options c)
  | None => True
  end.

(** What holds of a stage of a timeline without changes in place. *)
Definition stage_inv (s : Stage) : Prop :=
  match st_phase s with
  | FirstRender p =>
      known (st_objects s) (options p) /\ exists rs, st_world s = initial_world rs
  | Settled h | Unmounting h =>
      hook_inv h (st_world s) /\ registry_shape h (st_world s) /\ known_hook (st_objects s) h
  | Rendered h p =>
      hook_inv h (st_world s) /\ registry_shape h (st_world s) /\ known_hook (st_objects s) h
      /\ known (st_objects s) (options p)
  | Unmounted h => registry (st_world s) = []
  end.

(** The component is in the tree. *)
Definition mounted (ph : Phase) : bool :=
  match ph with
  | FirstRender _ | Settled _ | Rendered _ _ => true
  | Unmounting _ | Unmounted _ => false
  end.

(** A step of a history, placed in time: a render whose effects run at
    once, an event that visits the one object it is dispatched on. *)
Definition in_time (s : Step) : list Moment :=
  match s with
  | Render p => [Commit p; Effects]
  | SetRef r v => [Assign r v]
  | Dispatch t ev => [Propagate [t] false ev]
  end.

(** ** What a value becomes on its way through the storage

    [storable] values are the values a caller can hand to the setter without
    [JSON.stringify] throwing: no BigInt anywhere; as everywhere in the
    model, strings are of 16-bit units, fractions are in normal form and the
    property names of an object do not repeat.  [undefined], [NaN], the
    infinities and [-0] are storable, but do not come back as themselves:
    [JSON_image v] is what does. *)

Fixpoint storable (v : JsValue) : bool :=
  match v with
  | VBigInt _ => false
  | VNumber (Fraction m e) => normal_fraction m e
  | VString s => wf_string s
  | VArray elems => forallb storable elems
  | VObject props =>
      forallb (fun kv => let '(k, x) := kv in wf_string k && storable x) props
      && bool_decide (NoDup (List.map fst props))
  | _ => true
  end.

(** An array element without a JSON text is written as [null]. *)
Definition image_element (image : JsValue -> JsValue) (x : JsValue) : JsValue :=
  match x with
  | VUndefined => VNull
  | _ => image x
  end.

(** A property without a JSON text is left out. *)
Fixpoint image_members (image : JsValue -> JsValue) (l : list (JsString * JsValue))
    : list (JsString * JsValue) :=
  match l with
  | [] => []
  | (k, x) :: l' =>
      match x with
      | VUndefined => image_members image l'
      | _ => (k, image x) :: image_members image l'
      end
  end.

Fixpoint JSON_image (v : JsValue) : JsValue :=
  match v with
  | VNumber NaN => VNull
  | VNumber PosInfinity => VNull
  | VNumber NegInfinity => VNull
  | VNumber NegZero => VNumber (Integer 0)
  | VArray elems => VArray (List.map (image_element JSON_image) elems)
  | VObject props => VObject (image_members JSON_image props)
  | _ => v
  end.

(** A BigInt somewhere in the value: [JSON.stringify] throws a TypeError. *)
Fixpoint has_BigInt (v : JsValue) : bool :=
  match v with
  | VBigInt _ => true
  | VArray elems => existsb has_BigInt elems
  | VObject props => existsb (fun kv => has_BigInt (snd kv)) props
  | _ => false
  end.

(** ** Conversions and operators on values (platform model)

    [ToString] and [ToBoolean] of ECMA-262 on the values of the model (an
    array is converted as [Array.prototype.join] does, a plain object gives
    [[object Object]]), and the operators [||], [??] and, on integers, [%]. *)

Fixpoint ToString_value (v : JsValue) : JsString :=
  match v with
  | VUndefined => js "undefined"
  | VNull => js "null"
  | VBool true => js "true"
  | VBool false => js "false"
  | VNumber x => Number_toString x
  | VBigInt z => sign_chars (z <? 0)%Z ++ digits_of (Z.abs_N z)
  | VString s => s
  | VArray elems =>
      join_comma (List.map (fun x => match x with
                                     | VUndefined => []
                                     | VNull => []
                                     | _ => ToString_value x
                                     end) elems)
  | VObject _ => js "[object Object]"
  end.

Definition ToBoolean (v : JsValue) : bool :=
  match v with
  | VUndefined => false
  | VNull => false
  | VBool b => b
  | VNumber NaN => false
  | VNumber NegZero => false
  | VNumber (Integer z) => negb (z =? 0)%Z
  | VNumber (Fraction m _) => negb (m =? 0)%Z
  | VNumber _ => true
  | VBigInt z => negb (z =? 0)%Z
  | VString s => match s with [] => false | _ :: _ => true end
  | VArray _ => true
  | VObject _ => true
  end.

(** [a || b] and [a ?? b], for a [b] whose evaluation does nothing. *)
Definition logical_or (a b : JsValue) : JsValue := if ToBoolean a then a else b.

Definition nullish_coalescing (a b : JsValue) : JsValue :=
  match a with
  | VUndefined => b
  | VNull => b
  | _ => a
  end.

(** [n % d] for integers: the result has the sign of the dividend, also
    when it is zero. *)
Definition remainder_integers (n d : Z) : JsNumber :=
  if (d =? 0)%Z then NaN
  else if (Z.rem n d =? 0)%Z then (if (n <? 0)%Z then NegZero else Integer 0)
  else Integer (Z.rem n d).

(** An integer binary64 holds exactly, with all its neighbours. *)
Definition safe_integer (z : Z) : Prop := (Z.abs z <= 2 ^ 53 - 1)%Z.

(** ** The page of the demo components

    The demo components show values with [alert] and write values to the
    console; the page of the storage hooks is extended with the messages
    shown and with the argument lists of those [console.log] calls. *)

Record Browser : Type := {
  page : Page;
  alerts : list JsString;
  logged_values : list (list JsValue)
}.

Definition BrM (A : Type) : Type := Browser -> Completion A * Browser.

Definition ret_b {A : Type} (a : A) : BrM A := fun b => (Normal a, b).

Definition lift_b {A : Type} (c : Completion A) : BrM A := fun b => (c, b).

Definition bind_b {A B : Type} (m : BrM A) (k : A -> BrM B) : BrM B :=
  fun b =>
    match m b with
    | (Normal a, b') => k a b'
    | (Throw e, b') => (Throw e, b')
    end.

Notation "'let&' x ':=' m 'in' k" := (bind_b m (fun x => k))
  (at level 10, x name, m at level 100, k at level 200).

(** A function of a storage hook, called by a component. *)
Definition on_page {A : Type} (m : JsM A) : BrM A :=
  fun b =>
    let '(r, pg) := m (page b) in
    (r, {| page := pg; alerts := alerts b; logged_values := logged_values b |}).

(** [alert(message)] *)
Definition alert (message : JsValue) : BrM unit :=
  fun b =>
    (Normal tt,
     {| page := page b; alerts := alerts b ++ [ToString_value message];
        logged_values := logged_values b |}).

(** [window.console.log(...args)] *)
Definition window_console_log_values (args : list JsValue) : BrM unit :=
  fun b =>
    (Normal tt,
     {| page := page b; alerts := alerts b;
        logged_values := logged_values b ++ [args] |}).

(** ** UsageLocalStorage (use-local-storage/use.tsx)

    The click handlers of the three buttons.  [rounded] is the value of
    [Math.round(Math.random() * 10)], an integer from 0 to 10 that the
    platform chooses at each click. *)

Definition TOKEN_KEY : JsString := js "token".

Record UsageLocalStorage_handlers : Type := {
  set_item_onClick : Z -> BrM unit;
  remove_item_onClick : BrM unit;
  show_item_onClick : BrM unit
}.

Definition UsageLocalStorage : UsageLocalStorage_handlers :=
  let '(getToken, setToken, removeToken) := useLocalStorage TOKEN_KEY in
  {| set_item_onClick := fun rounded =>
       on_page (setToken (VBool (ToBoolean (VNumber (remainder_integers rounded 2)))));
     remove_item_onClick := on_page removeToken;
     show_item_onClick := let& token := on_page getToken in alert token |}.

(** ** UsageSessionStorage (use-session-storage/use.tsx)

    The operators [+] and [-] are the platform's.  Their arithmetic is that
    of binary64, which the model does not have: the handlers are written
    over any pair of operators, and the properties assume of them what
    binary64 guarantees on safe integers. *)

Definition COUNT_KEY : JsString := js "count".

Definition undefined_count_message : JsString :=
  js "undefined. Please click on Increment or Decrement.".

Record UsageSessionStorage_handlers : Type := {
  handleShow : BrM unit;
  handleIncrement : BrM unit;
  handleDecrement : BrM unit;
  reset_onClick : BrM unit
}.

Section Operators.

Variable binary_plus : JsValue -> JsValue -> Completion JsValue.
Variable binary_minus : JsValue -> JsValue -> Completion JsValue.

Definition UsageSessionStorage : UsageSessionStorage_handlers :=
  let '(getSessionCount, setSessionCount, removeSessionCount) :=
    useSessionStorage COUNT_KEY in
  {| handleIncrement :=
       let& count := on_page getSessionCount in
       let currentCount := logical_or count (VNumber (Integer 0)) in
       let& next := lift_b (binary_plus currentCount (VNumber (Integer 1))) in
       on_page (setSessionCount next);
     handleDecrement :=
       let& count := on_page getSessionCount in
       let currentCount := logical_or count (VNumber (Integer 0)) in
       let& next := lift_b (binary_minus currentCount (VNumber (Integer 1))) in
       on_page (setSessionCount next);
     handleShow :=
       let& count := on_page getSessionCount in
       let& _ := alert (VString (js "The current count is "
                   ++ ToString_value
                        (nullish_coalescing count (VString undefined_count_message)))) in
       let& count' := on_page getSessionCount in
       window_console_log_values [count'; VString (js "getSessionCount")];
     reset_onClick := on_page removeSessionCount |}.

(** The Increment ([true]) and Decrement ([false]) buttons, clicked in the
    order of the list. *)
Fixpoint click_buttons (clicks : list bool) : BrM unit :=
  match clicks with
  | [] => ret_b tt
  | c :: more =>
      let& _ := (if c then handleIncrement UsageSessionStorage
                 else handleDecrement UsageSessionStorage) in
      click_buttons more
  end.

End Operators.

(** Increments minus decrements. *)
Fixpoint tally (clicks : list bool) : Z :=
  match clicks with
  | [] => 0%Z
  | true :: more => (1 + tally more)%Z
  | false :: more => (-1 + tally more)%Z
  end.

(** Operators that add and subtract integers, for examples. *)
Definition integer_plus (a b : JsValue) : Completion JsValue :=
  match a, b with
  | VNumber (Integer x), VNumber (Integer y) => Normal (VNumber (Integer (x + y)))
  | _, _ => Throw TypeError
  end.

Definition integer_minus (a b : JsValue) : Completion JsValue :=
  match a, b with
  | VNumber (Integer x), VNumber (Integer y) => Normal (VNumber (Integer (x - y)))
  | _, _ => Throw TypeError
  end.

Definition empty_browser (q : nat) : Browser :=
  {| page := empty_page q; alerts := []; logged_values := [] |}.

(** The session entry of the counter holds the text of [n]; no entry counts
    as [0]. *)
Definition count_is (b : Browser) (n : Z) : Prop :=
  denied (sessionStorage (page b)) = false /\
  (items (sessionStorage (page b)) !! COUNT_KEY = Some (Number_toString (Integer n)) \/
   (n = 0%Z /\ items (sessionStorage (page b)) !! COUNT_KEY = None)).

(** ** React: the commit of a component that calls the hook several times

    [calls] holds, for each call of [useEventListener] in the component
    function and in the order of the calls, its arguments and what React
    kept for it from the render before.  At the commit React first runs the
    destroy functions of all the effects that are due, in that order, and
    then their bodies, in the same order. *)

Definition HookCall : Type := (Props * option Hook)%type.

Definition handler_is_due (c : HookCall) : bool :=
  effect_is_due Object_is_handler (option_map deps_handler (snd c)) (handler (fst c)).

Definition binding_is_due (c : HookCall) : bool :=
  effect_is_due areHookInputsEqual (option_map deps_binding (snd c)) (deps_of (fst c)).

Fixpoint destroy_effects (calls : list HookCall) (w : World) : Completion World :=
  match calls with
  | [] => Normal w
  | c :: more =>
      let* w1 := (if binding_is_due c then run_destroy (previous_destroy (snd c)) w
                  else Normal w) in
      destroy_effects more w1
  end.

Fixpoint create_effects (calls : list HookCall) (w : World)
    : Completion (list Hook * World) :=
  match calls with
  | [] => Normal ([], w)
  | c :: more =>
      let saved := if handler_is_due c then handler (fst c)
                   else useRef (handler (fst c)) (snd c) in
      let* (d, w1) := (if binding_is_due c then bind_effect (fst c) w
                       else Normal (previous_destroy (snd c), w)) in
      let* (hs, w2) := create_effects more w1 in
      Normal ({| savedHandler := saved; deps_handler := handler (fst c);
                 deps_binding := deps_of (fst c); destroy := d |} :: hs, w2)
  end.

Definition commit_effects (calls : list HookCall) (w : World)
    : Completion (list Hook * World) :=
  let* w1 := destroy_effects calls w in create_effects calls w1.

Fixpoint unmount_effects (hs : list Hook) (w : World) : Completion World :=
  match hs with
  | [] => Normal w
  | h :: more => let* w1 := unmount h w in unmount_effects more w1
  end.

(** ** UsageEventLister (use-event-listener/use.tsx)

    The component keeps two pieces of state, makes three callbacks at every
    render and calls the hook three times.  A callback is a function object:
    it has an identity, taken from the allocator the hook's listeners come
    from, and a body, which the page keeps by identity. *)

Inductive Closure : Type :=
| handleClick (buttonClicked : JsValue)
| handleResize
| dblclick_callback (handleResize_fn : Handler).

Record Env : Type := {
  world : World;
  innerWidth : JsValue;
  functions : gmap nat Closure;
  shown_alerts : list JsString;
  reported : list JsError
}.

(** What React keeps for the mounted component, and what its last commit
    put on the page. *)
Record Fiber : Type := {
  buttonClicked : JsValue;
  windowWidth : JsValue;
  buttonRef : RefId;
  hooks : list Hook;
  shown_buttonClicked : JsValue;
  shown_windowWidth : JsValue
}.

Definition set_world (w : World) (e : Env) : Env :=
  {| world := w; innerWidth := innerWidth e; functions := functions e;
     shown_alerts := shown_alerts e; reported := reported e |}.

Definition set_innerWidth (width : JsValue) (e : Env) : Env :=
  {| world := world e; innerWidth := width; functions := functions e;
     shown_alerts := shown_alerts e; reported := reported e |}.

Definition show_alert (message : JsString) (e : Env) : Env :=
  {| world := world e; innerWidth := innerWidth e; functions := functions e;
     shown_alerts := shown_alerts e ++ [message]; reported := reported e |}.

(** An exception that leaves a listener is reported, not propagated. *)
Definition report (err : JsError) (e : Env) : Env :=
  {| world := world e; innerWidth := innerWidth e; functions := functions e;
     shown_alerts := shown_alerts e; reported := reported e ++ [err] |}.

Definition set_buttonClicked (v : JsValue) (f : Fiber) : Fiber :=
  {| buttonClicked := v; windowWidth := windowWidth f; buttonRef := buttonRef f;
     hooks := hooks f; shown_buttonClicked := shown_buttonClicked f;
     shown_windowWidth := shown_windowWidth f |}.

Definition set_windowWidth (v : JsValue) (f : Fiber) : Fiber :=
  {| buttonClicked := buttonClicked f; windowWidth := v; buttonRef := buttonRef f;
     hooks := hooks f; shown_buttonClicked := shown_buttonClicked f;
     shown_windowWidth := shown_windowWidth f |}.

(** A function expression evaluated: a new function object. *)
Definition new_function (c : Closure) (e : Env) : Handler * Env :=
  let w := world e in
  (next_fn w,
   {| world := {| refs := refs w; registry := registry w; next_fn := S (next_fn w);
                  trace := trace w; invoked := invoked w |};
      innerWidth := innerWidth e;
      functions := <[next_fn w := c]> (functions e);
      shown_alerts := shown_alerts e; reported := reported e |}).

(** The component function, given what [useState] and [useRef] return: its
    three calls of the hook. *)
Definition UsageEventLister (buttonClicked_now : JsValue) (buttonRef_now : RefId) (e : Env)
    : list Props * Env :=
  let '(handleClick_fn, e1) := new_function (handleClick buttonClicked_now) e in
  let '(handleResize_fn, e2) := new_function handleResize e1 in
  let '(callback_fn, e3) := new_function (dblclick_callback handleResize_fn) e2 in
  ([ {| eventName := "click"; handler := handleClick_fn; element := Some buttonRef_now;
        options := OptUndefined |};
     {| eventName := "resize"; handler := handleResize_fn; element := None;
        options := OptUndefined |};
     {| eventName := "dblclick"; handler := callback_fn; element := None;
        options := OptUndefined |} ],
   e3).

(** The first render and its commit: the state is [0] and
    [window.innerWidth], the button element is made and [buttonRef.current]
    set to it, then the effects run. *)
Definition mount_UsageEventLister (ref : RefId) (button : nat) (e : Env)
    : Completion (Fiber * Env) :=
  let '(props, e1) := UsageEventLister (VNumber (Integer 0)) ref e in
  let w1 := set_ref ref (Some (Element button)) (world e1) in
  let* (hs, w2) := commit_effects (List.map (fun p => (p, None)) props) w1 in
  Normal ({| buttonClicked := VNumber (Integer 0); windowWidth := innerWidth e;
             buttonRef := ref; hooks := hs;
             shown_buttonClicked := VNumber (Integer 0);
             shown_windowWidth := innerWidth e |},
          set_world w2 e1).

(** A later render and its commit. *)
Definition rerender (f : Fiber) (e : Env) : Completion (Fiber * Env) :=
  let '(props, e1) := UsageEventLister (buttonClicked f) (buttonRef f) e in
  let* (hs, w2) := commit_effects (List.combine props (List.map Some (hooks f)))
                     (world e1) in
  Normal ({| buttonClicked := buttonClicked f; windowWidth := windowWidth f;
             buttonRef := buttonRef f; hooks := hs;
             shown_buttonClicked := buttonClicked f;
             shown_windowWidth := windowWidth f |},
          set_world w2 e1).

(** Unmount: the ref is cleared, then the destroy functions run. *)
Definition unmount_UsageEventLister (f : Fiber) (e : Env) : Completion Env :=
  let* w := unmount_effects (hooks f) (set_ref (buttonRef f) None (world e)) in
  Normal (set_world w e).

(** The hook whose listener [l] is: the one whose cleanup holds it. *)
Definition owner (hs : list Hook) (l : Listener) : option Hook :=
  List.find (fun h => match destroy h with
                      | Some c => Listener_eqb (c_listener c) l
                      | None => false
                      end) hs.

Section EventDemo.

Variable binary_plus : JsValue -> JsValue -> Completion JsValue.

(** A callback of the component called: what its body does. *)
Definition call_function (fn : Handler) (st : Fiber * Env) : Fiber * Env :=
  let '(f, e) := st in
  match functions e !! fn with
  | Some (handleClick buttonClicked_then) =>
      match binary_plus buttonClicked_then (VNumber (Integer 1)) with
      | Normal v => (set_buttonClicked v f, e)
      | Throw err => (f, report err e)
      end
  | Some handleResize => (set_windowWidth (innerWidth e) f, e)
  | Some (dblclick_callback handleResize_fn) =>
      let e1 := show_alert (js "dblclick") e in
      match removeEventListener Window "resize" {| fn_id := handleResize_fn |} OptUndefined
              (world e1) with
      | Normal w => (f, set_world w e1)
      | Throw err => (f, report err e1)
      end
  | None => (f, e)
  end.

(** One listener of the snapshot, as [inner_invoke] has it; the listener
    calls the handler its hook's cell holds. *)
Definition deliver (ev : Event) (st : Fiber * Env) (r : Registration) : Fiber * Env :=
  let '(f, e) := st in
  match owner (hooks f) (r_callback r) with
  | Some h =>
      if is_registered r (world e) then
        call_function (savedHandler h) (f, set_world (inner_invoke h ev (world e) r) e)
      else (f, e)
  | None => (f, e)
  end.

Definition fire (t : Target) (ev : Event) (st : Fiber * Env) : Fiber * Env :=
  fold_left (deliver ev)
    (List.filter (fun r => Target_eqb (r_target r) t && String.eqb (r_type r) (ev_type ev))
       (registry (world (snd st))))
    st.

Inductive UsageStep : Type :=
| Rerender
| Fire (t : Target) (ev : Event)
| ResizeWindow (width : JsValue).

Definition usage_step (s : UsageStep) (st : Fiber * Env) : Completion (Fiber * Env) :=
  match s with
  | Rerender => rerender (fst st) (snd st)
  | Fire t ev => Normal (fire t ev st)
  | ResizeWindow width => Normal (fst st, set_innerWidth width (snd st))
  end.

Fixpoint usage_run (ss : list UsageStep) (st : Fiber * Env) : Completion (Fiber * Env) :=
  match ss with
  | [] => Normal st
  | s :: ss' => let* st' := usage_step s st in usage_run ss' st'
  end.

End EventDemo.

Definition initial_env (width : JsValue) : Env :=
  {| world := initial_world ∅; innerWidth := width; functions := ∅;
     shown_alerts := []; reported := [] |}.

(** The component mounted on a fresh page, then the steps. *)
Definition usage_history (binary_plus : JsValue -> JsValue -> Completion JsValue)
    (width : JsValue) (ref : RefId) (button : nat) (ss : list UsageStep)
    : Completion (Fiber * Env) :=
  let* st := mount_UsageEventLister ref button (initial_env width) in
  usage_run binary_plus ss st.

Definition is_click_on (button : nat) (t : Target) (ev : Event) : bool :=
  Target_eqb (Element button) t && String.eqb "click" (ev_type ev).

(** The renders that follow at least one click on the button since the
    render before. *)
Fixpoint rendered_clicks (button : nat) (pending : bool) (ss : list UsageStep) : Z :=
  match ss with
  | [] => 0%Z
  | Rerender :: ss' => ((if pending then 1 else 0) + rendered_clicks button false ss')%Z
  | Fire t ev :: ss' => rendered_clicks button (pending || is_click_on button t ev) ss'
  | ResizeWindow _ :: ss' => rendered_clicks button pending ss'
  end.

(** The three listeners of the mounted component, as their cleanups hold
    them: the callbacks of the first render are the functions 0 to 2, the
    listeners the functions 3 to 5. *)
Definition click_cleanup (button : nat) : Cleanup :=
  {| c_target := Element button; c_eventName := "click"; c_listener := {| fn_id := 3 |};
     c_options := OptUndefined |}.

Definition resize_cleanup : Cleanup :=
  {| c_target := Window; c_eventName := "resize"; c_listener := {| fn_id := 4 |};
     c_options := OptUndefined |}.

Definition dblclick_cleanup : Cleanup :=
  {| c_target := Window; c_eventName := "dblclick"; c_listener := {| fn_id := 5 |};
     c_options := OptUndefined |}.

Definition usage_registry (button : nat) : list Registration :=
  [registration_of (click_cleanup button); registration_of resize_cleanup;
   registration_of dblclick_cleanup].

(** What holds of the mounted component between two steps. *)
Record usage_inv (ref : RefId) (button : nat) (f : Fiber) (e : Env) : Prop := {
  ui_ref : buttonRef f = ref;
  ui_hooks : exists h1 h2 h3,
    hooks f = [h1; h2; h3] /\
    (destroy h1 = Some (click_cleanup button) /\
     destroy h2 = Some resize_cleanup /\
     destroy h3 = Some dblclick_cleanup) /\
    (deps_binding h1 = ("click", Some ref, OptUndefined) /\
     deps_binding h2 = ("resize", None, OptUndefined) /\
     deps_binding h3 = ("dblclick", None, OptUndefined)) /\
    (deps_handler h1 < next_fn (world e) /\
     deps_handler h2 < next_fn (world e) /\
     deps_handler h3 < next_fn (world e)) /\
    functions e !! savedHandler h1 = Some (handleClick (shown_buttonClicked f)) /\
    functions e !! savedHandler h2 = Some handleResize /\
    exists fn, functions e !! savedHandler h3 = Some (dblclick_callback fn) /\ fn <> 4;
  ui_registry : registry (world e) = usage_registry button;
  ui_adds : List.filter is_add (trace (world e))
            = [call_of_add (click_cleanup button); call_of_add resize_cleanup;
               call_of_add dblclick_cleanup];
  ui_next : 6 <= next_fn (world e)
}.

(** The count on the page is [shown]; a click since the last render has
    set the state to one more. *)
Definition count_inv (shown : Z) (pending : bool) (f : Fiber) : Prop :=
  shown_buttonClicked f = VNumber (Integer shown) /\
  buttonClicked f = VNumber (Integer (shown + (if pending then 1 else 0))) /\
  (0 <= shown)%Z.

(* ===================================================================== *)
(** * Part II. Properties                                                 *)
(* ===================================================================== *)

Example mount_null_ref_sample :
  mount {| eventName := "resize"; handler := 7; element := Some 1; options := OptUndefined |}
        (initial_world ∅)
  = Normal ({| savedHandler := 7; deps_handler := 7;
               deps_binding := ("resize", Some 1, OptUndefined);
               destroy := Some {| c_target := Window; c_eventName := "resize";
                                  c_listener := {| fn_id := 0 |};
                                  c_options := OptUndefined |} |},
            {| refs := ∅;
               registry := [ {| r_target := Window; r_type := "resize";
                                r_callback := {| fn_id := 0 |};
                                r_capture := false; r_once := false |} ];
               next_fn := 1;
               trace := [AddEventListener Window "resize" {| fn_id := 0 |} OptUndefined];
               invoked := [] |}).
Proof. reflexivity. Qed.

(** ** Identity comparisons *)

Lemma Target_eqb_eq (a b : Target) : Target_eqb a b = true <-> a = b.
Proof.
  destruct a, b; simpl; split; intros H; try discriminate; try reflexivity;
    try (apply Nat.eqb_eq in H; now subst);
    try (injection H as ->; apply Nat.eqb_refl).
Qed.

Lemma Target_eqb_refl (a : Target) : Target_eqb a a = true.
Proof. now apply Target_eqb_eq. Qed.

Lemma Listener_eqb_refl (l : Listener) : Listener_eqb l l = true.
Proof. apply Nat.eqb_refl. Qed.

Lemma Object_is_ref_refl (a : option RefId) : Object_is_ref a a = true.
Proof. destruct a; simpl; [apply Nat.eqb_refl | reflexivity]. Qed.

Lemma Object_is_options_refl (o : Options) : Object_is_options o o = true.
Proof. destruct o as [|b|o]; simpl; [reflexivity | now destruct b | apply Nat.eqb_refl]. Qed.

Lemma Object_is_ref_eq (a b : option RefId) : Object_is_ref a b = true <-> a = b.
Proof.
  destruct a, b; simpl; split; intros H; try discriminate; try reflexivity.
  - apply Nat.eqb_eq in H. now subst.
  - injection H as ->. apply Nat.eqb_refl.
Qed.

Lemma Object_is_options_sym (a b : Options) :
  Object_is_options a b = Object_is_options b a.
Proof.
  destruct a as [|x|x], b as [|y|y]; simpl; try reflexivity.
  - now destruct x, y.
  - apply Nat.eqb_sym.
Qed.

Lemma Object_is_options_trans (a b c : Options) :
  Object_is_options a b = true -> Object_is_options b c = true ->
  Object_is_options a c = true.
Proof.
  destruct a as [|x|x], b as [|y|y], c as [|z|z]; simpl; try discriminate; try reflexivity.
  - destruct x, y, z; simpl; congruence.
  - rewrite !Nat.eqb_eq. congruence.
Qed.

Lemma areHookInputsEqual_refl (d : Deps) : areHookInputsEqual d d = true.
Proof.
  destruct d as [[n e] o]. simpl.
  now rewrite String.eqb_refl, Object_is_ref_refl, Object_is_options_refl.
Qed.

Lemma areHookInputsEqual_parts (n1 n2 : string) (e1 e2 : option RefId) (o1 o2 : Options) :
  areHookInputsEqual (n1, e1, o1) (n2, e2, o2) = true <->
  n1 = n2 /\ e1 = e2 /\ Object_is_options o1 o2 = true.
Proof.
  simpl. rewrite !andb_true_iff, String.eqb_eq, Object_is_ref_eq. tauto.
Qed.

Lemma areHookInputsEqual_trans (a b c : Deps) :
  areHookInputsEqual a b = true -> areHookInputsEqual b c = true ->
  areHookInputsEqual a c = true.
Proof.
  destruct a as [[n1 e1] o1], b as [[n2 e2] o2], c as [[n3 e3] o3].
  rewrite !areHookInputsEqual_parts.
  intros (-> & -> & H1) (-> & -> & H2). eauto using Object_is_options_trans.
Qed.

Lemma same_listener_registration_of (c : Cleanup) :
  same_listener (c_target c) (c_eventName c) (c_listener c) (flatten (c_options c))
    (registration_of c) = true.
Proof.
  unfold same_listener, registration_of. simpl.
  rewrite Target_eqb_refl, String.eqb_refl, Listener_eqb_refl.
  now destruct (flatten (c_options c)).
Qed.

(** ** The two phases of [useEventListener] *)

Lemma mount_unfold (p : Props) (w : World) :
  mount p w =
  let* (d, w1) := bind_effect p w in
  Normal ({| savedHandler := handler p; deps_handler := handler p;
             deps_binding := deps_of p; destroy := d |}, w1).
Proof. reflexivity. Qed.

Lemma update_unfold (p : Props) (h : Hook) (w : World) :
  update p h w =
  let* w1 := (if negb (areHookInputsEqual (deps_binding h) (deps_of p))
              then run_destroy (destroy h) w else Normal w) in
  let* (d, w2) := (if negb (areHookInputsEqual (deps_binding h) (deps_of p))
                   then bind_effect p w1 else Normal (destroy h, w1)) in
  Normal ({| savedHandler := if negb (Object_is_handler (deps_handler h) (handler p))
                             then handler p else savedHandler h;
             deps_handler := handler p;
             deps_binding := deps_of p; destroy := d |}, w2).
Proof. reflexivity. Qed.

(** ** The second effect, case by case *)

Lemma bind_effect_capable (p : Props) (w : World) :
  has_addEventListener (resolve_target (element p) w) = true ->
  bind_effect p w =
  Normal (Some {| c_target := resolve_target (element p) w; c_eventName := eventName p;
                  c_listener := {| fn_id := next_fn w |}; c_options := options p |},
          {| refs := refs w;
             registry := add_an_event_listener (resolve_target (element p) w) (eventName p)
                           {| fn_id := next_fn w |} (options p) (registry w);
             next_fn := S (next_fn w);
             trace := trace w ++ [AddEventListener (resolve_target (element p) w) (eventName p)
                                    {| fn_id := next_fn w |} (options p)];
             invoked := invoked w |}).
Proof.
  intros Hcap. unfold bind_effect. rewrite Hcap. simpl.
  unfold addEventListener. simpl. unfold resolve_target in *. simpl.
  now rewrite Hcap.
Qed.

Lemma bind_effect_legacy (p : Props) (w : World) :
  has_addEventListener (resolve_target (element p) w) = false ->
  bind_effect p w = Normal (None, w).
Proof. intros Hcap. unfold bind_effect. now rewrite Hcap. Qed.

Lemma update_same_deps (p : Props) (h : Hook) (w : World) :
  areHookInputsEqual (deps_binding h) (deps_of p) = true ->
  update p h w =
  Normal ({| savedHandler := if Object_is_handler (deps_handler h) (handler p)
                             then savedHandler h else handler p;
             deps_handler := handler p;
             deps_binding := deps_of p;
             destroy := destroy h |}, w).
Proof.
  intros Heq. rewrite update_unfold, Heq. simpl.
  now destruct (Object_is_handler (deps_handler h) (handler p)).
Qed.

Lemma update_changed_deps (p : Props) (h : Hook) (w : World) :
  areHookInputsEqual (deps_binding h) (deps_of p) = false ->
  update p h w =
  let* w1 := run_destroy (destroy h) w in
  let* (d, w2) := bind_effect p w1 in
  Normal ({| savedHandler := if Object_is_handler (deps_handler h) (handler p)
                             then savedHandler h else handler p;
             deps_handler := handler p;
             deps_binding := deps_of p;
             destroy := d |}, w2).
Proof.
  intros Hne. rewrite update_unfold, Hne. simpl.
  destruct (run_destroy (destroy h) w) as [w1|e]; simpl; [|reflexivity].
  destruct (bind_effect p w1) as [[d w2]|e]; simpl; [|reflexivity].
  now destruct (Object_is_handler (deps_handler h) (handler p)).
Qed.

(** ** Shapes of traces *)

Lemma closed_calls_app (xs ys : list Cleanup) :
  closed_calls (xs ++ ys) = closed_calls xs ++ closed_calls ys.
Proof. unfold closed_calls. apply flat_map_app. Qed.

Lemma closed_calls_snoc (cs : list Cleanup) (c : Cleanup) :
  closed_calls cs ++ [call_of_add c] ++ [call_of_remove c] = closed_calls (cs ++ [c]).
Proof. rewrite closed_calls_app. simpl. reflexivity. Qed.

Lemma count_adds_app (xs ys : list Call) :
  count_adds (xs ++ ys) = count_adds xs + count_adds ys.
Proof. unfold count_adds. now rewrite List.filter_app, length_app. Qed.

Lemma count_removes_app (xs ys : list Call) :
  count_removes (xs ++ ys) = count_removes xs + count_removes ys.
Proof. unfold count_removes. now rewrite List.filter_app, length_app. Qed.

Lemma count_adds_closed (cs : list Cleanup) : count_adds (closed_calls cs) = List.length cs.
Proof.
  induction cs as [|c cs IH]; [reflexivity|].
  change (closed_calls (c :: cs)) with ([call_of_add c; call_of_remove c] ++ closed_calls cs).
  rewrite count_adds_app, IH. reflexivity.
Qed.

Lemma count_removes_closed (cs : list Cleanup) :
  count_removes (closed_calls cs) = List.length cs.
Proof.
  induction cs as [|c cs IH]; [reflexivity|].
  change (closed_calls (c :: cs)) with ([call_of_add c; call_of_remove c] ++ closed_calls cs).
  rewrite count_removes_app, IH. reflexivity.
Qed.

(** ** The invariant of a mounted hook *)

Lemma remove_only_registration (c : Cleanup) (rs : list Registration) :
  (forall r, In r rs -> r = registration_of c) ->
  remove_an_event_listener (c_target c) (c_eventName c) (c_listener c) (c_options c) rs = [].
Proof.
  intros Hall. unfold remove_an_event_listener.
  induction rs as [|r rs IH]; [reflexivity|].
  simpl. rewrite (Hall r (or_introl eq_refl)), same_listener_registration_of. simpl.
  apply IH. intros r' Hr'. apply Hall. now right.
Qed.

Lemma run_destroy_inv (h : Hook) (w : World) :
  hook_inv h w ->
  exists w1,
    run_destroy (destroy h) w = Normal w1 /\
    registry w1 = [] /\
    trace w1 = trace w ++ match destroy h with
                          | Some c => [call_of_remove c]
                          | None => []
                          end /\
    (exists cs, trace w1 = closed_calls cs) /\
    refs w1 = refs w /\ next_fn w1 = next_fn w /\ invoked w1 = invoked w.
Proof.
  intros [Hs Hc [cs Ht] Hr].
  destruct (destroy h) as [c|] eqn:Hd; simpl.
  - unfold run_cleanup, removeEventListener. rewrite (Hc c eq_refl).
    eexists. split; [reflexivity|]. simpl. repeat split.
    + apply remove_only_registration. intros r Hin.
      destruct (Hr r Hin) as (c' & Hc' & ->). congruence.
    + exists (cs ++ [c]). rewrite Ht. simpl. rewrite <- app_assoc. apply closed_calls_snoc.
  - exists w. repeat split.
    + destruct (registry w) as [|r rs] eqn:Hreg; [reflexivity|].
      destruct (Hr r) as (c & Hc' & _); [now left | discriminate].
    + now rewrite app_nil_r.
    + exists cs. rewrite Ht. simpl. now rewrite app_nil_r.
Qed.

Lemma bind_effect_inv (p : Props) (w : World) (cs : list Cleanup) :
  registry w = [] -> trace w = closed_calls cs ->
  exists d w2,
    bind_effect p w = Normal (d, w2) /\
    (forall c, d = Some c -> has_addEventListener (c_target c) = true) /\
    trace w2 = closed_calls cs ++ pending_call d /\
    (forall r, In r (registry w2) -> exists c, d = Some c /\ r = registration_of c) /\
    refs w2 = refs w /\ invoked w2 = invoked w.
Proof.
  intros Hreg Htr.
  destruct (has_addEventListener (resolve_target (element p) w)) eqn:Hcap.
  - rewrite (bind_effect_capable p w Hcap). do 2 eexists. split; [reflexivity|].
    simpl. repeat split.
    + intros c [= <-]. exact Hcap.
    + now rewrite Htr.
    + intros r. rewrite Hreg. unfold add_an_event_listener. simpl.
      intros [<-|[]]. eexists. split; reflexivity.
  - rewrite (bind_effect_legacy p w Hcap). exists None, w. repeat split.
    + discriminate.
    + rewrite Htr. simpl. now rewrite app_nil_r.
    + rewrite Hreg. intros r [].
Qed.

Lemma mount_inv (rs : gmap nat Target) (p : Props) :
  exists h w, mount p (initial_world rs) = Normal (h, w) /\ hook_inv h w /\
              savedHandler h = handler p /\ deps_binding h = deps_of p /\
              refs w = rs /\ invoked w = [].
Proof.
  destruct (bind_effect_inv p (initial_world rs) [] eq_refl eq_refl)
    as (d & w2 & Hb & Hcap & Htr & Hreg & Hrefs & Hinv).
  rewrite mount_unfold, Hb. simpl. do 2 eexists. split; [reflexivity|].
  repeat split; simpl; try assumption; try reflexivity.
  now exists [].
Qed.

Lemma update_inv (p : Props) (h : Hook) (w : World) :
  hook_inv h w ->
  exists h' w', update p h w = Normal (h', w') /\ hook_inv h' w' /\
                savedHandler h' = handler p /\ deps_binding h' = deps_of p /\
                refs w' = refs w /\ invoked w' = invoked w.
Proof.
  intros Hinv.
  assert (Hsaved : (if Object_is_handler (deps_handler h) (handler p)
                    then savedHandler h else handler p) = handler p).
  { destruct (Object_is_handler (deps_handler h) (handler p)) eqn:Hh; [|reflexivity].
    apply Nat.eqb_eq in Hh. rewrite (inv_saved _ _ Hinv). exact Hh. }
  destruct (areHookInputsEqual (deps_binding h) (deps_of p)) eqn:Hdeps.
  - rewrite (update_same_deps p h w Hdeps). do 2 eexists. split; [reflexivity|].
    destruct Hinv as [Hs Hc Ht Hr].
    repeat split; simpl; try assumption; try reflexivity.
  - rewrite (update_changed_deps p h w Hdeps).
    destruct (run_destroy_inv h w Hinv) as (w1 & -> & Hreg1 & _ & [cs Hcs] & Hrefs1 & _ & Hi1).
    simpl.
    destruct (bind_effect_inv p w1 cs Hreg1 Hcs)
      as (d & w2 & -> & Hcap & Htr & Hreg & Hrefs & Hi2).
    simpl. do 2 eexists. split; [reflexivity|].
    repeat split; simpl; try assumption; try reflexivity; try congruence.
    now exists cs.
Qed.

(** ** Event delivery leaves the hook's bookkeeping alone *)

Lemma inner_invoke_frame (h : Hook) (ev : Event) (w : World) (r : Registration) :
  refs (inner_invoke h ev w r) = refs w /\
  trace (inner_invoke h ev w r) = trace w /\
  next_fn (inner_invoke h ev w r) = next_fn w /\
  incl (registry (inner_invoke h ev w r)) (registry w).
Proof.
  unfold inner_invoke.
  destruct (is_registered r w); [|repeat split; apply incl_refl].
  destruct (r_once r); simpl; repeat split; try apply incl_refl.
  intros x Hx. apply List.filter_In in Hx. tauto.
Qed.

Lemma fold_inner_invoke_frame (h : Hook) (ev : Event) (rs : list Registration) (w : World) :
  refs (fold_left (inner_invoke h ev) rs w) = refs w /\
  trace (fold_left (inner_invoke h ev) rs w) = trace w /\
  next_fn (fold_left (inner_invoke h ev) rs w) = next_fn w /\
  incl (registry (fold_left (inner_invoke h ev) rs w)) (registry w).
Proof.
  revert w. induction rs as [|r rs IH]; intros w; simpl.
  - repeat split. apply incl_refl.
  - destruct (IH (inner_invoke h ev w r)) as (H1 & H2 & H3 & H4).
    destruct (inner_invoke_frame h ev w r) as (G1 & G2 & G3 & G4).
    repeat split; try congruence. eapply incl_tran; eassumption.
Qed.

Lemma dispatchEvent_frame (t : Target) (ev : Event) (h : Hook) (w : World) :
  refs (dispatchEvent t ev h w) = refs w /\
  trace (dispatchEvent t ev h w) = trace w /\
  next_fn (dispatchEvent t ev h w) = next_fn w /\
  incl (registry (dispatchEvent t ev h w)) (registry w).
Proof. apply fold_inner_invoke_frame. Qed.

(** Whatever a delivery invokes is the handler in the cell. *)
Lemma fold_inner_invoke_invoked (h : Hook) (ev : Event) (rs : list Registration) (w : World) :
  exists n, invoked (fold_left (inner_invoke h ev) rs w)
            = invoked w ++ repeat (savedHandler h, ev) n.
Proof.
  revert w. induction rs as [|r rs IH]; intros w; simpl.
  - exists 0. simpl. now rewrite app_nil_r.
  - destruct (IH (inner_invoke h ev w r)) as [n Hn]. rewrite Hn.
    unfold inner_invoke. destruct (is_registered r w).
    + exists (S n). destruct (r_once r); simpl; now rewrite <- app_assoc.
    + now exists n.
Qed.

Lemma dispatchEvent_inv (t : Target) (ev : Event) (h : Hook) (w : World) :
  hook_inv h w -> hook_inv h (dispatchEvent t ev h w).
Proof.
  intros [Hs Hc Ht Hr].
  destruct (dispatchEvent_frame t ev h w) as (_ & Htr & _ & Hincl).
  split; try assumption.
  - now rewrite Htr.
  - intros r Hin. apply Hr, Hincl, Hin.
Qed.

Lemma set_ref_inv (r : RefId) (v : option Target) (h : Hook) (w : World) :
  hook_inv h w -> hook_inv h (set_ref r v w).
Proof. intros [Hs Hc Ht Hr]. split; assumption. Qed.

Lemma step_inv (s : Step) (h : Hook) (w : World) :
  hook_inv h w ->
  exists h' w', step s (h, w) = Normal (h', w') /\ hook_inv h' w'.
Proof.
  intros Hinv. destruct s as [p|r v|t ev]; simpl.
  - destruct (update_inv p h w Hinv) as (h' & w' & Hu & Hi & _). eauto.
  - eauto using set_ref_inv.
  - eauto using dispatchEvent_inv.
Qed.

Lemma run_inv (ss : list Step) (h : Hook) (w : World) :
  hook_inv h w ->
  exists h' w', run ss (h, w) = Normal (h', w') /\ hook_inv h' w'.
Proof.
  revert h w. induction ss as [|s ss IH]; intros h w Hinv; cbn [run].
  - eauto.
  - destruct (step_inv s h w Hinv) as (h1 & w1 & -> & Hinv1). cbn [cbind]. now apply IH.
Qed.

Lemma history_inv (rs : gmap nat Target) (p0 : Props) (ss : list Step) :
  exists h w, history rs p0 ss = Normal (h, w) /\ hook_inv h w.
Proof.
  destruct (mount_inv rs p0) as (h0 & w0 & Hm & Hinv & _).
  unfold history. rewrite Hm. simpl. now apply run_inv.
Qed.

Lemma run_app (xs ys : list Step) (st : Hook * World) :
  run (xs ++ ys) st = let* st' := run xs st in run ys st'.
Proof.
  revert st. induction xs as [|x xs IH]; intros st; simpl; [reflexivity|].
  destruct (step x st) as [st1|e]; simpl; [apply IH | reflexivity].
Qed.

Lemma areHookInputsEqual_sym (a b : Deps) :
  areHookInputsEqual a b = areHookInputsEqual b a.
Proof.
  destruct a as [[n1 e1] o1], b as [[n2 e2] o2]. simpl.
  rewrite (String.eqb_sym n1 n2), (Object_is_options_sym o1 o2).
  f_equal. f_equal.
  destruct e1, e2; simpl; try reflexivity. apply Nat.eqb_sym.
Qed.

(** ** Renders that change the handler only *)

Lemma run_keeps_binding (p0 : Props) (ss : list Step) (h : Hook) (w : World) :
  forallb (keeps_binding p0) ss = true ->
  areHookInputsEqual (deps_of p0) (deps_binding h) = true ->
  hook_inv h w ->
  exists h' w',
    run ss (h, w) = Normal (h', w') /\ hook_inv h' w' /\
    destroy h' = destroy h /\ trace w' = trace w /\
    areHookInputsEqual (deps_of p0) (deps_binding h') = true.
Proof.
  revert h w. induction ss as [|s ss IH]; intros h w Hall Hdeps Hinv; cbn [run].
  - eauto 10.
  - cbn [forallb] in Hall. apply andb_true_iff in Hall as [Hs Hall].
    destruct s as [p|r v|t ev]; cbn [step cbind keeps_binding] in *.
    + assert (Hsame : areHookInputsEqual (deps_binding h) (deps_of p) = true).
      { eapply areHookInputsEqual_trans; [|exact Hs].
        now rewrite areHookInputsEqual_sym. }
      destruct (update_inv p h w Hinv) as (h1 & w1 & Hu & Hinv1 & _ & Hd1 & _).
      rewrite Hu. cbn [cbind].
      assert (Hsame1 : destroy h1 = destroy h /\ w1 = w).
      { rewrite (update_same_deps p h w Hsame) in Hu. injection Hu as <- <-. now split. }
      destruct Hsame1 as [Hdes1 ->].
      rewrite <- Hd1 in Hs.
      destruct (IH h1 w Hall Hs Hinv1) as (h' & w' & Hr & Hi & Hd & Ht & He).
      exists h', w'. split; [exact Hr|]. split; [exact Hi|].
      split; [congruence|]. split; assumption.
    + destruct (IH h (set_ref r v w) Hall Hdeps (set_ref_inv r v h w Hinv))
        as (h' & w' & Hr & Hi & Hd & Ht & He).
      exists h', w'. split; [exact Hr|]. split; [exact Hi|].
      split; [exact Hd|]. split; assumption.
    + destruct (IH h (dispatchEvent t ev h w) Hall Hdeps (dispatchEvent_inv t ev h w Hinv))
        as (h' & w' & Hr & Hi & Hd & Ht & He).
      exists h', w'. split; [exact Hr|]. split; [exact Hi|].
      split; [exact Hd|]. split; [|exact He].
      rewrite Ht. apply dispatchEvent_frame.
Qed.

Lemma mount_capable (rs : gmap nat Target) (p0 : Props) :
  has_addEventListener (resolve_target (element p0) (initial_world rs)) = true ->
  mount p0 (initial_world rs) =
  Normal ({| savedHandler := handler p0; deps_handler := handler p0;
             deps_binding := deps_of p0;
             destroy := Some {| c_target := resolve_target (element p0) (initial_world rs);
                                c_eventName := eventName p0;
                                c_listener := {| fn_id := 0 |};
                                c_options := options p0 |} |},
          {| refs := rs;
             registry := [ {| r_target := resolve_target (element p0) (initial_world rs);
                              r_type := eventName p0;
                              r_callback := {| fn_id := 0 |};
                              r_capture := flatten (options p0);
                              r_once := flatten_once (options p0) |} ];
             next_fn := 1;
             trace := [AddEventListener (resolve_target (element p0) (initial_world rs))
                         (eventName p0) {| fn_id := 0 |} (options p0)];
             invoked := [] |}).
Proof.
  intros Hcap. rewrite mount_unfold, (bind_effect_capable _ _ Hcap). reflexivity.
Qed.

(** C3. Over a whole lifetime in which the renders change nothing but the
    handler (ref contents may change and events may fire meanwhile), and
    whose target can take listeners, the hook calls [addEventListener] once,
    at mount, and [removeEventListener] once, at unmount, with the same
    arguments; nothing is removed and re-added in between. *)
Theorem C3_one_add_one_remove (rs : gmap nat Target) (p0 : Props) (ss : list Step) :
  forallb (keeps_binding p0) ss = true ->
  has_addEventListener (resolve_target (element p0) (initial_world rs)) = true ->
  exists w,
    lifetime rs p0 ss = Normal w /\
    trace w = [ AddEventListener (resolve_target (element p0) (initial_world rs))
                  (eventName p0) {| fn_id := 0 |} (options p0);
                RemoveEventListener (resolve_target (element p0) (initial_world rs))
                  (eventName p0) {| fn_id := 0 |} (options p0) ] /\
    count_adds (trace w) = 1 /\ count_removes (trace w) = 1.
Proof.
  intros Hall Hcap.
  destruct (mount_inv rs p0) as (h0 & w0 & Hm & Hinv0 & _ & Hd0 & _).
  pose proof (mount_capable rs p0 Hcap) as Hm'. rewrite Hm in Hm'.
  injection Hm' as Hh0 Hw0.
  assert (Hdeps : areHookInputsEqual (deps_of p0) (deps_binding h0) = true).
  { rewrite Hd0. apply areHookInputsEqual_refl. }
  destruct (run_keeps_binding p0 ss h0 w0 Hall Hdeps Hinv0)
    as (h & w & Hrun & Hinv & Hd & Ht & _).
  unfold lifetime, history. rewrite Hm. cbn [cbind]. rewrite Hrun. cbn [cbind].
  unfold unmount. rewrite Hd.
  destruct (run_destroy_inv h w Hinv) as (w1 & Hw1 & _ & Htr1 & _).
  rewrite Hd in Hw1, Htr1. rewrite Hw1. exists w1. split; [reflexivity|].
  assert (Htrace : trace w1 =
    [ AddEventListener (resolve_target (element p0) (initial_world rs))
        (eventName p0) {| fn_id := 0 |} (options p0);
      RemoveEventListener (resolve_target (element p0) (initial_world rs))
        (eventName p0) {| fn_id := 0 |} (options p0) ]).
  { rewrite Htr1, Ht. subst h0 w0. reflexivity. }
  rewrite Htrace. repeat split.
Qed.

Lemma C3_one_add_one_remove_witness :
  exists w,
    lifetime ∅ {| eventName := "resize"; handler := 1; element := None; options := OptUndefined |}
      [ Render {| eventName := "resize"; handler := 2; element := None; options := OptUndefined |};
        Dispatch Window {| ev_type := "resize"; ev_detail := 0 |};
        Render {| eventName := "resize"; handler := 3; element := None; options := OptUndefined |} ]
    = Normal w /\
    trace w = [ AddEventListener Window "resize" {| fn_id := 0 |} OptUndefined;
                RemoveEventListener Window "resize" {| fn_id := 0 |} OptUndefined ] /\
    count_adds (trace w) = 1 /\ count_removes (trace w) = 1.
Proof.
  apply (C3_one_add_one_remove ∅
    {| eventName := "resize"; handler := 1; element := None; options := OptUndefined |}
    [ Render {| eventName := "resize"; handler := 2; element := None; options := OptUndefined |};
      Dispatch Window {| ev_type := "resize"; ev_detail := 0 |};
      Render {| eventName := "resize"; handler := 3; element := None; options := OptUndefined |} ]);
    reflexivity.
Defined.

(** ** The handler cell *)


(** C6. Over any lifetime whatsoever (any renders, ref changes and events,
    or none), the platform calls of the hook are a sequence of pairs: each
    [addEventListener] is followed, before the next one, by the
    [removeEventListener] with the same arguments.  Unmount adds the remove
    of the listener attached at that moment and nothing when none is
    attached, so a remove never comes without its add, the two counts are
    equal, and no listener is left on any target. *)
Theorem C6_attach_detach_balanced (rs : gmap nat Target) (p0 : Props) (ss : list Step) :
  exists h w1 w cs,
    history rs p0 ss = Normal (h, w1) /\
    lifetime rs p0 ss = Normal w /\
    trace w1 = closed_calls cs ++ pending_call (destroy h) /\
    trace w = trace w1 ++ match destroy h with
                          | Some c => [call_of_remove c]
                          | None => []
                          end /\
    (exists cs', trace w = closed_calls cs') /\
    count_adds (trace w) = count_removes (trace w) /\
    registry w = [].
Proof.
  destruct (history_inv rs p0 ss) as (h & w1 & Hh & Hinv).
  destruct (run_destroy_inv h w1 Hinv) as (w & Hu & Hreg & Htr & [cs' Hcs'] & _).
  destruct (inv_trace _ _ Hinv) as [cs Hcs].
  exists h, w1, w, cs. split; [exact Hh|].
  split; [unfold lifetime; rewrite Hh; exact Hu|].
  split; [exact Hcs|]. split; [exact Htr|]. split; [now exists cs'|].
  split; [|exact Hreg].
  now rewrite Hcs', count_adds_closed, count_removes_closed.
Qed.

(** ** Rebinding *)

Lemma update_rebind (p : Props) (h : Hook) (w : World) (c : Cleanup) :
  hook_inv h w ->
  destroy h = Some c ->
  areHookInputsEqual (deps_binding h) (deps_of p) = false ->
  exists h' w',
    update p h w = Normal (h', w') /\
    hook_inv h' w' /\
    trace w' = trace w ++ call_of_remove c :: pending_call (destroy h') /\
    destroy h' =
      (if has_addEventListener (resolve_target (element p) w)
       then Some {| c_target := resolve_target (element p) w; c_eventName := eventName p;
                    c_listener := {| fn_id := next_fn w |}; c_options := options p |}
       else None) /\
    deps_binding h' = deps_of p /\ refs w' = refs w.
Proof.
  intros Hinv Hd Hne.
  destruct (update_inv p h w Hinv) as (h' & w' & Hu & Hinv' & _ & Hdeps' & Hrefs').
  exists h', w'. split; [exact Hu|]. split; [exact Hinv'|].
  rewrite (update_changed_deps p h w Hne) in Hu.
  destruct (run_destroy_inv h w Hinv) as (w1 & Hw1 & _ & Htr1 & _ & Hrefs1 & Hnext1 & _).
  rewrite Hw1 in Hu. cbn [cbind] in Hu. rewrite Hd in Htr1.
  assert (Hres : resolve_target (element p) w1 = resolve_target (element p) w).
  { unfold resolve_target. now rewrite Hrefs1. }
  destruct (has_addEventListener (resolve_target (element p) w)) eqn:Hcap.
  - rewrite bind_effect_capable in Hu by now rewrite Hres.
    cbn [cbind] in Hu. injection Hu as <- <-. cbn [destroy trace pending_call call_of_add
      c_target c_eventName c_listener c_options].
    rewrite Htr1, Hres, Hnext1, <- app_assoc. repeat split; try assumption.
  - rewrite bind_effect_legacy in Hu by now rewrite Hres.
    cbn [cbind] in Hu. injection Hu as <- <-. cbn [destroy trace pending_call].
    rewrite Htr1. repeat split; try assumption.
Qed.

(** C4. In any state the hook can reach with a listener attached, a render
    whose [eventName], [element] or [options] differs from the last commit
    first calls [removeEventListener] on the old target with exactly the
    event name, listener function and options of the [addEventListener]
    that attached it, and only then attaches the new listener (when the new
    target can take one). *)
Theorem C4_rebind_removes_old_then_adds_new (rs : gmap nat Target) (p0 : Props)
    (ss : list Step) (h : Hook) (w : World) (c : Cleanup) (p : Props) :
  history rs p0 ss = Normal (h, w) ->
  destroy h = Some c ->
  areHookInputsEqual (deps_binding h) (deps_of p) = false ->
  exists cs h' w',
    trace w = closed_calls cs
              ++ [AddEventListener (c_target c) (c_eventName c) (c_listener c) (c_options c)] /\
    update p h w = Normal (h', w') /\
    trace w' = trace w
               ++ RemoveEventListener (c_target c) (c_eventName c) (c_listener c) (c_options c)
               :: (if has_addEventListener (resolve_target (element p) w)
                   then [AddEventListener (resolve_target (element p) w) (eventName p)
                           {| fn_id := next_fn w |} (options p)]
                   else []).
Proof.
  intros Hh Hd Hne.
  destruct (history_inv rs p0 ss) as (h1 & w1 & Hh1 & Hinv).
  rewrite Hh in Hh1. injection Hh1 as <- <-.
  destruct (inv_trace _ _ Hinv) as [cs Hcs]. rewrite Hd in Hcs.
  destruct (update_rebind p h w c Hinv Hd Hne) as (h' & w' & Hu & _ & Htr & Hd' & _).
  exists cs, h', w'. split; [exact Hcs|]. split; [exact Hu|].
  rewrite Htr, Hd'.
  destruct (has_addEventListener (resolve_target (element p) w)); reflexivity.
Qed.

Lemma C4_rebind_removes_old_then_adds_new_witness :
  exists cs h' w',
    [AddEventListener Window "resize" {| fn_id := 0 |} OptUndefined]
    = closed_calls cs ++ [AddEventListener Window "resize" {| fn_id := 0 |} OptUndefined] /\
    update {| eventName := "scroll"; handler := 1; element := None; options := OptBool true |}
      {| savedHandler := 1; deps_handler := 1; deps_binding := ("resize", None, OptUndefined);
         destroy := Some {| c_target := Window; c_eventName := "resize";
                            c_listener := {| fn_id := 0 |}; c_options := OptUndefined |} |}
      {| refs := ∅;
         registry := [ {| r_target := Window; r_type := "resize";
                          r_callback := {| fn_id := 0 |};
                          r_capture := false; r_once := false |} ];
         next_fn := 1;
         trace := [AddEventListener Window "resize" {| fn_id := 0 |} OptUndefined];
         invoked := [] |}
    = Normal (h', w') /\
    trace w' = [AddEventListener Window "resize" {| fn_id := 0 |} OptUndefined]
               ++ [ RemoveEventListener Window "resize" {| fn_id := 0 |} OptUndefined;
                    AddEventListener Window "scroll" {| fn_id := 1 |} (OptBool true) ].
Proof.
  exact (C4_rebind_removes_old_then_adds_new ∅
    {| eventName := "resize"; handler := 1; element := None; options := OptUndefined |}
    []
    _ _
    {| c_target := Window; c_eventName := "resize";
       c_listener := {| fn_id := 0 |}; c_options := OptUndefined |}
    {| eventName := "scroll"; handler := 1; element := None; options := OptBool true |}
    eq_refl eq_refl eq_refl).
Defined.

(** C5. When the object the ref resolves to has no [addEventListener], the
    effect returns without calling the platform and without throwing: the
    world is left as it was and no cleanup is kept.  Unmount then completes
    normally and removes nothing, and so does the unbinding half of any
    later rebind. *)
Theorem C5_target_without_capability (p0 : Props) (w : World) :
  has_addEventListener (resolve_target (element p0) w) = false ->
  exists h,
    mount p0 w = Normal (h, w) /\
    destroy h = None /\
    unmount h w = Normal w /\
    forall p, exists h' w',
      update p h w = Normal (h', w') /\
      trace w' = trace w ++ pending_call (destroy h').
Proof.
  intros Hcap. rewrite mount_unfold, (bind_effect_legacy p0 w Hcap). cbn [cbind].
  eexists. split; [reflexivity|]. cbn [destroy]. split; [reflexivity|].
  split; [reflexivity|]. intros p.
  rewrite update_unfold. cbn [destroy deps_binding deps_handler savedHandler run_destroy].
  destruct (areHookInputsEqual (deps_of p0) (deps_of p)); cbn [negb cbind].
  - do 2 eexists. split; [reflexivity|]. cbn [destroy pending_call]. now rewrite app_nil_r.
  - destruct (has_addEventListener (resolve_target (element p) w)) eqn:Hp.
    + rewrite (bind_effect_capable p w Hp). cbn [cbind].
      do 2 eexists. split; [reflexivity|]. reflexivity.
    + rewrite (bind_effect_legacy p w Hp). cbn [cbind].
      do 2 eexists. split; [reflexivity|]. cbn [destroy pending_call]. now rewrite app_nil_r.
Qed.

Lemma C5_target_without_capability_witness :
  exists h,
    mount {| eventName := "change"; handler := 4; element := Some 2; options := OptUndefined |}
      (initial_world {[ 2 := Legacy 9 ]})
    = Normal (h, initial_world {[ 2 := Legacy 9 ]}) /\
    destroy h = None /\
    unmount h (initial_world {[ 2 := Legacy 9 ]}) = Normal (initial_world {[ 2 := Legacy 9 ]}) /\
    forall p, exists h' w',
      update p h (initial_world {[ 2 := Legacy 9 ]}) = Normal (h', w') /\
      trace w' = trace (initial_world {[ 2 := Legacy 9 ]}) ++ pending_call (destroy h').
Proof.
  exact (C5_target_without_capability
    {| eventName := "change"; handler := 4; element := Some 2; options := OptUndefined |}
    (initial_world {[ 2 := Legacy 9 ]}) eq_refl).
Defined.

(** C9. When the ref object, the event name and the options are the ones of
    the last commit, a render after the ref's [current] was pointed elsewhere
    calls nothing on the platform: the listener lists and the trace are as
    before, and the cleanup kept is still the one of the target resolved when
    the effect last ran. *)
Theorem C9_changed_ref_content_does_not_rebind (h : Hook) (w : World)
    (r : RefId) (v : option Target) (p : Props) :
  areHookInputsEqual (deps_binding h) (deps_of p) = true ->
  exists h' w',
    run [SetRef r v; Render p] (h, w) = Normal (h', w') /\
    refs w' !! r = v /\
    destroy h' = destroy h /\
    registry w' = registry w /\
    trace w' = trace w.
Proof.
  intros Hsame. cbn [run step cbind].
  assert (Hsame' : areHookInputsEqual (deps_binding h) (deps_of p) = true) by exact Hsame.
  rewrite (update_same_deps p h (set_ref r v w) Hsame'). cbn [cbind].
  do 2 eexists. split; [reflexivity|]. cbn [destroy]. repeat split.
  unfold set_ref. cbn [refs]. destruct v as [t|].
  - apply lookup_insert_eq.
  - apply lookup_delete_eq.
Qed.

Lemma C9_changed_ref_content_does_not_rebind_witness :
  exists h w,
    history {[ 1 := Element 5 ]}
      {| eventName := "click"; handler := 3; element := Some 1; options := OptUndefined |}
      [ SetRef 1 (Some (Element 6));
        Render {| eventName := "click"; handler := 3; element := Some 1;
                  options := OptUndefined |} ]
    = Normal (h, w) /\
    refs w !! 1 = Some (Element 6) /\
    destroy h = Some {| c_target := Element 5; c_eventName := "click";
                        c_listener := {| fn_id := 0 |}; c_options := OptUndefined |} /\
    registry w = [ {| r_target := Element 5; r_type := "click";
                      r_callback := {| fn_id := 0 |};
                      r_capture := false; r_once := false |} ] /\
    trace w = [AddEventListener (Element 5) "click" {| fn_id := 0 |} OptUndefined].
Proof.
  exact (C9_changed_ref_content_does_not_rebind
    {| savedHandler := 3; deps_handler := 3; deps_binding := ("click", Some 1, OptUndefined);
       destroy := Some {| c_target := Element 5; c_eventName := "click";
                          c_listener := {| fn_id := 0 |}; c_options := OptUndefined |} |}
    {| refs := {[ 1 := Element 5 ]};
       registry := [ {| r_target := Element 5; r_type := "click";
                        r_callback := {| fn_id := 0 |};
                        r_capture := false; r_once := false |} ];
       next_fn := 1;
       trace := [AddEventListener (Element 5) "click" {| fn_id := 0 |} OptUndefined];
       invoked := [] |}
    1 (Some (Element 6))
    {| eventName := "click"; handler := 3; element := Some 1; options := OptUndefined |}
    eq_refl).
Defined.

(** ** A new options object on every render *)

Lemma run_reallocated_options (rs : gmap nat Target) (p0 : Props)
    (o0 : AddEventListenerOptions) (ids : list nat) :
  forall (prev : nat) (h : Hook) (w : World) (l : Listener) (k : nat),
  has_addEventListener (resolve_target (element p0) (initial_world rs)) = true ->
  freshly_allocated prev ids = true ->
  hook_inv h w ->
  refs w = rs ->
  destroy h = Some {| c_target := resolve_target (element p0) (initial_world rs);
                      c_eventName := eventName p0; c_listener := l;
                      c_options := OptObject (reallocated o0 prev) |} ->
  deps_binding h = (eventName p0, element p0, OptObject (reallocated o0 prev)) ->
  count_adds (trace w) = S k ->
  count_removes (trace w) = k ->
  Forall (same_subscription (resolve_target (element p0) (initial_world rs))
            (eventName p0) o0) (trace w) ->
  exists h' w',
    run (map (fun i => Render (with_options p0 (reallocated o0 i))) ids) (h, w)
    = Normal (h', w') /\
    count_adds (trace w') = S (k + List.length ids) /\
    count_removes (trace w') = k + List.length ids /\
    Forall (same_subscription (resolve_target (element p0) (initial_world rs))
              (eventName p0) o0) (trace w') /\
    exists cs c', trace w' = closed_calls cs ++ [call_of_add c'].
Proof.
  induction ids as [|i ids IH];
    intros prev h w l k Hcap Hfresh Hinv Hrefs Hd Hdeps Ha Hr Hall; cbn [map run].
  - exists h, w. split; [reflexivity|]. cbn [List.length]. rewrite Nat.add_0_r.
    split; [exact Ha|]. split; [exact Hr|]. split; [exact Hall|].
    destruct (inv_trace _ _ Hinv) as [cs Hcs]. rewrite Hd in Hcs. eauto.
  - cbn [freshly_allocated] in Hfresh. apply andb_true_iff in Hfresh as [Hne Hfresh].
    assert (Hchg : areHookInputsEqual (deps_binding h)
                     (deps_of (with_options p0 (reallocated o0 i))) = false).
    { rewrite Hdeps. unfold deps_of, with_options. cbn [eventName element options].
      cbn [areHookInputsEqual Object_is_options reallocated opt_id].
      rewrite String.eqb_refl, Object_is_ref_refl. cbn [andb].
      now apply negb_true_iff. }
    destruct (update_rebind _ h w _ Hinv Hd Hchg)
      as (h1 & w1 & Hu & Hinv1 & Htr1 & Hd1 & Hdeps1 & Hrefs1).
    assert (Hres : resolve_target (element (with_options p0 (reallocated o0 i))) w
                   = resolve_target (element p0) (initial_world rs)).
    { unfold resolve_target. cbn [with_options element initial_world refs]. now rewrite Hrefs. }
    rewrite Hres, Hcap in Hd1.
    cbn [step]. rewrite Hu. cbn [cbind].
    rewrite Hd1 in Htr1. cbn [pending_call] in Htr1.
    destruct (IH i h1 w1 _ (S k) Hcap Hfresh Hinv1 (eq_trans Hrefs1 Hrefs) Hd1 Hdeps1)
      as (h' & w' & Hrun & Ha' & Hr' & Hall' & Hshape).
    + rewrite Htr1, count_adds_app, Ha. cbn. lia.
    + rewrite Htr1, count_removes_app, Hr. cbn. lia.
    + rewrite Htr1. apply Forall_app. split; [exact Hall|].
      repeat constructor.
    + exists h', w'. split; [exact Hrun|]. cbn [List.length].
      split; [lia|]. split; [lia|]. split; [exact Hall'|]. exact Hshape.
Qed.

(** C10. Mount with an options object and then render [N] times, each time
    with an options object that has the same fields but was allocated anew
    (its address differs from the previous one), same event name and same
    ref, on a target that can take listeners: every one of the [N] renders
    removes the listener and adds a new one, so the platform sees [N + 1]
    calls of [addEventListener] and [N] of [removeEventListener], all of
    them on the same target, for the same event name, with the same option
    values. *)
Theorem C10_fresh_options_object_rebinds_every_render (rs : gmap nat Target) (p0 : Props)
    (o0 : AddEventListenerOptions) (ids : list nat) :
  options p0 = OptObject o0 ->
  freshly_allocated (opt_id o0) ids = true ->
  has_addEventListener (resolve_target (element p0) (initial_world rs)) = true ->
  exists h w,
    history rs p0 (map (fun i => Render (with_options p0 (reallocated o0 i))) ids)
    = Normal (h, w) /\
    count_adds (trace w) = S (List.length ids) /\
    count_removes (trace w) = List.length ids /\
    Forall (same_subscription (resolve_target (element p0) (initial_world rs))
              (eventName p0) o0) (trace w) /\
    exists cs c, trace w = closed_calls cs ++ [call_of_add c].
Proof.
  intros Ho Hfresh Hcap.
  destruct (mount_inv rs p0) as (h0 & w0 & Hm & Hinv0 & _ & Hd0 & Hrefs0 & _).
  pose proof (mount_capable rs p0 Hcap) as Hm'. rewrite Hm in Hm'.
  injection Hm' as Hh0 Hw0.
  unfold history. rewrite Hm. cbn [cbind].
  assert (Hsame : OptObject o0 = OptObject (reallocated o0 (opt_id o0))) by now destruct o0.
  assert (Hdes : destroy h0 = Some {| c_target := resolve_target (element p0) (initial_world rs);
                                     c_eventName := eventName p0;
                                     c_listener := {| fn_id := 0 |};
                                     c_options := OptObject (reallocated o0 (opt_id o0)) |}).
  { subst h0. cbn [destroy]. now rewrite Ho, <- Hsame. }
  assert (Hdeps : deps_binding h0
                  = (eventName p0, element p0, OptObject (reallocated o0 (opt_id o0)))).
  { rewrite Hd0. unfold deps_of. now rewrite Ho, <- Hsame. }
  destruct (run_reallocated_options rs p0 o0 ids (opt_id o0) h0 w0 _ 0
              Hcap Hfresh Hinv0 Hrefs0 Hdes Hdeps)
    as (h & w & Hrun & Ha & Hr & Hall & Hshape).
  - now subst w0.
  - now subst w0.
  - subst w0. cbn [trace]. rewrite Ho. repeat constructor.
  - exists h, w. split; [exact Hrun|]. split; [exact Ha|]. split; [exact Hr|].
    split; [exact Hall|]. exact Hshape.
Qed.

Lemma C10_fresh_options_object_rebinds_every_render_witness :
  exists h w,
    history ∅
      {| eventName := "resize"; handler := 1; element := None;
         options := OptObject {| opt_id := 100; capture := false; once := false;
                                 passive := true |} |}
      [ Render {| eventName := "resize"; handler := 1; element := None;
                  options := OptObject {| opt_id := 101; capture := false; once := false;
                                          passive := true |} |};
        Render {| eventName := "resize"; handler := 1; element := None;
                  options := OptObject {| opt_id := 102; capture := false; once := false;
                                          passive := true |} |} ]
    = Normal (h, w) /\
    count_adds (trace w) = 3 /\
    count_removes (trace w) = 2 /\
    Forall (same_subscription Window "resize"
              {| opt_id := 100; capture := false; once := false; passive := true |})
           (trace w) /\
    exists cs c, trace w = closed_calls cs ++ [call_of_add c].
Proof.
  exact (C10_fresh_options_object_rebinds_every_render ∅
    {| eventName := "resize"; handler := 1; element := None;
       options := OptObject {| opt_id := 100; capture := false; once := false;
                               passive := true |} |}
    {| opt_id := 100; capture := false; once := false; passive := true |}
    [101; 102] eq_refl eq_refl eq_refl).
Defined.

(** ** A ref that holds nothing *)

(** The claim C1 as worded ("nothing is attached, the window is not a
    fallback") fails: mounted with a ref whose [current] is [null], the hook
    calls [window.addEventListener] and the listener sits on the window. *)
Lemma C1_empty_ref_attaches_to_window_counterexample :
  exists h w,
    mount {| eventName := "resize"; handler := 7; element := Some 1; options := OptUndefined |}
          (initial_world ∅) = Normal (h, w) /\
    trace w = [AddEventListener Window "resize" {| fn_id := 0 |} OptUndefined] /\
    trace w <> [] /\
    registry w = [ {| r_target := Window; r_type := "resize";
                      r_callback := {| fn_id := 0 |};
                      r_capture := false; r_once := false |} ] /\
    invoked (dispatchEvent Window {| ev_type := "resize"; ev_detail := 0 |} h w)
    = [(7, {| ev_type := "resize"; ev_detail := 0 |})].
Proof.
  do 2 eexists. split; [reflexivity|]. cbn [trace registry].
  split; [reflexivity|]. split; [discriminate|]. split; reflexivity.
Qed.

(** C1, amended. The second effect resolves its target when it runs: at
    the first render, and after a render that changed [eventName],
    [element] or [options].  Whenever it runs with a ref that is supplied
    but whose [current] is [null], the target is the global window
    ([element?.current ?? window]): the listener is attached to the window
    with the event name and options given, and the cleanup kept names the
    window, exactly as when no ref is supplied.  This holds on any page, at
    the first render and at a rebind (after the removal of the listener
    attached before).  A render that changes none of the three does not run
    the effect: it attaches nothing, whatever the ref holds by then. *)
Theorem C1_empty_ref_falls_back_to_window (p : Props) (w : World) (r : RefId) :
  element p = Some r ->
  refs w !! r = None ->
  (resolve_target (element p) w = Window /\
   bind_effect p w =
   Normal (Some {| c_target := Window; c_eventName := eventName p;
                   c_listener := {| fn_id := next_fn w |}; c_options := options p |},
           {| refs := refs w;
              registry := add_an_event_listener Window (eventName p) {| fn_id := next_fn w |}
                            (options p) (registry w);
              next_fn := S (next_fn w);
              trace := trace w ++ [AddEventListener Window (eventName p)
                                     {| fn_id := next_fn w |} (options p)];
              invoked := invoked w |}) /\
   bind_effect p w =
   bind_effect {| eventName := eventName p; handler := handler p; element := None;
                  options := options p |} w) /\
  (exists w',
     mount p w =
     Normal ({| savedHandler := handler p; deps_handler := handler p;
                deps_binding := deps_of p;
                destroy := Some {| c_target := Window; c_eventName := eventName p;
                                   c_listener := {| fn_id := next_fn w |};
                                   c_options := options p |} |}, w') /\
     trace w' = trace w ++ [AddEventListener Window (eventName p)
                              {| fn_id := next_fn w |} (options p)]) /\
  (forall h, hook_inv h w ->
     areHookInputsEqual (deps_binding h) (deps_of p) = false ->
     exists w1 h' w',
       run_destroy (destroy h) w = Normal w1 /\
       update p h w = Normal (h', w') /\
       destroy h' = Some {| c_target := Window; c_eventName := eventName p;
                            c_listener := {| fn_id := next_fn w |};
                            c_options := options p |} /\
       trace w' = trace w1 ++ [AddEventListener Window (eventName p)
                                 {| fn_id := next_fn w |} (options p)] /\
       registry w' = add_an_event_listener Window (eventName p) {| fn_id := next_fn w |}
                       (options p) (registry w1)) /\
  (forall h, areHookInputsEqual (deps_binding h) (deps_of p) = true ->
     exists h', update p h w = Normal (h', w) /\ destroy h' = destroy h).
Proof.
  intros Hel Hnull.
  assert (Hres : forall w0, refs w0 = refs w -> resolve_target (element p) w0 = Window).
  { intros w0 Hrefs. unfold resolve_target. now rewrite Hel, Hrefs, Hnull. }
  assert (Hbind : forall w0, refs w0 = refs w ->
    bind_effect p w0 =
    Normal (Some {| c_target := Window; c_eventName := eventName p;
                    c_listener := {| fn_id := next_fn w0 |}; c_options := options p |},
            {| refs := refs w0;
               registry := add_an_event_listener Window (eventName p) {| fn_id := next_fn w0 |}
                             (options p) (registry w0);
               next_fn := S (next_fn w0);
               trace := trace w0 ++ [AddEventListener Window (eventName p)
                                       {| fn_id := next_fn w0 |} (options p)];
               invoked := invoked w0 |})).
  { intros w0 Hrefs. rewrite bind_effect_capable by now rewrite (Hres w0 Hrefs).
    now rewrite (Hres w0 Hrefs). }
  split; [|split; [|split]].
  - split; [exact (Hres w eq_refl)|]. split; [exact (Hbind w eq_refl)|].
    rewrite (Hbind w eq_refl). symmetry. apply (bind_effect_capable
      {| eventName := eventName p; handler := handler p; element := None;
         options := options p |} w). reflexivity.
  - rewrite mount_unfold, (Hbind w eq_refl). cbn [cbind]. eexists. split; reflexivity.
  - intros h Hinv Hdeps.
    destruct (run_destroy_inv h w Hinv) as (w1 & Hd & _ & _ & _ & Hrefs1 & Hfn1 & _).
    exists w1. rewrite (update_changed_deps p h w Hdeps), Hd. cbn [cbind].
    rewrite (Hbind w1 Hrefs1). cbn [cbind]. do 2 eexists.
    split; [reflexivity|]. split; [reflexivity|]. cbn [destroy trace registry].
    rewrite Hfn1. split; [reflexivity|]. split; reflexivity.
  - intros h Hdeps. rewrite (update_same_deps p h w Hdeps). eexists. split; reflexivity.
Qed.

Lemma C1_empty_ref_falls_back_to_window_witness :
  element {| eventName := "resize"; handler := 7; element := Some 1; options := OptBool true |}
  = Some 1 /\
  refs {| refs := {[ 2 := Element 5 ]};
          registry := [ {| r_target := Element 5; r_type := "click";
                           r_callback := {| fn_id := 0 |};
                           r_capture := false; r_once := false |} ];
          next_fn := 1;
          trace := [AddEventListener (Element 5) "click" {| fn_id := 0 |} OptUndefined];
          invoked := [] |} !! 1 = None /\
  bind_effect
    {| eventName := "resize"; handler := 7; element := Some 1; options := OptBool true |}
    {| refs := {[ 2 := Element 5 ]};
       registry := [ {| r_target := Element 5; r_type := "click";
                        r_callback := {| fn_id := 0 |};
                        r_capture := false; r_once := false |} ];
       next_fn := 1;
       trace := [AddEventListener (Element 5) "click" {| fn_id := 0 |} OptUndefined];
       invoked := [] |}
  = Normal (Some {| c_target := Window; c_eventName := "resize";
                    c_listener := {| fn_id := 1 |}; c_options := OptBool true |},
            {| refs := {[ 2 := Element 5 ]};
               registry := [ {| r_target := Element 5; r_type := "click";
                                r_callback := {| fn_id := 0 |};
                                r_capture := false; r_once := false |};
                             {| r_target := Window; r_type := "resize";
                                r_callback := {| fn_id := 1 |};
                                r_capture := true; r_once := false |} ];
               next_fn := 2;
               trace := [ AddEventListener (Element 5) "click" {| fn_id := 0 |} OptUndefined;
                          AddEventListener Window "resize" {| fn_id := 1 |} (OptBool true) ];
               invoked := [] |}).
Proof.
  split; [reflexivity|]. split; [reflexivity|].
  exact (proj1 (proj2 (proj1 (C1_empty_ref_falls_back_to_window
    {| eventName := "resize"; handler := 7; element := Some 1; options := OptBool true |}
    {| refs := {[ 2 := Element 5 ]};
       registry := [ {| r_target := Element 5; r_type := "click";
                        r_callback := {| fn_id := 0 |};
                        r_capture := false; r_once := false |} ];
       next_fn := 1;
       trace := [AddEventListener (Element 5) "click" {| fn_id := 0 |} OptUndefined];
       invoked := [] |}
    1 eq_refl eq_refl)))).
Defined.

(** ** JSON on sample texts *)

Example stringify_object_sample :
  JSON_stringify (VObject [(js "name", VString (js "test-value"))])
  = Normal (Some (123%N :: 34%N :: js "name" ++ 34%N :: 58%N :: 34%N :: js "test-value"
                  ++ [34%N; 125%N])).
Proof. reflexivity. Qed.

Example stringify_array_sample :
  JSON_stringify (VArray [VNumber (Integer (-11)); VUndefined; VBool true; VNumber NaN;
                          VNumber (Fraction 15 (-1)); VNumber NegZero])
  = Normal (Some (js "[-11,null,true,null,1.5,0]")).
Proof. vm_compute. reflexivity. Qed.

Example stringify_undefined_sample : JSON_stringify VUndefined = Normal None.
Proof. reflexivity. Qed.

Example stringify_bigint_sample : JSON_stringify (VBigInt 1) = Throw TypeError.
Proof. reflexivity. Qed.

Example quote_sample :
  QuoteJSONString [10%N; 34%N; 55357%N; 56832%N; 55357%N; 65%N; 56832%N; 31%N]
  = 34%N :: js "\n\" ++ 34%N :: 55357%N :: 56832%N :: js "\ud83dA\ude00\u001f" ++ [34%N].
Proof. vm_compute. reflexivity. Qed.

Example parse_array_sample :
  JSON_parse (js " [1, 2.50, -0, 1e2, 12e-1, true, null, [], {} ] ")
  = Normal (VArray [VNumber (Integer 1); VNumber (Fraction 25 (-1)); VNumber NegZero;
                    VNumber (Integer 100); VNumber (Fraction 12 (-1)); VBool true; VNull;
                    VArray []; VObject []]).
Proof. vm_compute. reflexivity. Qed.

Example number_text_samples :
  List.map Number_toString
    [Integer 0; Integer (-11); Fraction 15 (-1); Fraction (-123) (-6); Fraction 1 (-7);
     Fraction 12345 (-2); Integer (10 ^ 21); Integer (123 * 10 ^ 20); NegZero]
  = [js "0"; js "-11"; js "1.5"; js "-0.000123"; js "1e-7"; js "123.45"; js "1e+21";
     js "1.23e+22"; js "0"].
Proof. vm_compute. reflexivity. Qed.

Example parse_number_samples :
  List.map JSON_parse
    [js "0"; js "-11"; js "1.5"; js "-0.000123"; js "1e-7"; js "123.45"; js "1e+21";
     js "1.23E22"; js "-0"; js "1.50"; js "10e-1"]
  = List.map (fun x => Normal (VNumber x))
      [Integer 0; Integer (-11); Fraction 15 (-1); Fraction (-123) (-6); Fraction 1 (-7);
       Fraction 12345 (-2); Integer (10 ^ 21); Integer (123 * 10 ^ 20); NegZero;
       Fraction 15 (-1); Integer 1].
Proof. vm_compute. reflexivity. Qed.

Example parse_undefined_sample : JSON_parse (js "undefined") = Throw SyntaxError.
Proof. vm_compute. reflexivity. Qed.

Example parse_leading_zero_sample : JSON_parse (js "01") = Throw SyntaxError.
Proof. vm_compute. reflexivity. Qed.

Example parse_trailing_comma_sample : JSON_parse (js "[1,]") = Throw SyntaxError.
Proof. vm_compute. reflexivity. Qed.

Example parse_two_values_sample : JSON_parse (js "1 2") = Throw SyntaxError.
Proof. vm_compute. reflexivity. Qed.

Example not_a_number_does_not_read_back :
  JSON_stringify (VNumber NaN) = Normal (Some (js "null")) /\
  JSON_parse (js "null") = Normal VNull.
Proof. vm_compute. split; reflexivity. Qed.

(** ** Digits *)

Lemma uint_chars_digit (d : Decimal.uint) :
  Forall (fun c => is_digit c = true) (uint_chars d).
Proof. induction d; simpl; constructor; trivial. Qed.

Lemma uint_of_chars_uint_chars (d : Decimal.uint) : uint_of_chars (uint_chars d) = d.
Proof. induction d; cbn [uint_chars uint_of_chars]; rewrite ?IHd; reflexivity. Qed.

Lemma read_digits_chars (cs rest : JsString) :
  Forall (fun c => is_digit c = true) cs ->
  match rest with [] => True | c :: _ => is_digit c = false end ->
  read_digits (cs ++ rest) = (uint_of_chars cs, rest).
Proof.
  intros Hcs Hrest. induction Hcs as [|c cs Hc _ IH]; cbn [app read_digits uint_of_chars].
  - destruct rest as [|c rest]; [reflexivity|]. cbn [read_digits]. now rewrite Hrest.
  - now rewrite Hc, IH.
Qed.

Lemma read_digits_uint_chars (d : Decimal.uint) (rest : JsString) :
  match rest with [] => True | c :: _ => is_digit c = false end ->
  read_digits (uint_chars d ++ rest) = (d, rest).
Proof.
  intros Hrest.
  rewrite (read_digits_chars _ _ (uint_chars_digit d) Hrest).
  now rewrite uint_of_chars_uint_chars.
Qed.

Lemma push_digit_cases (c : N) (d : Decimal.uint) :
  push_digit c d = D0 d \/ push_digit c d = D1 d \/ push_digit c d = D2 d \/
  push_digit c d = D3 d \/ push_digit c d = D4 d \/ push_digit c d = D5 d \/
  push_digit c d = D6 d \/ push_digit c d = D7 d \/ push_digit c d = D8 d \/
  push_digit c d = D9 d.
Proof.
  unfold push_digit.
  repeat match goal with
         | |- context [match ?x with _ => _ end] => destruct x
         end; tauto.
Qed.

Lemma nb_digits_push_digit (c : N) (d : Decimal.uint) :
  nb_digits (push_digit c d) = S (nb_digits d).
Proof.
  destruct (push_digit_cases c d) as [H|[H|[H|[H|[H|[H|[H|[H|[H|H]]]]]]]]];
    rewrite H; reflexivity.
Qed.

Lemma uint_app_push_digit (c : N) (d d' : Decimal.uint) :
  uint_app (push_digit c d) d' = push_digit c (uint_app d d').
Proof.
  unfold push_digit.
  repeat match goal with
         | |- context [match ?x with _ => _ end] => destruct x
         end; reflexivity.
Qed.

Lemma push_digit_not_nil (c : N) (d : Decimal.uint) : push_digit c d <> Nil.
Proof.
  destruct (push_digit_cases c d) as [H|[H|[H|[H|[H|[H|[H|[H|[H|H]]]]]]]]];
    rewrite H; discriminate.
Qed.

Lemma push_digit_nonzero (c : N) (d : Decimal.uint) :
  (49 <= c <= 57)%N -> int_part_ok (push_digit c d) = true.
Proof.
  intros Hc.
  assert (Hcases : (c = 49 \/ c = 50 \/ c = 51 \/ c = 52 \/ c = 53 \/ c = 54 \/
                    c = 55 \/ c = 56 \/ c = 57)%N) by lia.
  destruct Hcases as [->|[->|[->|[->|[->|[->|[->|[->| ->]]]]]]]]; reflexivity.
Qed.

Lemma nb_digits_uint_of_chars (cs : JsString) :
  nb_digits (uint_of_chars cs) = List.length cs.
Proof.
  induction cs as [|c cs IH]; [reflexivity|].
  cbn [uint_of_chars List.length]. now rewrite nb_digits_push_digit, IH.
Qed.

Lemma uint_of_chars_app (xs ys : JsString) :
  uint_of_chars (xs ++ ys) = uint_app (uint_of_chars xs) (uint_of_chars ys).
Proof.
  induction xs as [|c xs IH]; [reflexivity|].
  cbn [app uint_of_chars]. now rewrite IH, uint_app_push_digit.
Qed.

Lemma uint_app_nil_r (d : Decimal.uint) : uint_app d Nil = d.
Proof. induction d; cbn [uint_app]; rewrite ?IHd; reflexivity. Qed.

Lemma uint_of_chars_not_nil (cs : JsString) : cs <> [] -> uint_of_chars cs <> Nil.
Proof.
  destruct cs as [|c cs]; [congruence|]. intros _. apply push_digit_not_nil.
Qed.

Lemma of_uint_leading_zeros (j : nat) (cs : JsString) :
  N.of_uint (uint_of_chars (repeat 48%N j ++ cs)) = N.of_uint (uint_of_chars cs).
Proof. induction j as [|j IH]; [reflexivity|]. exact IH. Qed.

Lemma unorm_fixed_shape (d : Decimal.uint) :
  unorm d = d -> d <> Nil /\ forall d', d = D0 d' -> d' = Nil.
Proof.
  intros Hd. split.
  - intros ->. discriminate.
  - intros d' ->. rewrite unorm_D0 in Hd.
    unfold unorm in Hd. destruct (nzhead d') as [|u|u|u|u|u|u|u|u|u|u] eqn:Hn;
      try discriminate.
    + now injection Hd.
    + exfalso. exact (nzhead_nonzero d' u Hn).
Qed.

Lemma to_uint_shape (n : N) :
  N.to_uint n <> Nil /\ forall d', N.to_uint n = D0 d' -> d' = Nil.
Proof.
  apply unorm_fixed_shape.
  now rewrite <- DecimalN.Unsigned.to_of, DecimalN.Unsigned.of_to.
Qed.

Lemma digits_of_digits (n : N) : Forall (fun c => is_digit c = true) (digits_of n).
Proof. apply uint_chars_digit. Qed.

Lemma uint_of_chars_digits_of (n : N) : uint_of_chars (digits_of n) = N.to_uint n.
Proof. apply uint_of_chars_uint_chars. Qed.

Lemma digits_of_head (n : N) :
  exists c t, digits_of n = c :: t /\ is_digit c = true.
Proof.
  unfold digits_of. destruct (to_uint_shape n) as [Hnil _].
  pose proof (uint_chars_digit (N.to_uint n)) as Hall.
  destruct (N.to_uint n); try congruence; simpl in *; eauto.
Qed.

(** The first digit of a number other than zero is not [0]. *)
Lemma digits_of_positive (n : N) :
  n <> 0%N -> exists c t, digits_of n = c :: t /\ (49 <= c <= 57)%N.
Proof.
  intros Hn. unfold digits_of. destruct (to_uint_shape n) as [Hnil Hzero].
  pose proof (DecimalN.Unsigned.of_to n) as Hof.
  destruct (N.to_uint n) as [|u|u|u|u|u|u|u|u|u|u]; try congruence;
    cbn [uint_chars]; try (do 2 eexists; split; [reflexivity|lia]).
  rewrite (Hzero u eq_refl) in Hof. simpl in Hof. congruence.
Qed.

Lemma int_part_ok_to_uint (n : N) : int_part_ok (N.to_uint n) = true.
Proof.
  destruct (to_uint_shape n) as [Hnil Hzero].
  destruct (N.to_uint n) as [|u|u|u|u|u|u|u|u|u|u]; try congruence; try reflexivity.
  now rewrite (Hzero u eq_refl).
Qed.

Lemma parse_int_digits_ok (s : JsString) (d : Decimal.uint) (rest : JsString) :
  read_digits s = (d, rest) -> int_part_ok d = true ->
  parse_int_digits s = Some (d, rest).
Proof. intros Hr Hok. unfold parse_int_digits. now rewrite Hr, Hok. Qed.

(** ** Numbers *)

Lemma value_end_not_digit (rest : JsString) :
  value_end rest = true ->
  match rest with [] => True | c :: _ => is_digit c = false end.
Proof.
  destruct rest as [|c rest]; [trivial|]. unfold value_end, is_digit.
  rewrite !orb_true_iff, !N.eqb_eq. intros [[->| ->]| ->]; reflexivity.
Qed.

Lemma parse_fraction_value_end (rest : JsString) :
  value_end rest = true -> parse_fraction rest = Some (Nil, rest).
Proof.
  destruct rest as [|c rest]; [reflexivity|]. unfold value_end, parse_fraction.
  rewrite !orb_true_iff, !N.eqb_eq. intros [[->| ->]| ->]; reflexivity.
Qed.

Lemma parse_exponent_value_end (rest : JsString) :
  value_end rest = true -> parse_exponent rest = Some (0%Z, rest).
Proof.
  destruct rest as [|c rest]; [reflexivity|]. unfold value_end, parse_exponent.
  rewrite !orb_true_iff, !N.eqb_eq. intros [[->| ->]| ->]; reflexivity.
Qed.

Lemma parse_fraction_digits (cs rest : JsString) :
  Forall (fun c => is_digit c = true) cs -> cs <> [] ->
  match rest with [] => True | c :: _ => is_digit c = false end ->
  parse_fraction (46%N :: cs ++ rest) = Some (uint_of_chars cs, rest).
Proof.
  intros Hcs Hne Hrest. unfold parse_fraction.
  change ((46 =? 46)%N) with true. cbv iota.
  rewrite (read_digits_chars cs rest Hcs Hrest).
  pose proof (uint_of_chars_not_nil cs Hne) as Hnil.
  destruct (uint_of_chars cs); congruence.
Qed.

Lemma parse_number_steps (s s1 s2 s3 s4 : JsString) (negative : bool)
    (int_part frac_part : Decimal.uint) (ex : Z) :
  parse_minus s = (negative, s1) ->
  parse_int_digits s1 = Some (int_part, s2) ->
  parse_fraction s2 = Some (frac_part, s3) ->
  parse_exponent s3 = Some (ex, s4) ->
  parse_number s
  = Some (decimal_number negative (N.of_uint (uint_app int_part frac_part))
            (ex - Z.of_nat (nb_digits frac_part)), s4).
Proof.
  intros H1 H2 H3 H4. unfold parse_number. now rewrite H1, H2, H3, H4.
Qed.

Lemma parse_minus_sign (negative : bool) (c : N) (t : JsString) :
  is_digit c = true ->
  parse_minus (sign_chars negative ++ c :: t) = (negative, c :: t).
Proof.
  intros Hc. destruct negative; [reflexivity|].
  cbn [sign_chars app parse_minus].
  destruct (N.eqb_spec c 45) as [->|]; [discriminate|reflexivity].
Qed.

Lemma signed_abs (z : Z) : signed (z <? 0)%Z (Z.abs_N z) = z.
Proof. unfold signed. destruct (Z.ltb_spec z 0); lia. Qed.

Lemma decimal_number_integer (z : Z) :
  decimal_number (z <? 0)%Z (Z.abs_N z) 0 = Integer z.
Proof.
  unfold decimal_number.
  destruct (N.eqb_spec (Z.abs_N z) 0) as [H0|H0].
  - destruct (Z.ltb_spec z 0); [lia|]. f_equal. lia.
  - cbn [Z.leb Z.compare Z.pow]. rewrite signed_abs. f_equal. lia.
Qed.

Lemma decimal_number_fraction (m e : Z) :
  normal_fraction m e = true ->
  decimal_number (m <? 0)%Z (Z.abs_N m) e = Fraction m e.
Proof.
  unfold normal_fraction. rewrite !andb_true_iff, !negb_true_iff.
  intros [[Hm Hten] He]. apply Z.eqb_neq in Hm. apply Z.ltb_lt in He.
  unfold decimal_number.
  destruct (N.eqb_spec (Z.abs_N m) 0) as [H0|H0]; [lia|].
  destruct (Z.leb_spec 0 e) as [Hle|_]; [lia|].
  destruct (Z.to_nat (- e)) as [|fuel] eqn:Hfuel; [lia|].
  cbn [strip_factor_ten]. rewrite Hten, andb_false_r.
  destruct (Z.eqb_spec e 0) as [He0|_]; [lia|].
  now rewrite signed_abs.
Qed.

(** The text of an integer below [10^21] reads back. *)
Lemma parse_number_integer (z : Z) (rest : JsString) :
  (Z.abs z < 10 ^ 21)%Z ->
  value_end rest = true ->
  parse_number (Number_toString (Integer z) ++ rest) = Some (Integer z, rest).
Proof.
  intros Hz Hrest. unfold Number_toString.
  replace (Z.abs z <? 10 ^ 21)%Z with true by (symmetry; now apply Z.ltb_lt).
  destruct (digits_of_head (Z.abs_N z)) as (c & t & Hc & Hdig).
  rewrite <- app_assoc.
  erewrite parse_number_steps; cycle 1.
  - rewrite Hc. cbn [app]. apply parse_minus_sign, Hdig.
  - change (c :: t ++ rest) with ((c :: t) ++ rest). rewrite <- Hc.
    apply parse_int_digits_ok.
    + apply read_digits_uint_chars, value_end_not_digit, Hrest.
    + apply int_part_ok_to_uint.
  - now apply parse_fraction_value_end.
  - now apply parse_exponent_value_end.
  - rewrite uint_app_nil_r, DecimalN.Unsigned.of_to. cbn [nb_digits Z.of_nat Z.sub].
    now rewrite decimal_number_integer.
Qed.

(** The three layouts [Number::toString] gives a fraction. *)

Lemma positional_reads_back (ds : JsString) (n : nat) (rest : JsString) :
  Forall (fun c => is_digit c = true) ds ->
  (exists c t, ds = c :: t /\ (49 <= c <= 57)%N) ->
  0 < n < List.length ds ->
  value_end rest = true ->
  parse_int_digits ((firstn n ds ++ 46%N :: skipn n ds) ++ rest)
  = Some (uint_of_chars (firstn n ds), 46%N :: skipn n ds ++ rest) /\
  parse_fraction (46%N :: skipn n ds ++ rest) = Some (uint_of_chars (skipn n ds), rest).
Proof.
  intros Hds (c & t & -> & Hc) Hn Hrest. split.
  - rewrite <- app_assoc. cbn [app]. apply parse_int_digits_ok.
    + apply read_digits_chars; [now apply Forall_take|reflexivity].
    + destruct n as [|n]; [lia|]. cbn [firstn uint_of_chars].
      now apply push_digit_nonzero.
  - apply parse_fraction_digits.
    + now apply Forall_drop.
    + intros Hnil. apply (f_equal (@List.length N)) in Hnil.
      rewrite length_skipn in Hnil. cbn [List.length] in Hnil, Hn. lia.
    + now apply value_end_not_digit.
Qed.

Lemma leading_zeros_reads_back (ds : JsString) (j : nat) (rest : JsString) :
  Forall (fun c => is_digit c = true) ds ->
  ds <> [] ->
  value_end rest = true ->
  parse_int_digits ((48%N :: 46%N :: repeat 48%N j ++ ds) ++ rest)
  = Some (D0 Nil, 46%N :: (repeat 48%N j ++ ds) ++ rest) /\
  parse_fraction (46%N :: (repeat 48%N j ++ ds) ++ rest)
  = Some (uint_of_chars (repeat 48%N j ++ ds), rest).
Proof.
  intros Hds Hne Hrest. split.
  - reflexivity.
  - apply parse_fraction_digits.
    + apply Forall_app. split; [|exact Hds].
      clear. induction j; simpl; constructor; trivial.
    + destruct ds; [congruence|]. destruct j; discriminate.
    + now apply value_end_not_digit.
Qed.

Lemma exponent_digits_read_back (x : Z) (rest : JsString) :
  value_end rest = true ->
  parse_exponent (101%N :: (if (0 <=? x)%Z then 43%N else 45%N)
                  :: digits_of (Z.abs_N x) ++ rest)
  = Some (x, rest).
Proof.
  intros Hrest. unfold parse_exponent.
  change ((101 =? 101)%N || (101 =? 69)%N) with true. cbv iota.
  assert (Hsign : parse_exponent_sign
                    ((if (0 <=? x)%Z then 43%N else 45%N) :: digits_of (Z.abs_N x) ++ rest)
                  = (negb (0 <=? x)%Z, digits_of (Z.abs_N x) ++ rest)).
  { destruct (0 <=? x)%Z; reflexivity. }
  rewrite Hsign.
  unfold digits_of.
  rewrite (read_digits_uint_chars _ _ (value_end_not_digit _ Hrest)).
  destruct (to_uint_shape (Z.abs_N x)) as [Hnil _].
  assert (Hval : signed (negb (0 <=? x)%Z) (N.of_uint (N.to_uint (Z.abs_N x))) = x).
  { rewrite DecimalN.Unsigned.of_to. unfold signed.
    destruct (Z.leb_spec 0 x); cbn [negb]; lia. }
  revert Hnil Hval.
  destruct (N.to_uint (Z.abs_N x)); intros Hnil Hval; try congruence; now rewrite Hval.
Qed.

Lemma exponent_form_reads_back (c : N) (more : JsString) (n : Z) (rest : JsString) :
  (49 <= c <= 57)%N ->
  Forall (fun c => is_digit c = true) more ->
  value_end rest = true ->
  exists s2 s3,
    parse_int_digits (exponent_form (c :: more) n ++ rest) = Some (push_digit c Nil, s2) /\
    parse_fraction s2 = Some (uint_of_chars more, s3) /\
    parse_exponent s3 = Some ((n - 1)%Z, rest).
Proof.
  intros Hc Hmore Hrest. cbn [exponent_form].
  destruct more as [|d more'].
  - do 2 eexists. split; [|split].
    + cbn [app]. apply parse_int_digits_ok; [|now apply push_digit_nonzero].
      cbn [read_digits].
      replace (is_digit c) with true
        by (unfold is_digit; symmetry; apply andb_true_iff; split; apply N.leb_le; lia).
      reflexivity.
    + reflexivity.
    + now apply exponent_digits_read_back.
  - do 2 eexists. split; [|split].
    + cbn [app]. apply parse_int_digits_ok; [|now apply push_digit_nonzero].
      cbn [read_digits].
      replace (is_digit c) with true
        by (unfold is_digit; symmetry; apply andb_true_iff; split; apply N.leb_le; lia).
      reflexivity.
    + rewrite <- app_assoc. cbn [app].
      apply (parse_fraction_digits (d :: more')); [exact Hmore|discriminate|reflexivity].
    + now apply exponent_digits_read_back.
Qed.

(** The text of a fraction in normal form reads back. *)
Lemma parse_number_fraction (m e : Z) (rest : JsString) :
  normal_fraction m e = true ->
  value_end rest = true ->
  parse_number (Number_toString (Fraction m e) ++ rest) = Some (Fraction m e, rest).
Proof.
  intros Hnormal Hrest.
  pose proof Hnormal as Hparts. unfold normal_fraction in Hparts.
  rewrite !andb_true_iff, !negb_true_iff in Hparts.
  destruct Hparts as [[Hm _] He]. apply Z.eqb_neq in Hm. apply Z.ltb_lt in He.
  destruct (digits_of_positive (Z.abs_N m) ltac:(lia)) as (c & t & Hds & Hc).
  pose proof (digits_of_digits (Z.abs_N m)) as Hdigits.
  pose proof (uint_of_chars_digits_of (Z.abs_N m)) as Huint.
  assert (Hcd : is_digit c = true)
    by (unfold is_digit; apply andb_true_iff; split; apply N.leb_le; lia).
  unfold Number_toString. cbv zeta.
  set (ds := digits_of (Z.abs_N m)) in *.
  set (n := (Z.of_nat (List.length ds) + e)%Z).
  rewrite <- app_assoc.
  destruct ((0 <? n)%Z && (n <=? 21)%Z) eqn:Hpos.
  - (* digits, a point, digits *)
    apply andb_true_iff in Hpos as [Hn0 _]. apply Z.ltb_lt in Hn0.
    assert (Hrange : 0 < Z.to_nat n < List.length ds) by lia.
    destruct (positional_reads_back ds (Z.to_nat n) rest Hdigits
                (ex_intro _ c (ex_intro _ t (conj Hds Hc))) Hrange Hrest) as [Hint Hfrac].
    erewrite parse_number_steps;
      [| |exact Hint|exact Hfrac|now apply parse_exponent_value_end].
    + rewrite <- uint_of_chars_app, firstn_skipn, Huint, DecimalN.Unsigned.of_to.
      rewrite nb_digits_uint_of_chars, length_skipn.
      replace (0 - Z.of_nat (List.length ds - Z.to_nat n))%Z with e by lia.
      now rewrite decimal_number_fraction.
    + destruct (Z.to_nat n) as [|n'] eqn:Hn'; [lia|].
      rewrite Hds. cbn [firstn app]. now apply parse_minus_sign.
  - destruct ((-6 <? n)%Z && (n <=? 0)%Z) eqn:Hsmall.
    + (* 0, a point, zeros, digits *)
      apply andb_true_iff in Hsmall as [_ Hn0]. apply Z.leb_le in Hn0.
      destruct (leading_zeros_reads_back ds (Z.to_nat (- n)) rest Hdigits
                  ltac:(rewrite Hds; discriminate) Hrest) as [Hint Hfrac].
      erewrite parse_number_steps;
        [| |exact Hint|exact Hfrac|now apply parse_exponent_value_end].
      * cbn [uint_app]. change (N.of_uint (D0 ?u)) with (N.of_uint u).
        rewrite of_uint_leading_zeros, Huint, DecimalN.Unsigned.of_to.
        rewrite nb_digits_uint_of_chars, length_app, repeat_length.
        replace (0 - Z.of_nat (Z.to_nat (- n) + List.length ds))%Z with e by lia.
        now rewrite decimal_number_fraction.
      * cbn [app]. now apply parse_minus_sign.
    + (* one digit, the others after a point, an exponent *)
      rewrite Hds.
      destruct (exponent_form_reads_back c t n rest Hc
                  ltac:(rewrite Hds in Hdigits; now apply Forall_cons in Hdigits) Hrest)
        as (s2 & s3 & Hint & Hfrac & Hexp).
      erewrite parse_number_steps; [| |exact Hint|exact Hfrac|exact Hexp].
      * change (push_digit c Nil) with (uint_of_chars [c]).
        rewrite <- (uint_of_chars_app [c] t). cbn [app]. rewrite <- Hds, Huint.
        rewrite DecimalN.Unsigned.of_to, nb_digits_uint_of_chars.
        replace (n - 1 - Z.of_nat (List.length t))%Z with e
          by (subst n; rewrite Hds; cbn [List.length]; lia).
        now rewrite decimal_number_fraction.
      * cbn [exponent_form app]. now apply parse_minus_sign.
Qed.

(** An integer of [10^21] or more: one digit, the others after a point
    without their trailing zeros, an exponent. *)

Lemma strip_trailing_zeros_spec (ds : JsString) :
  exists j, ds = strip_trailing_zeros ds ++ repeat 48%N j.
Proof.
  induction ds as [|c ds [j IH]]; [now exists 0|].
  cbn [strip_trailing_zeros].
  destruct (strip_trailing_zeros ds) as [|d ds'] eqn:Hs.
  - destruct (N.eqb_spec c 48) as [->|Hc].
    + exists (S j). now rewrite IH.
    + exists j. now rewrite IH at 1.
  - exists j. now rewrite IH at 1.
Qed.

Lemma strip_trailing_zeros_head (c : N) (t : JsString) :
  c <> 48%N -> exists t', strip_trailing_zeros (c :: t) = c :: t'.
Proof.
  intros Hc. cbn [strip_trailing_zeros].
  destruct (strip_trailing_zeros t) as [|d t'].
  - destruct (N.eqb_spec c 48); [contradiction|eauto].
  - eauto.
Qed.

Lemma revapp_uint_app (u v acc : Decimal.uint) :
  revapp (uint_app u v) acc = revapp v (revapp u acc).
Proof. revert acc. induction u; intros acc; cbn [uint_app revapp]; auto. Qed.

Lemma of_uint_append_zero (u : Decimal.uint) :
  N.of_uint (uint_app u (D0 Nil)) = (10 * N.of_uint u)%N.
Proof.
  unfold N.of_uint. rewrite !DecimalPos.Unsigned.of_uint_alt.
  unfold Decimal.rev. rewrite revapp_uint_app. reflexivity.
Qed.

Lemma of_uint_trailing_zeros (xs : JsString) (j : nat) :
  N.of_uint (uint_of_chars (xs ++ repeat 48%N j))
  = (N.of_uint (uint_of_chars xs) * 10 ^ N.of_nat j)%N.
Proof.
  revert xs. induction j as [|j IH]; intros xs.
  - cbn [repeat]. rewrite app_nil_r. change (N.of_nat 0) with 0%N. cbn [N.pow]. lia.
  - change (repeat 48%N (S j)) with ([48%N] ++ repeat 48%N j).
    rewrite app_assoc, IH, uint_of_chars_app.
    change (uint_of_chars [48%N]) with (D0 Nil). rewrite of_uint_append_zero.
    rewrite Nat2N.inj_succ, N.pow_succ_r'. lia.
Qed.

Lemma parse_number_big_integer (z : Z) (rest : JsString) :
  (10 ^ 21 <= Z.abs z)%Z ->
  value_end rest = true ->
  parse_number (Number_toString (Integer z) ++ rest) = Some (Integer z, rest).
Proof.
  intros Hz Hrest. unfold Number_toString.
  replace (Z.abs z <? 10 ^ 21)%Z with false by (symmetry; now apply Z.ltb_ge).
  destruct (digits_of_positive (Z.abs_N z) ltac:(lia)) as (c & t & Hds & Hc).
  pose proof (digits_of_digits (Z.abs_N z)) as Hdigits.
  pose proof (uint_of_chars_digits_of (Z.abs_N z)) as Huint.
  assert (Hcd : is_digit c = true)
    by (unfold is_digit; apply andb_true_iff; split; apply N.leb_le; lia).
  set (ds := digits_of (Z.abs_N z)) in *.
  destruct (strip_trailing_zeros_spec ds) as [j Hj].
  assert (Hhead : exists t', strip_trailing_zeros ds = c :: t').
  { rewrite Hds. apply strip_trailing_zeros_head. lia. }
  destruct Hhead as [t' Ht'].
  assert (Hdigits' : Forall (fun c => is_digit c = true) t').
  { rewrite Hj, Ht' in Hdigits. apply Forall_app in Hdigits as [Hd _].
    now apply Forall_cons in Hd. }
  rewrite <- app_assoc, Ht'.
  destruct (exponent_form_reads_back c t' (Z.of_nat (List.length ds)) rest Hc Hdigits' Hrest)
    as (s2 & s3 & Hint & Hfrac & Hexp).
  erewrite (parse_number_steps _ _ _ _ _ (z <? 0)%Z);
    [| |exact Hint|exact Hfrac|exact Hexp].
  - change (push_digit c Nil) with (uint_of_chars [c]).
    rewrite <- (uint_of_chars_app [c] t'). cbn [app]. rewrite nb_digits_uint_of_chars.
    assert (Hlen : (Z.of_nat (List.length ds) - 1 - Z.of_nat (List.length t')
                    = Z.of_nat j)%Z).
    { rewrite Hj at 1. rewrite Ht', length_app, repeat_length. cbn [List.length]. lia. }
    rewrite Hlen.
    assert (Hval : (N.of_uint (uint_of_chars (c :: t')) * 10 ^ N.of_nat j)%N = Z.abs_N z).
    { rewrite <- of_uint_trailing_zeros, <- Ht', <- Hj, Huint.
      apply DecimalN.Unsigned.of_to. }
    unfold decimal_number.
    destruct (N.eqb_spec (N.of_uint (uint_of_chars (c :: t'))) 0) as [H0|H0].
    { rewrite H0 in Hval. lia. }
    destruct (Z.leb_spec 0 (Z.of_nat j)) as [_|Hneg]; [|lia].
    do 2 f_equal. apply (f_equal Integer).
    assert (Hz' : Z.of_N (Z.abs_N z)
                  = (Z.of_N (N.of_uint (uint_of_chars (c :: t'))) * 10 ^ Z.of_nat j)%Z).
    { rewrite <- Hval, N2Z.inj_mul, N2Z.inj_pow, nat_N_Z. reflexivity. }
    rewrite N2Z.inj_abs_N in Hz'. unfold signed. revert Hz'.
    generalize (10 ^ Z.of_nat j)%Z (Z.of_N (N.of_uint (uint_of_chars (c :: t')))).
    intros p q Hz'. destruct (Z.ltb_spec z 0); lia.
  - cbn [exponent_form app]. now apply parse_minus_sign.
Qed.

(** The first character of a number's text. *)
Lemma Number_toString_head (x : JsNumber) :
  serializable (VNumber x) = true ->
  exists c t, Number_toString x = c :: t /\ (is_digit c = true \/ c = 45%N).
Proof.
  destruct x as [| | | |z|m e]; try discriminate; cbn [serializable]; intros Hser.
  - unfold Number_toString. destruct (Z.ltb_spec (Z.abs z) (10 ^ 21)) as [Hz|Hz].
    + destruct (digits_of_head (Z.abs_N z)) as (c & t & Hc & Hdig).
      destruct (z <? 0)%Z; cbn [sign_chars app]; [eauto|]. rewrite Hc. eauto.
    + destruct (digits_of_positive (Z.abs_N z) ltac:(lia)) as (c & t & Hds & Hc).
      destruct (strip_trailing_zeros_head c t ltac:(lia)) as [t' Ht'].
      rewrite <- Hds in Ht'. rewrite Ht'.
      destruct (z <? 0)%Z; cbn [sign_chars app exponent_form]; [eauto|].
      do 2 eexists. split; [reflexivity|]. left.
      unfold is_digit. apply andb_true_iff; split; apply N.leb_le; lia.
  - pose proof Hser as Hparts. unfold normal_fraction in Hparts.
    rewrite !andb_true_iff, !negb_true_iff in Hparts.
    destruct Hparts as [[Hm _] _]. apply Z.eqb_neq in Hm.
    destruct (digits_of_positive (Z.abs_N m) ltac:(lia)) as (c & t & Hds & Hc).
    assert (Hcd : is_digit c = true)
      by (unfold is_digit; apply andb_true_iff; split; apply N.leb_le; lia).
    unfold Number_toString. cbv zeta.
    destruct (m <? 0)%Z; cbn [sign_chars app]; [eauto|].
    rewrite Hds.
    destruct ((0 <? Z.of_nat (List.length (c :: t)) + e)%Z
              && (Z.of_nat (List.length (c :: t)) + e <=? 21)%Z) eqn:Hpos.
    + apply andb_true_iff in Hpos as [Hn0 _]. apply Z.ltb_lt in Hn0.
      destruct (Z.to_nat (Z.of_nat (List.length (c :: t)) + e)) as [|n'] eqn:Hn'; [lia|].
      cbn [firstn app]. eauto.
    + destruct ((-6 <? Z.of_nat (List.length (c :: t)) + e)%Z
                && (Z.of_nat (List.length (c :: t)) + e <=? 0)%Z).
      * do 2 eexists. split; [reflexivity|]. now left.
      * cbn [exponent_form]. eauto.
Qed.

Lemma parse_number_text (x : JsNumber) (rest : JsString) :
  serializable (VNumber x) = true ->
  value_end rest = true ->
  parse_number (Number_toString x ++ rest) = Some (x, rest).
Proof.
  destruct x as [| | | |z|m e]; try discriminate; cbn [serializable]; intros Hser Hrest.
  - destruct (Z.ltb_spec (Z.abs z) (10 ^ 21)) as [Hz|Hz].
    + now apply parse_number_integer.
    + now apply parse_number_big_integer.
  - now apply parse_number_fraction.
Qed.

(** ** Strings *)

Lemma hex_value_hex_char (n : N) :
  (n < 16)%N -> hex_value (hex_char n) = Some n.
Proof.
  intros Hn.
  assert (Hall : forallb (fun k => match hex_value (hex_char k) with
                                   | Some j => (j =? k)%N
                                   | None => false
                                   end) (List.map N.of_nat (seq 0 16)) = true)
    by (vm_compute; reflexivity).
  rewrite forallb_forall in Hall.
  specialize (Hall n). 
  assert (Hin : In n (List.map N.of_nat (seq 0 16))).
  { apply in_map_iff. exists (N.to_nat n). split; [lia|]. apply in_seq. lia. }
  specialize (Hall Hin).
  destruct (hex_value (hex_char n)) as [j|]; [|discriminate].
  apply N.eqb_eq in Hall. now subst.
Qed.

Lemma hex4_value_UnicodeEscape (c : N) :
  (c < 65536)%N ->
  hex4_value (hex_char (c / 4096)) (hex_char ((c / 256) mod 16))
             (hex_char ((c / 16) mod 16)) (hex_char (c mod 16)) = Some c.
Proof.
  intros Hc. unfold hex4_value.
  rewrite !hex_value_hex_char.
  - f_equal.
    assert (E1 : (c / 16 / 16 = c / 256)%N) by (rewrite N.Div0.div_div; reflexivity).
    assert (E2 : (c / 256 / 16 = c / 4096)%N) by (rewrite N.Div0.div_div; reflexivity).
    pose proof (N.div_mod c 16 ltac:(lia)) as H1.
    pose proof (N.div_mod (c / 16) 16 ltac:(lia)) as H2.
    pose proof (N.div_mod (c / 256) 16 ltac:(lia)) as H3.
    rewrite E1 in H2. rewrite E2 in H3. lia.
  - apply N.mod_lt. lia.
  - apply N.mod_lt. lia.
  - apply N.mod_lt. lia.
  - apply N.Div0.div_lt_upper_bound; lia.
Qed.

Lemma parse_unicode_escape (c : N) (s : JsString) :
  (c < 65536)%N ->
  parse_string_units (UnicodeEscape c ++ s) = then_unit c (parse_string_units s).
Proof.
  intros Hc. unfold UnicodeEscape.
  change (parse_string_units
            ([92%N; 117%N; hex_char (c / 4096); hex_char ((c / 256) mod 16);
              hex_char ((c / 16) mod 16); hex_char (c mod 16)] ++ s))
    with (match hex4_value (hex_char (c / 4096)) (hex_char ((c / 256) mod 16))
                  (hex_char ((c / 16) mod 16)) (hex_char (c mod 16)) with
          | Some u => match parse_string_units s with
                      | Some (str, r) => Some (u :: str, r)
                      | None => None
                      end
          | None => None
          end).
  now rewrite (hex4_value_UnicodeEscape c Hc).
Qed.

Lemma parse_literal_unit (c : N) (s : JsString) :
  c <> 34%N -> c <> 92%N -> (32 <= c)%N ->
  parse_string_units (c :: s) = then_unit c (parse_string_units s).
Proof.
  intros H34 H92 H32. cbn [parse_string_units].
  destruct (N.eqb_spec c 34); [contradiction|].
  destruct (N.eqb_spec c 92); [contradiction|].
  destruct (N.ltb_spec c 32); [lia|]. reflexivity.
Qed.

Lemma parse_simple_escape (e u : N) (s : JsString) :
  e <> 117%N -> simple_escape e = Some u ->
  parse_string_units (92%N :: e :: s) = then_unit u (parse_string_units s).
Proof.
  intros H117 He.
  change (parse_string_units (92%N :: e :: s))
    with (if (e =? 117)%N then
            match s with
            | h1 :: h2 :: h3 :: h4 :: rest2 =>
                match hex4_value h1 h2 h3 h4 with
                | Some u =>
                    match parse_string_units rest2 with
                    | Some (str, r) => Some (u :: str, r)
                    | None => None
                    end
                | None => None
                end
            | _ => None
            end
          else
            match simple_escape e with
            | Some u =>
                match parse_string_units s with
                | Some (str, r) => Some (u :: str, r)
                | None => None
                end
            | None => None
            end).
  destruct (N.eqb_spec e 117); [contradiction|]. now rewrite He.
Qed.

Lemma parse_quote_unit (c : N) (s : JsString) :
  (c < 65536)%N ->
  parse_string_units (quote_unit c ++ s) = then_unit c (parse_string_units s).
Proof.
  intros Hc. unfold quote_unit.
  destruct (N.eqb_spec c 8) as [->|H8];
    [exact (parse_simple_escape 98 8 s ltac:(discriminate) eq_refl)|].
  destruct (N.eqb_spec c 9) as [->|H9];
    [exact (parse_simple_escape 116 9 s ltac:(discriminate) eq_refl)|].
  destruct (N.eqb_spec c 10) as [->|H10];
    [exact (parse_simple_escape 110 10 s ltac:(discriminate) eq_refl)|].
  destruct (N.eqb_spec c 12) as [->|H12];
    [exact (parse_simple_escape 102 12 s ltac:(discriminate) eq_refl)|].
  destruct (N.eqb_spec c 13) as [->|H13];
    [exact (parse_simple_escape 114 13 s ltac:(discriminate) eq_refl)|].
  destruct (N.eqb_spec c 34) as [->|H34];
    [exact (parse_simple_escape 34 34 s ltac:(discriminate) eq_refl)|].
  destruct (N.eqb_spec c 92) as [->|H92];
    [exact (parse_simple_escape 92 92 s ltac:(discriminate) eq_refl)|].
  destruct ((c <? 32)%N || is_trailing_surrogate c) eqn:Hesc.
  - now apply parse_unicode_escape.
  - apply orb_false_iff in Hesc as [Hlt _]. apply N.ltb_ge in Hlt.
    now apply parse_literal_unit.
Qed.

Lemma parse_string_units_quote_units (s : JsString) (rest : JsString) :
  wf_string s = true ->
  parse_string_units (quote_units s ++ 34%N :: rest) = Some (s, rest).
Proof.
  remember (List.length s) as n eqn:Hn.
  revert s Hn. induction n as [n IH] using lt_wf_ind. intros s Hn Hwf.
  destruct s as [|c s]; [reflexivity|].
  cbn [wf_string forallb] in Hwf. apply andb_true_iff in Hwf as [Hc Hwf].
  apply N.ltb_lt in Hc. cbn [quote_units].
  assert (Hs : parse_string_units (quote_units s ++ 34%N :: rest) = Some (s, rest)).
  { apply (IH (List.length s)); [subst n; simpl; lia | reflexivity | exact Hwf]. }
  destruct (is_leading_surrogate c) eqn:Hlead.
  - unfold is_leading_surrogate in Hlead. apply andb_true_iff in Hlead as [Hlo Hhi].
    apply N.leb_le in Hlo, Hhi.
    destruct s as [|d s'].
    + rewrite parse_unicode_escape by exact Hc. reflexivity.
    + destruct (is_trailing_surrogate d) eqn:Htrail.
      * cbn [wf_string forallb] in Hwf. apply andb_true_iff in Hwf as [Hd Hwf'].
        unfold is_trailing_surrogate in Htrail. apply andb_true_iff in Htrail as [Hlo' Hhi'].
        apply N.leb_le in Hlo', Hhi'.
        change ((c :: d :: quote_units s') ++ 34%N :: rest)
          with (c :: d :: (quote_units s' ++ 34%N :: rest)).
        rewrite parse_literal_unit by lia. rewrite parse_literal_unit by lia.
        rewrite (IH (List.length s')); [reflexivity | subst n; simpl; lia | reflexivity | exact Hwf'].
      * rewrite <- app_assoc, parse_unicode_escape by exact Hc. now rewrite Hs.
  - rewrite <- app_assoc, parse_quote_unit by exact Hc. now rewrite Hs.
Qed.

Lemma parse_QuoteJSONString (s : JsString) (rest : JsString) :
  wf_string s = true ->
  exists t, QuoteJSONString s ++ rest = 34%N :: t /\
            parse_string_units t = Some (s, rest).
Proof.
  intros Hwf. exists (quote_units s ++ 34%N :: rest). split.
  - unfold QuoteJSONString. simpl. now rewrite <- app_assoc.
  - now apply parse_string_units_quote_units.
Qed.

(** ** Values *)

Lemma parse_value_string_eq (f : nat) (t : JsString) :
  parse_value (S f) (34%N :: t) =
  match parse_string_units t with
  | Some (str, r) => Parsed (VString str) r
  | None => Invalid
  end.
Proof. reflexivity. Qed.

Lemma parse_value_array_eq (f : nat) (body : JsString) :
  parse_value (S f) (91%N :: body) =
  match skip_ws body with
  | [] => Invalid
  | d :: r =>
      if (d =? 93)%N then Parsed (VArray []) r
      else
        match parse_elements f (d :: r) with
        | Parsed vs r' => Parsed (VArray vs) r'
        | Invalid => Invalid
        | OutOfFuel => OutOfFuel
        end
  end.
Proof. reflexivity. Qed.

Lemma parse_value_object_eq (f : nat) (body : JsString) :
  parse_value (S f) (123%N :: body) =
  match skip_ws body with
  | [] => Invalid
  | d :: r =>
      if (d =? 125)%N then Parsed (VObject []) r
      else
        match parse_members f (d :: r) with
        | Parsed ps r' => Parsed (VObject ps) r'
        | Invalid => Invalid
        | OutOfFuel => OutOfFuel
        end
  end.
Proof. reflexivity. Qed.

Lemma parse_elements_eq (f : nat) (s : JsString) :
  parse_elements (S f) s =
  match parse_value f s with
  | Parsed v r =>
      match skip_ws r with
      | [] => Invalid
      | c :: r' =>
          if (c =? 44)%N then
            match parse_elements f r' with
            | Parsed vs r'' => Parsed (v :: vs) r''
            | Invalid => Invalid
            | OutOfFuel => OutOfFuel
            end
          else if (c =? 93)%N then Parsed [v] r'
          else Invalid
      end
  | Invalid => Invalid
  | OutOfFuel => OutOfFuel
  end.
Proof. reflexivity. Qed.

Lemma parse_members_eq (f : nat) (t : JsString) :
  parse_members (S f) (34%N :: t) =
  match parse_string_units t with
  | None => Invalid
  | Some (k, r1) =>
      match skip_ws r1 with
      | [] => Invalid
      | colon :: r2 =>
          if (colon =? 58)%N then
            match parse_value f r2 with
            | Parsed v r3 =>
                match skip_ws r3 with
                | [] => Invalid
                | c :: r4 =>
                    if (c =? 44)%N then
                      match parse_members f r4 with
                      | Parsed ps r5 => Parsed (define_member k v ps) r5
                      | Invalid => Invalid
                      | OutOfFuel => OutOfFuel
                      end
                    else if (c =? 125)%N then Parsed [(k, v)] r4
                    else Invalid
                end
            | Invalid => Invalid
            | OutOfFuel => OutOfFuel
            end
          else Invalid
      end
  end.
Proof. reflexivity. Qed.

Lemma parse_value_number_eq (f : nat) (c : N) (t : JsString) :
  is_digit c = true \/ c = 45%N ->
  parse_value (S f) (c :: t) =
  match parse_number (c :: t) with
  | Some (n, r) => Parsed (VNumber n) r
  | None => Invalid
  end.
Proof.
  intros Hc.
  assert (Hrange : c = 45%N \/ (48 <= c <= 57)%N).
  { destruct Hc as [Hd| ->]; [right|now left]. unfold is_digit in Hd.
    apply andb_true_iff in Hd as [H1 H2]. apply N.leb_le in H1, H2. lia. }
  cbn [parse_value skip_ws].
  assert (Hws : is_ws c = false).
  { unfold is_ws. rewrite !orb_false_iff, !N.eqb_neq. lia. }
  rewrite Hws.
  destruct (N.eqb_spec c 34); [lia|].
  destruct (N.eqb_spec c 91); [lia|].
  destruct (N.eqb_spec c 123); [lia|].
  assert (Hn : strip_prefix (js "null") (c :: t) = None).
  { change (js "null") with [110%N; 117%N; 108%N; 108%N]. cbn [strip_prefix].
    destruct (N.eqb_spec 110 c); [lia|reflexivity]. }
  assert (Ht : strip_prefix (js "true") (c :: t) = None).
  { change (js "true") with [116%N; 114%N; 117%N; 101%N]. cbn [strip_prefix].
    destruct (N.eqb_spec 116 c); [lia|reflexivity]. }
  assert (Hf : strip_prefix (js "false") (c :: t) = None).
  { change (js "false") with [102%N; 97%N; 108%N; 115%N; 101%N]. cbn [strip_prefix].
    destruct (N.eqb_spec 102 c); [lia|reflexivity]. }
  rewrite Hn, Ht, Hf. reflexivity.
Qed.

Lemma skip_ws_starts_value (s : JsString) :
  starts_value s = true -> skip_ws s = s.
Proof.
  destruct s as [|c s]; [discriminate|]. simpl.
  intros H. apply andb_true_iff in H as [H _]. apply andb_true_iff in H as [H _].
  apply negb_true_iff in H. now rewrite H.
Qed.

Lemma skip_ws_value_end (rest : JsString) :
  value_end rest = true -> skip_ws rest = rest.
Proof.
  destruct rest as [|c rest]; [reflexivity|]. unfold value_end. simpl.
  rewrite !orb_true_iff, !N.eqb_eq. intros [[->| ->]| ->]; reflexivity.
Qed.

Lemma json_text_starts_value (v : JsValue) (rest : JsString) :
  serializable v = true -> starts_value (json_text v ++ rest) = true.
Proof.
  destruct v as [| |b|n|z|s|elems|props]; try discriminate; intros Hser.
  - reflexivity.
  - now destruct b.
  - destruct (Number_toString_head n Hser) as (c & t & Hc & Hd).
    cbn [json_text]. rewrite Hc. simpl.
    assert (Hrange : c = 45%N \/ (48 <= c <= 57)%N).
    { destruct Hd as [Hd| ->]; [right|now left]. unfold is_digit in Hd.
      apply andb_true_iff in Hd as [H1 H2]. apply N.leb_le in H1, H2. lia. }
    unfold is_ws.
    rewrite !andb_true_iff, !negb_true_iff, !orb_false_iff, !N.eqb_neq. lia.
  - reflexivity.
  - reflexivity.
  - reflexivity.
Qed.

Lemma find_property_fresh (k : JsString) (ps : list (JsString * JsValue)) :
  ~ In k (List.map fst ps) -> find_property k ps = None.
Proof.
  induction ps as [|[k' v] ps IH]; [reflexivity|]. simpl. intros Hnot.
  destruct (decide (k' = k)) as [->|Hne]; [tauto|]. apply IH. tauto.
Qed.

Lemma parse_elements_text (l : list JsValue) :
  l <> [] ->
  Forall reads_back l ->
  forallb serializable l = true ->
  forall (f : nat) (rest : JsString),
    need_elems l <= f ->
    parse_elements f (join_comma (List.map json_text l) ++ 93%N :: rest) = Parsed l rest.
Proof.
  induction l as [|x xs IH]; [congruence|].
  intros _ Hall Hser f rest Hf.
  apply Forall_cons in Hall as [Hx Hxs].
  cbn [forallb] in Hser. apply andb_true_iff in Hser as [Hsx Hsxs].
  cbn [need_elems] in Hf. fold need_elems in Hf.
  destruct f as [|f]; [lia|].
  rewrite parse_elements_eq. cbn [List.map].
  destruct xs as [|y ys].
  - cbn [List.map join_comma].
    rewrite (Hx Hsx f (93%N :: rest)) by (try reflexivity; lia).
    reflexivity.
  - change (join_comma (json_text x :: List.map json_text (y :: ys)))
      with (json_text x ++ 44%N :: join_comma (List.map json_text (y :: ys))).
    rewrite <- app_assoc. cbn [app].
    rewrite (Hx Hsx f) by (try reflexivity; lia).
    rewrite (skip_ws_value_end (44%N :: _)) by reflexivity.
    change ((44 =? 44)%N) with true. cbv iota.
    rewrite (IH ltac:(discriminate) Hxs Hsxs f rest) by lia.
    reflexivity.
Qed.

Lemma parse_members_text (ps : list (JsString * JsValue)) :
  ps <> [] ->
  Forall (fun kv => reads_back (snd kv)) ps ->
  forallb (fun kv => let '(k, x) := kv in wf_string k && serializable x) ps = true ->
  NoDup (List.map fst ps) ->
  forall (f : nat) (rest : JsString),
    need_members ps <= f ->
    parse_members f (join_comma (List.map member_text ps) ++ 125%N :: rest) = Parsed ps rest.
Proof.
  induction ps as [|[k x] ps IH]; [congruence|].
  intros _ Hall Hser Hnodup f rest Hf.
  apply Forall_cons in Hall as [Hx Hps]. cbn [snd] in Hx.
  cbn [forallb] in Hser. apply andb_true_iff in Hser as [Hkx Hsps].
  apply andb_true_iff in Hkx as [Hk Hsx].
  cbn [List.map fst] in Hnodup. apply NoDup_cons in Hnodup as [Hfresh Hnodup].
  cbn [need_members] in Hf. fold need_members in Hf.
  destruct f as [|f]; [lia|].
  assert (Hmember : forall tail,
    value_end tail = true ->
    parse_members (S f) (member_text (k, x) ++ tail) =
    match tail with
    | [] => Invalid
    | c :: r4 =>
        if (c =? 44)%N then
          match parse_members f r4 with
          | Parsed ps' r5 => Parsed (define_member k x ps') r5
          | Invalid => Invalid
          | OutOfFuel => OutOfFuel
          end
        else if (c =? 125)%N then Parsed [(k, x)] r4
        else Invalid
    end).
  { intros tail Htail. cbn [member_text].
    unfold QuoteJSONString. cbn [app]. rewrite parse_members_eq.
    rewrite <- !app_assoc. cbn [app].
    rewrite parse_string_units_quote_units by exact Hk.
    rewrite (skip_ws_starts_value (58%N :: _)) by reflexivity.
    change ((58 =? 58)%N) with true. cbv iota.
    rewrite (Hx Hsx f tail) by (try assumption; lia).
    now rewrite (skip_ws_value_end tail Htail). }
  cbn [List.map].
  destruct ps as [|kv ps'].
  - cbn [List.map join_comma]. rewrite Hmember by reflexivity. reflexivity.
  - change (join_comma (member_text (k, x) :: List.map member_text (kv :: ps')))
      with (member_text (k, x) ++ 44%N :: join_comma (List.map member_text (kv :: ps'))).
    rewrite <- app_assoc. cbn [app]. rewrite Hmember by reflexivity.
    change ((44 =? 44)%N) with true. cbv iota.
    rewrite (IH ltac:(discriminate) Hps Hsps Hnodup f rest) by lia.
    unfold define_member. rewrite find_property_fresh; [reflexivity|].
    intros Hin. apply Hfresh. now apply list_elem_of_In.
Qed.

Lemma reads_back_all (v : JsValue) : reads_back v.
Proof.
  induction v as [| |b|n|z|s|elems IH|props IH] using JsValue_nested_ind;
    intros Hser f rest Hf Hrest; try discriminate.
  - destruct f as [|f]; [simpl in Hf; lia|]. reflexivity.
  - destruct f as [|f]; [simpl in Hf; lia|]. now destruct b.
  - destruct f as [|f]; [simpl in Hf; lia|].
    cbn [json_text].
    destruct (Number_toString_head n Hser) as (c & t & Hc & Hd).
    pose proof (parse_number_text n rest Hser Hrest) as Hnum.
    rewrite Hc in *. cbn [app] in *.
    rewrite (parse_value_number_eq f c _ Hd). now rewrite Hnum.
  - destruct f as [|f]; [simpl in Hf; lia|].
    cbn [serializable] in Hser. cbn [json_text]. unfold QuoteJSONString.
    cbn [app]. rewrite parse_value_string_eq.
    rewrite <- app_assoc. cbn [app].
    now rewrite parse_string_units_quote_units.
  - destruct f as [|f]; [simpl in Hf; lia|].
    cbn [serializable] in Hser.
    change (need (VArray elems)) with (S (need_elems elems)) in Hf.
    cbn [json_text app]. rewrite parse_value_array_eq.
    rewrite <- app_assoc. cbn [app].
    destruct elems as [|x xs].
    + reflexivity.
    + assert (Hstart : starts_value
                (join_comma (List.map json_text (x :: xs)) ++ 93%N :: rest) = true).
      { cbn [List.map]. cbn [forallb] in Hser. apply andb_true_iff in Hser as [Hsx _].
        destruct xs as [|y ys].
        - cbn [List.map join_comma]. now apply json_text_starts_value.
        - change (join_comma (json_text x :: List.map json_text (y :: ys)))
            with (json_text x ++ 44%N :: join_comma (List.map json_text (y :: ys))).
          rewrite <- app_assoc. now apply json_text_starts_value. }
      rewrite (skip_ws_starts_value _ Hstart).
      pose proof (parse_elements_text (x :: xs) ltac:(discriminate) IH Hser f rest
                    ltac:(lia)) as Hparse.
      destruct (join_comma (List.map json_text (x :: xs)) ++ 93%N :: rest)
        as [|d r] eqn:Hbody; [discriminate|].
      cbn [starts_value] in Hstart.
      apply andb_true_iff in Hstart as [Hstart _].
      apply andb_true_iff in Hstart as [_ H93]. apply negb_true_iff in H93.
      rewrite H93, Hparse. reflexivity.
  - destruct f as [|f]; [simpl in Hf; lia|].
    cbn [serializable] in Hser. apply andb_true_iff in Hser as [Hser Hnodup].
    apply bool_decide_eq_true in Hnodup.
    change (need (VObject props)) with (S (need_members props)) in Hf.
    cbn [json_text app]. rewrite parse_value_object_eq.
    rewrite <- app_assoc. cbn [app].
    change (List.map (fun kv : JsString * JsValue =>
                        let '(k, x) := kv in QuoteJSONString k ++ 58%N :: json_text x) props)
      with (List.map member_text props).
    destruct props as [|[k x] ps].
    + reflexivity.
    + assert (Hstart : starts_value
                (join_comma (List.map member_text ((k, x) :: ps)) ++ 125%N :: rest) = true).
      { cbn [List.map]. destruct ps as [|kv ps']; reflexivity. }
      rewrite (skip_ws_starts_value _ Hstart).
      pose proof (parse_members_text ((k, x) :: ps) ltac:(discriminate) IH Hser Hnodup f rest
                    ltac:(lia)) as Hparse.
      destruct (join_comma (List.map member_text ((k, x) :: ps)) ++ 125%N :: rest)
        as [|d r] eqn:Hbody; [discriminate|].
      cbn [starts_value] in Hstart.
      apply andb_true_iff in Hstart as [_ H125]. apply negb_true_iff in H125.
      rewrite H125, Hparse. reflexivity.
Qed.

Lemma SerializeJSONProperty_json_text (v : JsValue) :
  serializable v = true ->
  SerializeJSONProperty v = Normal (Some (json_text v)).
Proof.
  induction v as [| |b|n|z|s|elems IH|props IH] using JsValue_nested_ind;
    intros Hser; try discriminate; try reflexivity.
  - now destruct b.
  - destruct n; try discriminate; reflexivity.
  - cbn [serializable] in Hser. cbn [SerializeJSONProperty json_text].
    assert (Hparts :
      (fix SerializeJSONArray (l : list JsValue) : Completion (list JsString) :=
         match l with
         | [] => Normal []
         | x :: l' =>
             let* sx := SerializeJSONProperty x in
             let* more := SerializeJSONArray l' in
             Normal (match sx with Some t => t | None => js "null" end :: more)
         end) elems = Normal (List.map json_text elems)).
    { induction elems as [|x xs IHxs]; [reflexivity|].
      apply Forall_cons in IH as [Hx Hxs].
      cbn [forallb] in Hser. apply andb_true_iff in Hser as [Hsx Hsxs].
      rewrite (Hx Hsx). cbn [cbind]. rewrite (IHxs Hxs Hsxs). reflexivity. }
    rewrite Hparts. reflexivity.
  - cbn [serializable] in Hser. apply andb_true_iff in Hser as [Hser _].
    cbn [SerializeJSONProperty json_text].
    assert (Hparts :
      (fix SerializeJSONObject (l : list (JsString * JsValue)) : Completion (list JsString) :=
         match l with
         | [] => Normal []
         | (k, x) :: l' =>
             let* sx := SerializeJSONProperty x in
             let* more := SerializeJSONObject l' in
             Normal (match sx with
                     | Some t => (QuoteJSONString k ++ 58%N :: t) :: more
                     | None => more
                     end)
         end) props
      = Normal (List.map (fun kv : JsString * JsValue =>
                            let '(k, x) := kv in QuoteJSONString k ++ 58%N :: json_text x)
                         props)).
    { induction props as [|[k x] ps IHps]; [reflexivity|].
      apply Forall_cons in IH as [Hx Hps]. cbn [snd] in Hx.
      cbn [forallb] in Hser. apply andb_true_iff in Hser as [Hkx Hsps].
      apply andb_true_iff in Hkx as [_ Hsx].
      rewrite (Hx Hsx). cbn [cbind]. rewrite (IHps Hps Hsps). reflexivity. }
    rewrite Hparts. reflexivity.
Qed.

Lemma join_comma_length_cons2 (p q : JsString) (qs : list JsString) :
  List.length (join_comma (p :: q :: qs))
  = List.length p + 1 + List.length (join_comma (q :: qs)).
Proof.
  change (join_comma (p :: q :: qs)) with (p ++ 44%N :: join_comma (q :: qs)).
  rewrite length_app. cbn [List.length]. lia.
Qed.

Lemma need_bound (v : JsValue) : need v <= 2 * List.length (json_text v) + 1.
Proof.
  induction v as [| |b|n|z|s|elems IH|props IH] using JsValue_nested_ind;
    try (simpl; lia).
  - change (need (VArray elems)) with (S (need_elems elems)).
    cbn [json_text]. cbn [List.length]. rewrite length_app. cbn [List.length].
    assert (Hparts : need_elems elems
                     <= 2 * List.length (join_comma (List.map json_text elems)) + 2).
    { induction elems as [|x xs IHxs]; [simpl; lia|].
      apply Forall_cons in IH as [Hx Hxs]. specialize (IHxs Hxs).
      cbn [need_elems]. fold need_elems. cbn [List.map].
      destruct xs as [|y ys].
      - cbn [List.map join_comma need_elems]. lia.
      - cbn [List.map]. rewrite join_comma_length_cons2. cbn [List.map] in IHxs. lia. }
    lia.
  - change (need (VObject props)) with (S (need_members props)).
    cbn [json_text]. cbn [List.length]. rewrite length_app. cbn [List.length].
    change (List.map (fun kv : JsString * JsValue =>
                        let '(k, x) := kv in QuoteJSONString k ++ 58%N :: json_text x) props)
      with (List.map member_text props).
    assert (Hparts : need_members props
                     <= 2 * List.length (join_comma (List.map member_text props)) + 2).
    { induction props as [|[k x] ps IHps]; [simpl; lia|].
      apply Forall_cons in IH as [Hx Hps]. cbn [snd] in Hx. specialize (IHps Hps).
      cbn [need_members]. fold need_members. cbn [List.map].
      assert (Hm : List.length (json_text x) < List.length (member_text (k, x))).
      { cbn [member_text]. rewrite length_app. cbn [List.length]. lia. }
      destruct ps as [|kv ps'].
      - cbn [List.map join_comma need_members]. lia.
      - cbn [List.map]. rewrite join_comma_length_cons2. cbn [List.map] in IHps. lia. }
    lia.
Qed.

(** [JSON.parse(JSON.stringify(v))] is [v] for a serializable [v]. *)
Lemma JSON_parse_stringify (v : JsValue) :
  serializable v = true ->
  JSON_stringify v = Normal (Some (json_text v)) /\
  JSON_parse (json_text v) = Normal v.
Proof.
  intros Hser. split; [now apply SerializeJSONProperty_json_text|].
  unfold JSON_parse, parse_fuel.
  pose proof (reads_back_all v Hser (2 * List.length (json_text v) + 2) []) as Hrb.
  rewrite app_nil_r in Hrb. rewrite Hrb; [reflexivity| |reflexivity].
  pose proof (need_bound v). lia.
Qed.

(** ** The fuel of [JSON_parse] never runs out *)

Lemma skip_ws_length (s : JsString) : List.length (skip_ws s) <= List.length s.
Proof.
  induction s as [|c s IH]; [reflexivity|]. simpl.
  destruct (is_ws c); simpl; lia.
Qed.

Lemma skip_ws_cons_length (s : JsString) (c : N) (r : JsString) :
  skip_ws s = c :: r -> List.length r < List.length s.
Proof.
  intros H. pose proof (skip_ws_length s) as Hl. rewrite H in Hl. simpl in Hl. lia.
Qed.

Lemma strip_prefix_length (p s r : JsString) :
  strip_prefix p s = Some r -> List.length r + List.length p = List.length s.
Proof.
  revert s. induction p as [|a p IH]; intros s H.
  - injection H as ->. simpl. lia.
  - destruct s as [|b s]; [discriminate|]. simpl in H.
    destruct (a =? b)%N; [|discriminate]. apply IH in H. simpl. lia.
Qed.

Lemma parse_string_units_length (s str r : JsString) :
  parse_string_units s = Some (str, r) -> List.length r < List.length s.
Proof.
  remember (List.length s) as n eqn:Hn.
  revert s str r Hn. induction n as [n IH] using lt_wf_ind. intros s str r Hn H.
  destruct s as [|c s]; [discriminate|]. cbn [parse_string_units] in H.
  destruct (c =? 34)%N.
  { injection H as _ <-. subst n. simpl. lia. }
  destruct (c =? 92)%N.
  - destruct s as [|e s1]; [discriminate|].
    destruct (e =? 117)%N.
    + destruct s1 as [|h1 [|h2 [|h3 [|h4 s2]]]]; try discriminate.
      destruct (hex4_value h1 h2 h3 h4); [|discriminate].
      destruct (parse_string_units s2) as [[str' r']|] eqn:H2; [|discriminate].
      injection H as _ <-.
      apply (IH (List.length s2)) in H2; [|subst n; simpl; lia|reflexivity].
      subst n. simpl. lia.
    + destruct (simple_escape e); [|discriminate].
      destruct (parse_string_units s1) as [[str' r']|] eqn:H1; [|discriminate].
      injection H as _ <-.
      apply (IH (List.length s1)) in H1; [|subst n; simpl; lia|reflexivity].
      subst n. simpl. lia.
  - destruct (c <? 32)%N; [discriminate|].
    destruct (parse_string_units s) as [[str' r']|] eqn:H1; [|discriminate].
    injection H as _ <-.
    apply (IH (List.length s)) in H1; [|subst n; simpl; lia|reflexivity].
    subst n. simpl. lia.
Qed.

Lemma read_digits_length (s : JsString) :
  List.length (snd (read_digits s)) <= List.length s /\
  (fst (read_digits s) <> Nil -> List.length (snd (read_digits s)) < List.length s).
Proof.
  induction s as [|c s [IH1 IH2]]; simpl.
  - split; [lia|congruence].
  - destruct (is_digit c); [|simpl; split; [lia|congruence]].
    destruct (read_digits s) as [d r]. simpl in *. split; lia.
Qed.

Lemma parse_number_length (s : JsString) (n : JsNumber) (r : JsString) :
  parse_number s = Some (n, r) -> List.length r < List.length s.
Proof.
  unfold parse_number.
  assert (H1 : List.length (snd (parse_minus s)) <= List.length s).
  { unfold parse_minus. destruct s as [|c s]; [simpl; lia|].
    destruct (c =? 45)%N; simpl; lia. }
  destruct (parse_minus s) as [negative s1]. cbn [snd] in H1.
  assert (H2 : forall d s2, parse_int_digits s1 = Some (d, s2) ->
                             List.length s2 < List.length s1).
  { unfold parse_int_digits. intros d s2.
    pose proof (read_digits_length s1) as [_ Hlt].
    destruct (read_digits s1) as [d1 r1]. cbn [fst snd] in Hlt.
    destruct (int_part_ok d1) eqn:Hok; [|discriminate].
    intros [= <- <-]. apply Hlt. intros ->. discriminate. }
  destruct (parse_int_digits s1) as [[int_part s2]|]; [|discriminate].
  specialize (H2 _ _ eq_refl).
  assert (H3 : forall d s3, parse_fraction s2 = Some (d, s3) ->
                             List.length s3 <= List.length s2).
  { unfold parse_fraction. intros d s3. destruct s2 as [|c s2]; [intros [= <- <-]; lia|].
    destruct (c =? 46)%N; [|intros [= <- <-]; lia].
    pose proof (read_digits_length s2) as [Hle _].
    destruct (read_digits s2) as [d1 r1]. cbn [snd] in Hle.
    destruct d1; try discriminate; intros [= <- <-]; simpl; lia. }
  destruct (parse_fraction s2) as [[frac_part s3]|]; [|discriminate].
  specialize (H3 _ _ eq_refl).
  assert (H4 : forall ex s4, parse_exponent s3 = Some (ex, s4) ->
                              List.length s4 <= List.length s3).
  { unfold parse_exponent. intros ex s4. destruct s3 as [|c s3]; [intros [= <- <-]; lia|].
    destruct ((c =? 101)%N || (c =? 69)%N); [|intros [= <- <-]; lia].
    assert (Hs : List.length (snd (parse_exponent_sign s3)) <= List.length s3).
    { unfold parse_exponent_sign. destruct s3 as [|d s3]; [simpl; lia|].
      destruct (d =? 45)%N; [simpl; lia|]. destruct (d =? 43)%N; simpl; lia. }
    destruct (parse_exponent_sign s3) as [neg' r0]. cbn [snd] in Hs.
    pose proof (read_digits_length r0) as [Hle _].
    destruct (read_digits r0) as [d1 r1]. cbn [snd] in Hle.
    destruct d1; try discriminate; intros [= <- <-]; simpl; lia. }
  destruct (parse_exponent s3) as [[ex s4]|]; [|discriminate].
  specialize (H4 _ _ eq_refl).
  intros [= _ <-]. lia.
Qed.

Lemma parse_consumes (f : nat) :
  (forall s v r, parse_value f s = Parsed v r -> List.length r < List.length s) /\
  (forall s vs r, parse_elements f s = Parsed vs r -> List.length r < List.length s) /\
  (forall s ps r, parse_members f s = Parsed ps r -> List.length r < List.length s).
Proof.
  induction f as [|f (IHv & IHe & IHm)]; [repeat split; discriminate|].
  split; [|split].
  - intros s v r. cbn [parse_value].
    destruct (skip_ws s) as [|c rest] eqn:Hs; [discriminate|].
    apply skip_ws_cons_length in Hs.
    destruct (c =? 34)%N.
    { destruct (parse_string_units rest) as [[str r0]|] eqn:Hp; [|discriminate].
      apply parse_string_units_length in Hp. intros [= _ <-]. lia. }
    destruct (c =? 91)%N.
    { destruct (skip_ws rest) as [|d r0] eqn:Hr; [discriminate|].
      pose proof (skip_ws_cons_length _ _ _ Hr) as Hr'.
      destruct (d =? 93)%N; [intros [= _ <-]; lia|].
      destruct (parse_elements f (d :: r0)) as [vs r1| |] eqn:He; try discriminate.
      apply IHe in He. simpl in He. intros [= _ <-]. lia. }
    destruct (c =? 123)%N.
    { destruct (skip_ws rest) as [|d r0] eqn:Hr; [discriminate|].
      pose proof (skip_ws_cons_length _ _ _ Hr) as Hr'.
      destruct (d =? 125)%N; [intros [= _ <-]; lia|].
      destruct (parse_members f (d :: r0)) as [ps r1| |] eqn:He; try discriminate.
      apply IHm in He. simpl in He. intros [= _ <-]. lia. }
    destruct (strip_prefix (js "null") (c :: rest)) as [r0|] eqn:Hn.
    { apply strip_prefix_length in Hn. simpl in Hn. intros [= _ <-]. lia. }
    destruct (strip_prefix (js "true") (c :: rest)) as [r0|] eqn:Ht.
    { apply strip_prefix_length in Ht. simpl in Ht. intros [= _ <-]. lia. }
    destruct (strip_prefix (js "false") (c :: rest)) as [r0|] eqn:Hf.
    { apply strip_prefix_length in Hf. simpl in Hf. intros [= _ <-]. lia. }
    destruct (parse_number (c :: rest)) as [[n r0]|] eqn:Hnum; [|discriminate].
    apply parse_number_length in Hnum. simpl in Hnum. intros [= _ <-]. lia.
  - intros s vs r. rewrite parse_elements_eq.
    destruct (parse_value f s) as [v r0| |] eqn:Hv; try discriminate.
    apply IHv in Hv.
    destruct (skip_ws r0) as [|c r1] eqn:Hr; [discriminate|].
    apply skip_ws_cons_length in Hr.
    destruct (c =? 44)%N.
    { destruct (parse_elements f r1) as [vs' r2| |] eqn:He; try discriminate.
      apply IHe in He. intros [= _ <-]. lia. }
    destruct (c =? 93)%N; [|discriminate]. intros [= _ <-]. lia.
  - intros s ps r. cbn [parse_members].
    destruct (skip_ws s) as [|q r0] eqn:Hs; [discriminate|].
    apply skip_ws_cons_length in Hs.
    destruct (q =? 34)%N; [|discriminate].
    destruct (parse_string_units r0) as [[k r1]|] eqn:Hk; [|discriminate].
    apply parse_string_units_length in Hk.
    destruct (skip_ws r1) as [|colon r2] eqn:Hc; [discriminate|].
    apply skip_ws_cons_length in Hc.
    destruct (colon =? 58)%N; [|discriminate].
    destruct (parse_value f r2) as [v r3| |] eqn:Hv; try discriminate.
    apply IHv in Hv.
    destruct (skip_ws r3) as [|c r4] eqn:Hr; [discriminate|].
    apply skip_ws_cons_length in Hr.
    destruct (c =? 44)%N.
    { destruct (parse_members f r4) as [ps' r5| |] eqn:Hm; try discriminate.
      apply IHm in Hm. intros [= _ <-]. lia. }
    destruct (c =? 125)%N; [|discriminate]. intros [= _ <-]. lia.
Qed.

Lemma parse_fuel_enough (f : nat) :
  (forall s, 2 * List.length s + 1 <= f -> parse_value f s <> OutOfFuel) /\
  (forall s, 2 * List.length s + 2 <= f -> parse_elements f s <> OutOfFuel) /\
  (forall s, 2 * List.length s + 2 <= f -> parse_members f s <> OutOfFuel).
Proof.
  induction f as [|f (IHv & IHe & IHm)]; [repeat split; intros s Hs; lia|].
  destruct (parse_consumes f) as (Cv & Ce & Cm).
  split; [|split].
  - intros s Hf. cbn [parse_value].
    destruct (skip_ws s) as [|c rest] eqn:Hs; [discriminate|].
    apply skip_ws_cons_length in Hs.
    destruct (c =? 34)%N.
    { destruct (parse_string_units rest) as [[str r0]|]; discriminate. }
    destruct (c =? 91)%N.
    { destruct (skip_ws rest) as [|d r0] eqn:Hr; [discriminate|].
      pose proof (skip_ws_cons_length _ _ _ Hr) as Hr'.
      destruct (d =? 93)%N; [discriminate|].
      destruct (parse_elements f (d :: r0)) as [vs r1| |] eqn:He; try discriminate.
      exfalso. apply (IHe (d :: r0)); [simpl; lia|exact He]. }
    destruct (c =? 123)%N.
    { destruct (skip_ws rest) as [|d r0] eqn:Hr; [discriminate|].
      pose proof (skip_ws_cons_length _ _ _ Hr) as Hr'.
      destruct (d =? 125)%N; [discriminate|].
      destruct (parse_members f (d :: r0)) as [ps r1| |] eqn:He; try discriminate.
      exfalso. apply (IHm (d :: r0)); [simpl; lia|exact He]. }
    destruct (strip_prefix (js "null") (c :: rest)); [discriminate|].
    destruct (strip_prefix (js "true") (c :: rest)); [discriminate|].
    destruct (strip_prefix (js "false") (c :: rest)); [discriminate|].
    destruct (parse_number (c :: rest)) as [[n r0]|]; discriminate.
  - intros s Hf. rewrite parse_elements_eq.
    destruct (parse_value f s) as [v r0| |] eqn:Hv; try discriminate.
    + apply Cv in Hv.
      destruct (skip_ws r0) as [|c r1] eqn:Hr; [discriminate|].
      apply skip_ws_cons_length in Hr.
      destruct (c =? 44)%N.
      { destruct (parse_elements f r1) as [vs' r2| |] eqn:He; try discriminate.
        exfalso. apply (IHe r1); [lia|exact He]. }
      destruct (c =? 93)%N; discriminate.
    + exfalso. apply (IHv s); [lia|exact Hv].
  - intros s Hf. cbn [parse_members].
    destruct (skip_ws s) as [|q r0] eqn:Hs; [discriminate|].
    apply skip_ws_cons_length in Hs.
    destruct (q =? 34)%N; [|discriminate].
    destruct (parse_string_units r0) as [[k r1]|] eqn:Hk; [|discriminate].
    apply parse_string_units_length in Hk.
    destruct (skip_ws r1) as [|colon r2] eqn:Hc; [discriminate|].
    apply skip_ws_cons_length in Hc.
    destruct (colon =? 58)%N; [|discriminate].
    destruct (parse_value f r2) as [v r3| |] eqn:Hv; try discriminate.
    + apply Cv in Hv.
      destruct (skip_ws r3) as [|c r4] eqn:Hr; [discriminate|].
      apply skip_ws_cons_length in Hr.
      destruct (c =? 44)%N.
      { destruct (parse_members f r4) as [ps' r5| |] eqn:Hm; try discriminate.
        exfalso. apply (IHm r4); [lia|exact Hm]. }
      destruct (c =? 125)%N; discriminate.
    + exfalso. apply (IHv r2); [lia|exact Hv].
Qed.

(** [JSON_parse] throws only for a text that is not JSON: its fuel is
    enough for every text. *)
Lemma JSON_parse_fuel (text : JsString) :
  parse_value (parse_fuel text) text <> OutOfFuel.
Proof. apply parse_fuel_enough. unfold parse_fuel. lia. Qed.

(** ** The storage hooks *)

Lemma area_set_area (a : Area) (st : Storage) (pg : Page) : area a (set_area a st pg) = st.
Proof. now destruct a. Qed.

Lemma console_set_area (a : Area) (st : Storage) (pg : Page) :
  console (set_area a st pg) = console pg.
Proof. now destruct a. Qed.

Lemma getter_eq (a : Area) (key : JsString) (pg : Page) :
  getter a key pg =
  if denied (area a pg) then (Normal VUndefined, with_console pg [logged a SecurityError])
  else
    match items (area a pg) !! key with
    | None => (Normal VUndefined, pg)
    | Some text =>
        match JSON_parse text with
        | Normal v => (Normal v, pg)
        | Throw e => (Normal VUndefined, with_console pg [logged a e])
        end
    end.
Proof.
  destruct a; unfold getter, storage_hook, useLocalStorage, useSessionStorage,
    getItem, getSessionStorageItem, try_catch, bind, window_localStorage,
    window_sessionStorage, window_storage, Storage_getItem, lift, ret; cbv beta iota zeta delta [fst snd area].
  - destruct (denied _); [reflexivity|].
    destruct (items _ !! key) as [text|]; [|reflexivity].
    destruct (JSON_parse text); reflexivity.
  - destruct (denied _); [reflexivity|].
    destruct (items _ !! key) as [text|]; [|reflexivity].
    destruct (JSON_parse text); reflexivity.
Qed.

Lemma setter_eq (a : Area) (key : JsString) (v : JsValue) (pg : Page) :
  setter a key v pg =
  if denied (area a pg) then (Normal tt, with_console pg [logged a SecurityError])
  else
    match JSON_stringify v with
    | Throw e => (Normal tt, with_console pg [logged a e])
    | Normal text =>
        if Storage_fits key (ToString text) (area a pg) then
          (Normal tt,
           set_area a {| items := <[key := ToString text]> (items (area a pg));
                         quota := quota (area a pg); denied := denied (area a pg) |} pg)
        else (Normal tt, with_console pg [logged a QuotaExceededError])
    end.
Proof.
  destruct a; unfold setter, storage_hook, useLocalStorage, useSessionStorage,
    setItem, setSessionStorageItem, try_catch, bind, window_localStorage,
    window_sessionStorage, window_storage, Storage_setItem, lift; cbv beta iota zeta delta [fst snd area].
  - destruct (denied (localStorage pg)) eqn:Hd; [reflexivity|].
    destruct (JSON_stringify v) as [text|e]; [|reflexivity].
    cbv beta iota zeta. rewrite ?Hd.
    destruct (Storage_fits key (ToString text) _); reflexivity.
  - destruct (denied (sessionStorage pg)) eqn:Hd; [reflexivity|].
    destruct (JSON_stringify v) as [text|e]; [|reflexivity].
    cbv beta iota zeta. rewrite ?Hd.
    destruct (Storage_fits key (ToString text) _); reflexivity.
Qed.

Lemma remover_eq (a : Area) (key : JsString) (pg : Page) :
  remover a key pg =
  if denied (area a pg) then (Normal tt, with_console pg [logged a SecurityError])
  else
    (Normal tt,
     set_area a {| items := delete key (items (area a pg));
                   quota := quota (area a pg); denied := denied (area a pg) |} pg).
Proof.
  destruct a; unfold remover, storage_hook, useLocalStorage, useSessionStorage,
    removeItem, removeSessionStorageItem, try_catch, bind, window_localStorage,
    window_sessionStorage, window_storage, Storage_removeItem; cbv beta iota zeta delta [fst snd area].
  - destruct (denied (localStorage pg)) eqn:Hd; [reflexivity|].
    cbv beta iota zeta. now rewrite ?Hd.
  - destruct (denied (sessionStorage pg)) eqn:Hd; [reflexivity|].
    cbv beta iota zeta. now rewrite ?Hd.
Qed.

(** C7. For either hook, any key and any serializable value (null, a
    boolean, a finite number other than [-0], a string, an array or an
    object of such values): when the page may use the storage area and the
    text fits its quota, the setter stores the value, the getter then
    returns a value equal to it, and after the remover the getter returns
    [undefined]; none of the calls throws or logs. *)
Theorem C7_storage_round_trip (a : Area) (key : JsString) (v : JsValue) (pg : Page) :
  serializable v = true ->
  denied (area a pg) = false ->
  Storage_fits key (json_text v) (area a pg) = true ->
  exists pg1 pg2,
    setter a key v pg = (Normal tt, pg1) /\
    getter a key pg1 = (Normal v, pg1) /\
    remover a key pg1 = (Normal tt, pg2) /\
    getter a key pg2 = (Normal VUndefined, pg2) /\
    console pg2 = console pg.
Proof.
  intros Hser Hden Hfits.
  destruct (JSON_parse_stringify v Hser) as [Hstr Hparse].
  do 2 eexists. split.
  { rewrite setter_eq, Hden, Hstr. cbn [ToString]. rewrite Hfits. reflexivity. }
  split.
  { rewrite getter_eq, area_set_area. cbn [denied items]. rewrite ?Hden.
    rewrite lookup_insert_eq, Hparse. reflexivity. }
  split.
  { rewrite remover_eq, area_set_area. cbn [denied items quota]. rewrite ?Hden. reflexivity. }
  split.
  { rewrite getter_eq, area_set_area. cbn [denied items]. rewrite ?Hden.
    now rewrite lookup_delete_eq. }
  now rewrite !console_set_area.
Qed.

Lemma C7_storage_round_trip_witness :
  exists pg1 pg2,
    setter SessionArea (js "test-key-object")
      (VObject [(js "name", VString (js "test-value"))]) (empty_page 1000)
    = (Normal tt, pg1) /\
    getter SessionArea (js "test-key-object") pg1
    = (Normal (VObject [(js "name", VString (js "test-value"))]), pg1) /\
    remover SessionArea (js "test-key-object") pg1 = (Normal tt, pg2) /\
    getter SessionArea (js "test-key-object") pg2 = (Normal VUndefined, pg2) /\
    console pg2 = console (empty_page 1000).
Proof.
  exact (C7_storage_round_trip SessionArea (js "test-key-object")
           (VObject [(js "name", VString (js "test-value"))]) (empty_page 1000)
           eq_refl eq_refl eq_refl).
Defined.

(** C8. For either hook, any key and any page: no call throws.  The getter
    returns [undefined] when the key has no entry (nothing is logged), when
    the stored text is not JSON (the error is logged) and when the page may
    not use the storage (the error is logged): the returned value is the
    same in all three cases.  The setter and the remover either update the
    area and log nothing, or leave the page as it was and log the error. *)
Theorem C8_storage_errors_are_logged_not_thrown (a : Area) (key : JsString) (pg : Page) :
  (exists r pg', getter a key pg = (Normal r, pg')) /\
  (denied (area a pg) = false -> items (area a pg) !! key = None ->
   getter a key pg = (Normal VUndefined, pg)) /\
  (forall text e,
     denied (area a pg) = false -> items (area a pg) !! key = Some text ->
     JSON_parse text = Throw e ->
     getter a key pg = (Normal VUndefined, with_console pg [logged a e])) /\
  (denied (area a pg) = true ->
   getter a key pg = (Normal VUndefined, with_console pg [logged a SecurityError])) /\
  (forall v, exists pg',
     setter a key v pg = (Normal tt, pg') /\
     ((exists text, JSON_stringify v = Normal text /\
                    items (area a pg') = <[key := ToString text]> (items (area a pg)) /\
                    console pg' = console pg) \/
      (exists e, pg' = with_console pg [logged a e]))) /\
  (exists pg',
     remover a key pg = (Normal tt, pg') /\
     ((items (area a pg') = delete key (items (area a pg)) /\ console pg' = console pg) \/
      pg' = with_console pg [logged a SecurityError])).
Proof.
  split; [|split; [|split; [|split; [|split]]]].
  - rewrite getter_eq. destruct (denied (area a pg)); [eauto|].
    destruct (items (area a pg) !! key) as [text|]; [|eauto].
    destruct (JSON_parse text); eauto.
  - intros Hden Hnone. now rewrite getter_eq, Hden, Hnone.
  - intros text e Hden Hsome Hparse. now rewrite getter_eq, Hden, Hsome, Hparse.
  - intros Hden. now rewrite getter_eq, Hden.
  - intros v. rewrite setter_eq. destruct (denied (area a pg)) eqn:Hden; [eauto|].
    destruct (JSON_stringify v) as [text|e] eqn:Hstr; [|eauto].
    destruct (Storage_fits key (ToString text) (area a pg)); [|eauto].
    eexists. split; [reflexivity|]. left. exists text.
    rewrite area_set_area, console_set_area. auto.
  - rewrite remover_eq. destruct (denied (area a pg)) eqn:Hden; [eauto|].
    eexists. split; [reflexivity|]. left.
    rewrite area_set_area, console_set_area. auto.
Qed.

(** The repository's tests, on the model. *)
Example session_storage_string_test :
  let '(getString, setString, removeString) := useSessionStorage (js "test-key-string") in
  let pg1 := snd (setString (VString (js "test-value")) (empty_page 100)) in
  fst (getString pg1) = Normal (VString (js "test-value")) /\
  fst (getString (snd (removeString pg1))) = Normal VUndefined.
Proof. vm_compute. split; reflexivity. Qed.

Example local_storage_array_test :
  let '(getItem', setItem', removeItem') := useLocalStorage (js "test-key-array") in
  let value := VArray [VString (js "test-value-1"); VString (js "test-value-2")] in
  let pg1 := snd (setItem' value (empty_page 100)) in
  fst (getItem' pg1) = Normal value /\
  fst (getItem' (snd (removeItem' pg1))) = Normal VUndefined.
Proof. vm_compute. split; reflexivity. Qed.

Example local_storage_fraction_test :
  let '(getItem', setItem', removeItem') := useLocalStorage (js "ratio") in
  let value := VArray [VNumber (Fraction (-15) (-8)); VNumber (Fraction 31415 (-4))] in
  let pg1 := snd (setItem' value (empty_page 100)) in
  items (localStorage pg1) !! js "ratio" = Some (js "[-1.5e-7,3.1415]") /\
  fst (getItem' pg1) = Normal value.
Proof. vm_compute. split; reflexivity. Qed.

Example set_undefined_sample :
  let pg1 := snd (setItem (js "k") VUndefined (empty_page 100)) in
  items (localStorage pg1) !! js "k" = Some (js "undefined") /\
  getItem (js "k") pg1 = (Normal VUndefined, with_console pg1 [ConsoleLog SyntaxError]).
Proof. vm_compute. split; reflexivity. Qed.

Example quota_exceeded_sample :
  setSessionStorageItem (js "k") (VString (js "a long value")) (empty_page 5)
  = (Normal tt, with_console (empty_page 5) [ConsoleError QuotaExceededError]).
Proof. vm_compute. reflexivity. Qed.

Lemma C8_storage_errors_are_logged_not_thrown_witness :
  getter LocalArea (js "token")
    {| localStorage := {| items := {[ js "token" := js "undefined" ]}; quota := 100;
                          denied := false |};
       sessionStorage := {| items := ∅; quota := 100; denied := false |};
       console := [] |}
  = (Normal VUndefined,
     {| localStorage := {| items := {[ js "token" := js "undefined" ]}; quota := 100;
                           denied := false |};
        sessionStorage := {| items := ∅; quota := 100; denied := false |};
        console := [ConsoleLog SyntaxError] |}) /\
  getter SessionArea (js "count") (empty_page 100) = (Normal VUndefined, empty_page 100).
Proof.
  split.
  - exact (proj1 (proj2 (proj2 (C8_storage_errors_are_logged_not_thrown LocalArea (js "token")
             {| localStorage := {| items := {[ js "token" := js "undefined" ]}; quota := 100;
                                   denied := false |};
                sessionStorage := {| items := ∅; quota := 100; denied := false |};
                console := [] |})))
           (js "undefined") SyntaxError eq_refl eq_refl eq_refl).
  - exact (proj1 (proj2 (C8_storage_errors_are_logged_not_thrown SessionArea (js "count")
             (empty_page 100))) eq_refl eq_refl).
Defined.

(** ** The listener list of a mounted hook *)

Lemma same_listener_self (r : Registration) :
  same_listener (r_target r) (r_type r) (r_callback r) (r_capture r) r = true.
Proof.
  unfold same_listener. rewrite Target_eqb_refl, String.eqb_refl, Listener_eqb_refl.
  now destruct (r_capture r).
Qed.

Lemma dispatchEvent_empty (t : Target) (ev : Event) (h : Hook) (w : World) :
  registry w = [] -> dispatchEvent t ev h w = w.
Proof. intros Hr. unfold dispatchEvent. now rewrite Hr. Qed.

Lemma dispatchEvent_single (t : Target) (ev : Event) (h : Hook) (w : World)
    (r : Registration) :
  registry w = [r] ->
  dispatchEvent t ev h w =
  if Target_eqb (r_target r) t && String.eqb (r_type r) (ev_type ev)
  then call_listener h ev (if r_once r then drop_registration r w else w)
  else w.
Proof.
  intros Hr. unfold dispatchEvent. rewrite Hr. cbn [List.filter].
  destruct (Target_eqb (r_target r) t && String.eqb (r_type r) (ev_type ev)); [|reflexivity].
  cbn [fold_left]. unfold inner_invoke, is_registered. rewrite Hr. cbn [existsb].
  now rewrite same_listener_self.
Qed.

Lemma registry_after_delivery (h : Hook) (ev : Event) (w : World) (r : Registration) :
  registry w = [r] ->
  registry (call_listener h ev (if r_once r then drop_registration r w else w))
  = if r_once r then [] else [r].
Proof.
  intros Hr. destruct (r_once r); cbn [call_listener drop_registration registry].
  - rewrite Hr. cbn [List.filter]. now rewrite same_listener_self.
  - exact Hr.
Qed.

Lemma bind_effect_shape (p : Props) (w : World) (d : option Cleanup) (w2 : World) :
  registry w = [] ->
  bind_effect p w = Normal (d, w2) ->
  registry w2 = match d with Some c => [registration_of c] | None => [] end.
Proof.
  intros Hreg Hb.
  destruct (has_addEventListener (resolve_target (element p) w)) eqn:Hcap.
  - rewrite (bind_effect_capable p w Hcap) in Hb. injection Hb as <- <-.
    cbn [registry]. rewrite Hreg. reflexivity.
  - rewrite (bind_effect_legacy p w Hcap) in Hb. injection Hb as <- <-. exact Hreg.
Qed.

Lemma registry_shape_of_bind (d : option Cleanup) (sv dh : Handler) (db : Deps) (w : World) :
  registry w = match d with Some c => [registration_of c] | None => [] end ->
  registry_shape {| savedHandler := sv; deps_handler := dh; deps_binding := db;
                    destroy := d |} w.
Proof. unfold registry_shape. cbn [destroy]. destruct d; auto. Qed.

Lemma mount_shape (p : Props) (rs : gmap nat Target) (h : Hook) (w : World) :
  mount p (initial_world rs) = Normal (h, w) -> registry_shape h w.
Proof.
  rewrite mount_unfold. intros Hm.
  destruct (bind_effect p (initial_world rs)) as [[d w1]|e] eqn:Hb; [|discriminate].
  cbn [cbind] in Hm. injection Hm as <- <-.
  apply registry_shape_of_bind. now apply (bind_effect_shape p (initial_world rs)).
Qed.

Lemma update_shape (p : Props) (h : Hook) (w : World) (h' : Hook) (w' : World) :
  hook_inv h w -> registry_shape h w ->
  update p h w = Normal (h', w') -> registry_shape h' w'.
Proof.
  intros Hinv Hshape Hu.
  destruct (areHookInputsEqual (deps_binding h) (deps_of p)) eqn:Hdeps.
  - rewrite (update_same_deps p h w Hdeps) in Hu. injection Hu as <- <-. exact Hshape.
  - rewrite (update_changed_deps p h w Hdeps) in Hu.
    destruct (run_destroy_inv h w Hinv) as (w1 & Hd & Hreg1 & _). rewrite Hd in Hu.
    cbn [cbind] in Hu.
    destruct (bind_effect p w1) as [[d w2]|e] eqn:Hb; [|discriminate].
    cbn [cbind] in Hu. injection Hu as <- <-.
    apply registry_shape_of_bind. now apply (bind_effect_shape p w1).
Qed.

Lemma dispatchEvent_shape (t : Target) (ev : Event) (h : Hook) (w : World) :
  registry_shape h w -> registry_shape h (dispatchEvent t ev h w).
Proof.
  unfold registry_shape. destruct (destroy h) as [c|].
  - intros [Hr|[Honce Hr]].
    + rewrite (dispatchEvent_single t ev h w _ Hr).
      destruct (Target_eqb _ t && String.eqb _ (ev_type ev)); [|now left].
      rewrite (registry_after_delivery h ev w _ Hr).
      cbn [registration_of r_once].
      destruct (flatten_once (c_options c)); [now right | now left].
    + rewrite (dispatchEvent_empty t ev h w Hr). now right.
  - intros Hr. now rewrite (dispatchEvent_empty t ev h w Hr).
Qed.

(** ** Options objects that are not changed in place *)

Lemma same_fields_eq (a b : AddEventListenerOptions) : same_fields a b = true -> a = b.
Proof.
  unfold same_fields. destruct a as [i c o p], b as [i' c' o' p']. cbn [opt_id capture once passive].
  intros H. apply andb_prop in H as [H Hp]. apply andb_prop in H as [H Ho].
  apply andb_prop in H as [Hi Hc].
  apply Nat.eqb_eq in Hi. apply Bool.eqb_prop in Hc, Ho, Hp. now subst.
Qed.

Lemma same_fields_refl (a : AddEventListenerOptions) : same_fields a a = true.
Proof.
  unfold same_fields. rewrite Nat.eqb_refl.
  now destruct (capture a), (once a), (passive a).
Qed.

Lemma live_options_known (objs : gmap nat AddEventListenerOptions) (o : Options) :
  known objs o -> live_options objs o = o.
Proof.
  destruct o as [|b|r]; cbn [known live_options]; [reflexivity..|].
  intros ->. now destruct r.
Qed.

Lemma live_props_known (objs : gmap nat AddEventListenerOptions) (p : Props) :
  known objs (options p) -> live_props objs p = p.
Proof. intros Hk. unfold live_props. rewrite (live_options_known _ _ Hk). now destruct p. Qed.

Lemma live_hook_known (objs : gmap nat AddEventListenerOptions) (h : Hook) :
  known_hook objs h -> live_hook objs h = h.
Proof.
  unfold known_hook, live_hook. destruct h as [sv dh db [c|]]; cbn [destroy option_map];
    [|reflexivity].
  intros Hk. unfold live_cleanup. rewrite (live_options_known _ _ Hk). now destruct c.
Qed.

Lemma known_observe_self (objs : gmap nat AddEventListenerOptions) (o : Options) : known
    (observe o objs) o.
Proof. destruct o as [|b|r]; cbn [known observe]; [exact I..|]. apply lookup_insert_eq. Qed.

Lemma known_observe (objs : gmap nat AddEventListenerOptions) (o o' : Options) :
  as_before objs o' = true -> known objs o -> known (observe o' objs) o.
Proof.
  destruct o' as [|b'|r']; cbn [observe]; [auto..|].
  destruct o as [|b|r]; cbn [known as_before]; [auto..|].
  intros Hb Hk. destruct (decide (opt_id r' = opt_id r)) as [e|ne].
  - rewrite e in *. rewrite Hk in Hb. apply same_fields_eq in Hb. subst r'.
    apply lookup_insert_eq.
  - now rewrite lookup_insert_ne.
Qed.

Lemma known_hook_observe (objs : gmap nat AddEventListenerOptions) (o' : Options) (h : Hook) :
  as_before objs o' = true -> known_hook objs h -> known_hook (observe o' objs) h.
Proof. unfold known_hook. destruct (destroy h); [apply known_observe | auto]. Qed.

Lemma as_before_observed (objs : gmap nat AddEventListenerOptions) (o : Options) : as_before
    (observe o objs) o = true.
Proof.
  destruct o as [|b|r]; cbn [as_before observe]; [reflexivity..|].
  rewrite lookup_insert_eq. apply same_fields_refl.
Qed.

(** The cleanup a render leaves holds the options of that render, or is the
    cleanup that was there. *)
Lemma bind_effect_options (p : Props) (w : World) (d : option Cleanup) (w2 : World) (c : Cleanup) :
  bind_effect p w = Normal (d, w2) -> d = Some c -> c_options c = options p.
Proof.
  intros Hb ->.
  destruct (has_addEventListener (resolve_target (element p) w)) eqn:Hcap.
  - rewrite (bind_effect_capable p w Hcap) in Hb. now injection Hb as <- _.
  - rewrite (bind_effect_legacy p w Hcap) in Hb. discriminate.
Qed.

Lemma mount_known (objs : gmap nat AddEventListenerOptions) (p : Props) (w : World) (h : Hook)
    (w' : World) :
  known objs (options p) -> mount p w = Normal (h, w') -> known_hook objs h.
Proof.
  intros Hk. rewrite mount_unfold.
  destruct (bind_effect p w) as [[d w1]|e] eqn:Hb; [|discriminate].
  cbn [cbind]. intros [= <- <-]. unfold known_hook. cbn [destroy].
  destruct d as [c|]; [|exact I]. now rewrite (bind_effect_options p w _ _ c Hb eq_refl).
Qed.

Lemma update_known (objs : gmap nat AddEventListenerOptions) (p : Props) (h : Hook)
    (w : World) (h' : Hook) (w' : World) :
  known objs (options p) -> known_hook objs h ->
  update p h w = Normal (h', w') -> known_hook objs h'.
Proof.
  intros Hk Hkh.
  destruct (areHookInputsEqual (deps_binding h) (deps_of p)) eqn:Hdeps.
  - rewrite (update_same_deps p h w Hdeps). intros [= <- <-]. exact Hkh.
  - rewrite (update_changed_deps p h w Hdeps).
    destruct (run_destroy (destroy h) w) as [w1|e]; [|discriminate]. cbn [cbind].
    destruct (bind_effect p w1) as [[d w2]|e] eqn:Hb; [|discriminate].
    cbn [cbind]. intros [= <- <-]. unfold known_hook. cbn [destroy].
    destruct d as [c|]; [|exact I]. now rewrite (bind_effect_options p w1 _ _ c Hb eq_refl).
Qed.

(** ** An event along its path, on the page of one hook *)

Lemma invoke_at_empty (cap : bool) (h : Hook) (ev : Event) (w : World) (t : Target) :
  registry w = [] -> invoke_at cap h ev w t = w.
Proof. intros Hr. unfold invoke_at. now rewrite Hr. Qed.

Lemma invoke_at_single (cap : bool) (h : Hook) (ev : Event) (w : World) (t : Target)
    (r : Registration) :
  registry w = [r] ->
  invoke_at cap h ev w t =
  if Target_eqb (r_target r) t && String.eqb (r_type r) (ev_type ev)
     && Bool.eqb (r_capture r) cap
  then call_listener h ev (if r_once r then drop_registration r w else w)
  else w.
Proof.
  intros Hr. unfold invoke_at. rewrite Hr. cbn [List.filter].
  destruct (Target_eqb (r_target r) t && String.eqb (r_type r) (ev_type ev)
            && Bool.eqb (r_capture r) cap); [|reflexivity].
  cbn [fold_left]. unfold inner_invoke, is_registered. rewrite Hr. cbn [existsb].
  now rewrite same_listener_self.
Qed.

Lemma invoke_at_frame (cap : bool) (h : Hook) (ev : Event) (w : World) (t : Target) :
  refs (invoke_at cap h ev w t) = refs w /\
  trace (invoke_at cap h ev w t) = trace w /\
  next_fn (invoke_at cap h ev w t) = next_fn w /\
  incl (registry (invoke_at cap h ev w t)) (registry w).
Proof. apply fold_inner_invoke_frame. Qed.

Lemma invoke_at_inv (cap : bool) (h : Hook) (ev : Event) (w : World) (t : Target) :
  hook_inv h w -> hook_inv h (invoke_at cap h ev w t).
Proof.
  intros [Hs Hc Ht Hr].
  destruct (invoke_at_frame cap h ev w t) as (_ & Htr & _ & Hincl).
  split; try assumption.
  - now rewrite Htr.
  - intros r Hin. apply Hr, Hincl, Hin.
Qed.

Lemma invoke_at_shape (cap : bool) (h : Hook) (ev : Event) (w : World) (t : Target) :
  registry_shape h w -> registry_shape h (invoke_at cap h ev w t).
Proof.
  unfold registry_shape. destruct (destroy h) as [c|].
  - intros [Hr|[Honce Hr]].
    + rewrite (invoke_at_single cap h ev w t _ Hr).
      destruct (Target_eqb _ t && String.eqb _ (ev_type ev) && Bool.eqb _ cap); [|now left].
      rewrite (registry_after_delivery h ev w _ Hr).
      cbn [registration_of r_once].
      destruct (flatten_once (c_options c)); [now right | now left].
    + rewrite (invoke_at_empty cap h ev w t Hr). now right.
  - intros Hr. now rewrite (invoke_at_empty cap h ev w t Hr).
Qed.

Lemma fold_invoke_at_inv (cap : bool) (h : Hook) (ev : Event) (ts : list Target) (w : World) :
  hook_inv h w -> registry_shape h w ->
  hook_inv h (fold_left (invoke_at cap h ev) ts w) /\
  registry_shape h (fold_left (invoke_at cap h ev) ts w).
Proof.
  revert w. induction ts as [|t ts IH]; intros w Hinv Hshape; cbn [fold_left]; [auto|].
  apply IH; [now apply invoke_at_inv | now apply invoke_at_shape].
Qed.

Lemma fold_invoke_at_empty (cap : bool) (h : Hook) (ev : Event) (ts : list Target) (w : World) :
  registry w = [] -> fold_left (invoke_at cap h ev) ts w = w.
Proof.
  intros Hr. induction ts as [|t ts IH]; cbn [fold_left]; [reflexivity|].
  now rewrite (invoke_at_empty cap h ev w t Hr).
Qed.

Lemma dispatch_along_empty (path : list Target) (bubbles : bool) (ev : Event) (h : Hook)
    (w : World) :
  registry w = [] -> dispatch_along path bubbles ev h w = w.
Proof.
  intros Hr. unfold dispatch_along. rewrite (fold_invoke_at_empty _ _ _ _ _ Hr).
  destruct (List.rev path) as [|target ancestors]; [reflexivity|].
  rewrite (invoke_at_empty _ _ _ _ _ Hr).
  destruct bubbles; [|reflexivity]. now apply fold_invoke_at_empty.
Qed.

Lemma dispatch_along_inv (path : list Target) (bubbles : bool) (ev : Event) (h : Hook)
    (w : World) :
  hook_inv h w -> registry_shape h w ->
  hook_inv h (dispatch_along path bubbles ev h w) /\
  registry_shape h (dispatch_along path bubbles ev h w).
Proof.
  intros Hinv Hshape. unfold dispatch_along.
  destruct (fold_invoke_at_inv true h ev path w Hinv Hshape) as [Hinv1 Hshape1].
  destruct (List.rev path) as [|target ancestors]; [auto|].
  pose proof (invoke_at_inv false h ev _ target Hinv1) as Hinv2.
  pose proof (invoke_at_shape false h ev _ target Hshape1) as Hshape2.
  destruct bubbles; [|auto]. now apply fold_invoke_at_inv.
Qed.

(** A listener that no object of the list carries in this direction is not
    run. *)
Lemma fold_invoke_at_miss (cap : bool) (h : Hook) (ev : Event) (ts : list Target) (w : World)
    (r : Registration) :
  registry w = [r] ->
  (forall t, In t ts ->
     Target_eqb (r_target r) t && String.eqb (r_type r) (ev_type ev)
     && Bool.eqb (r_capture r) cap = false) ->
  fold_left (invoke_at cap h ev) ts w = w.
Proof.
  intros Hr. induction ts as [|t ts IH]; intros Hmiss; cbn [fold_left]; [reflexivity|].
  rewrite (invoke_at_single cap h ev w t r Hr), (Hmiss t (or_introl eq_refl)).
  apply IH. intros t' Ht'. apply Hmiss. now right.
Qed.

(** A listener that stays attached is run once by the one object of the
    list that carries it. *)
Lemma fold_invoke_at_hit (cap : bool) (h : Hook) (ev : Event) (ts : list Target) (w : World)
    (r : Registration) :
  registry w = [r] -> r_once r = false ->
  NoDup ts -> In (r_target r) ts ->
  String.eqb (r_type r) (ev_type ev) = true -> r_capture r = cap ->
  fold_left (invoke_at cap h ev) ts w = call_listener h ev w.
Proof.
  intros Hr Honce Hnd Hin Hty Hcap. revert Hnd Hin.
  induction ts as [|t ts IH]; intros Hnd Hin; [destruct Hin|].
  cbn [fold_left]. rewrite (invoke_at_single cap h ev w t r Hr), Hty, Hcap, Honce.
  replace (Bool.eqb cap cap) with true by now destruct cap.
  rewrite andb_true_r. apply NoDup_cons in Hnd as [Hnotin Hnd].
  destruct (Target_eqb (r_target r) t) eqn:Ht.
  - apply Target_eqb_eq in Ht. subst t.
    apply fold_invoke_at_miss with (r := r); [exact Hr|].
    intros t' Ht'. destruct (Target_eqb (r_target r) t') eqn:E; [|reflexivity].
    apply Target_eqb_eq in E. subst t'. exfalso. apply Hnotin. now apply list_elem_of_In.
  - apply IH; [exact Hnd|]. destruct Hin as [->|Hin]; [|exact Hin].
    now rewrite Target_eqb_refl in Ht.
Qed.

(** ** The stages of a timeline *)

Lemma set_ref_initial_world (r : RefId) (v : option Target) (rs : gmap nat Target) :
  set_ref r v (initial_world rs)
  = initial_world (match v with Some t => <[r := t]> rs | None => delete r rs end).
Proof. reflexivity. Qed.

(** The pending effects run to the end, and leave nothing pending. *)
Lemma run_passive_effects_inv (s : Stage) :
  stage_inv s ->
  exists ph w,
    run_passive_effects (st_phase s) (st_objects s) (st_world s) = Normal (ph, w) /\
    stage_inv {| st_phase := ph; st_objects := st_objects s; st_world := w |} /\
    invoked w = invoked (st_world s) /\
    match st_phase s with
    | FirstRender p => exists h, ph = Settled h /\ savedHandler h = handler p
    | Rendered _ p => exists h, ph = Settled h /\ savedHandler h = handler p
    | Settled h => ph = Settled h /\ w = st_world s
    | Unmounting h => ph = Unmounted h
    | Unmounted h => ph = Unmounted h /\ w = st_world s
    end.
Proof.
  destruct s as [ph objs w]. unfold stage_inv. cbn [st_phase st_objects st_world].
  destruct ph as [p|h|h p|h|h]; cbn [run_passive_effects].
  - intros (Hk & rs & ->). rewrite (live_props_known _ _ Hk).
    destruct (mount_inv rs p) as (h & w' & Hm & Hinv & Hsaved & _ & _ & Hi).
    change (useEventListener p None (initial_world rs)) with (mount p (initial_world rs)).
    rewrite Hm. cbn [cbind]. exists (Settled h), w'. split; [reflexivity|].
    split; [|split; [exact Hi | eauto]].
    split; [exact Hinv|]. split; [exact (mount_shape p rs h w' Hm)|].
    exact (mount_known objs p _ h w' Hk Hm).
  - intros Hs. exists (Settled h), w. auto.
  - intros (Hinv & Hshape & Hkh & Hk).
    rewrite (live_props_known _ _ Hk), (live_hook_known _ _ Hkh).
    destruct (update_inv p h w Hinv) as (h' & w' & Hu & Hinv' & Hsaved & _ & _ & Hi).
    change (useEventListener p (Some h) w) with (update p h w).
    rewrite Hu. cbn [cbind]. exists (Settled h'), w'. split; [reflexivity|].
    split; [|split; [exact Hi | eauto]].
    split; [exact Hinv'|]. split; [exact (update_shape p h w h' w' Hinv Hshape Hu)|].
    exact (update_known objs p h w h' w' Hk Hkh Hu).
  - intros (Hinv & Hshape & Hkh). rewrite (live_hook_known _ _ Hkh).
    destruct (run_destroy_inv h w Hinv) as (w' & Hd & Hreg & _ & _ & _ & _ & Hi).
    unfold unmount. rewrite Hd. cbn [cbind]. exists (Unmounted h), w'. auto.
  - intros Hreg. exists (Unmounted h), w. auto.
Qed.

Lemma moment_inv (m : Moment) (s : Stage) :
  stage_inv s ->
  unmutated (st_objects s) [m] = true ->
  exists s',
    moment m s = Normal s' /\ stage_inv s' /\
    st_objects s' = match m with
                    | Commit p => observe (options p) (st_objects s)
                    | _ => st_objects s
                    end.
Proof.
  intros Hinv Hm. destruct m as [p| |r v|i f|path b ev|]; cbn [moment].
  - cbn [unmutated] in Hm. rewrite andb_true_r in Hm.
    destruct (run_passive_effects_inv s Hinv) as (ph & w & -> & Hinv' & _ & Hph).
    cbn [cbind]. eexists. split; [reflexivity|]. split; [|reflexivity].
    unfold stage_inv in *. cbn [st_phase st_objects st_world] in *.
    destruct ph as [q|h|h q|h|h]; try exact Hinv'.
    + exfalso. destruct (st_phase s); firstorder discriminate.
    + destruct Hinv' as (Hi & Hsh & Hkh). split; [exact Hi|]. split; [exact Hsh|].
      split; [now apply known_hook_observe | apply known_observe_self].
    + exfalso. destruct (st_phase s); firstorder discriminate.
    + exfalso. destruct (st_phase s); firstorder discriminate.
  - destruct (run_passive_effects_inv s Hinv) as (ph & w & -> & Hinv' & _).
    cbn [cbind]. eexists. split; [reflexivity|]. split; [exact Hinv' | reflexivity].
  - eexists. split; [reflexivity|]. split; [|reflexivity].
    unfold stage_inv in *. cbn [st_phase st_objects st_world].
    destruct (st_phase s) as [q|h|h q|h|h].
    + destruct Hinv as (Hk & rs & ->). split; [exact Hk|]. rewrite set_ref_initial_world. eauto.
    + destruct Hinv as (Hi & Hsh & Hkh). split; [now apply set_ref_inv|]. split; assumption.
    + destruct Hinv as (Hi & Hsh & Hkh). split; [now apply set_ref_inv|]. split; assumption.
    + destruct Hinv as (Hi & Hsh & Hkh). split; [now apply set_ref_inv|]. split; assumption.
    + exact Hinv.
  - discriminate.
  - eexists. split; [reflexivity|]. split; [|reflexivity].
    unfold stage_inv in *. cbn [st_phase st_objects st_world].
    destruct (st_phase s) as [q|h|h q|h|h]; cbn [cell_hook].
    + destruct Hinv as (Hk & rs & Hw). split; [exact Hk|]. exists rs.
      rewrite dispatch_along_empty; [exact Hw | now rewrite Hw].
    + destruct Hinv as (Hi & Hsh & Hkh).
      destruct (dispatch_along_inv path b ev h _ Hi Hsh). auto.
    + destruct Hinv as (Hi & Hsh & Hkh & Hk).
      destruct (dispatch_along_inv path b ev h _ Hi Hsh). auto.
    + destruct Hinv as (Hi & Hsh & Hkh).
      destruct (dispatch_along_inv path b ev h _ Hi Hsh). auto.
    + now rewrite dispatch_along_empty.
  - destruct (run_passive_effects_inv s Hinv) as (ph & w & -> & Hinv' & _ & Hph).
    cbn [cbind]. eexists. split; [reflexivity|]. split; [|reflexivity].
    unfold stage_inv in *. cbn [st_phase st_objects st_world] in *.
    destruct ph as [q|h|h q|h|h]; exact Hinv'.
Qed.

Lemma unmutated_cons (objs : gmap nat AddEventListenerOptions) (m : Moment) (ms : list Moment) :
  unmutated objs (m :: ms) = true ->
  unmutated objs [m] = true /\
  unmutated (match m with Commit p => observe (options p) objs | _ => objs end) ms = true.
Proof.
  destruct m; cbn [unmutated]; try (intros H; split; [reflexivity | exact H]).
  - intros H. apply andb_prop in H as [-> H]. split; [reflexivity | exact H].
  - discriminate.
Qed.

Lemma moments_inv (ms : list Moment) (s : Stage) :
  stage_inv s ->
  unmutated (st_objects s) ms = true ->
  exists s', moments ms s = Normal s' /\ stage_inv s'.
Proof.
  revert s. induction ms as [|m ms IH]; intros s Hinv Hms; cbn [moments]; [eauto|].
  apply unmutated_cons in Hms as [Hm Hms].
  destruct (moment_inv m s Hinv Hm) as (s1 & -> & Hinv1 & Hobjs). cbn [cbind].
  apply IH; [exact Hinv1 | now rewrite Hobjs].
Qed.

Lemma first_render_inv (rs : gmap nat Target) (p0 : Props) : stage_inv (first_render rs p0).
Proof. split; [apply known_observe_self | now exists rs]. Qed.

Lemma timeline_inv (rs : gmap nat Target) (p0 : Props) (ms : list Moment) :
  unmutated (observe (options p0) ∅) ms = true ->
  exists s, timeline rs p0 ms = Normal s /\ stage_inv s.
Proof. intros Hms. apply moments_inv; [apply first_render_inv | exact Hms]. Qed.

Lemma moments_app (xs ys : list Moment) (s : Stage) :
  moments (xs ++ ys) s = let* s' := moments xs s in moments ys s'.
Proof.
  revert s. induction xs as [|x xs IH]; intros s; cbn [app moments cbind]; [reflexivity|].
  destruct (moment x s) as [s1|e]; cbn [cbind]; [apply IH | reflexivity].
Qed.

(** ** Which events run the listener *)

Lemma dispatch_along_target (t : Target) (bubbles : bool) (ev : Event) (h : Hook) (w : World)
    (r : Registration) :
  registry w = [r] ->
  dispatch_along [t] bubbles ev h w = dispatchEvent t ev h w.
Proof.
  intros Hr. rewrite (dispatchEvent_single t ev h w r Hr).
  unfold dispatch_along. cbn [List.rev app fold_left].
  rewrite (invoke_at_single true h ev w t r Hr).
  destruct (Target_eqb (r_target r) t && String.eqb (r_type r) (ev_type ev)) eqn:Hc;
    cbn [andb].
  - destruct (r_capture r) eqn:Hcap; cbn [Bool.eqb].
    + pose proof (registry_after_delivery h ev w r Hr) as Hafter.
      destruct (r_once r).
      * rewrite invoke_at_empty by exact Hafter. now destruct bubbles.
      * rewrite (invoke_at_single false h ev _ t r Hafter), Hc, Hcap. now destruct bubbles.
    + rewrite (invoke_at_single false h ev w t r Hr), Hc, Hcap. now destruct bubbles.
  - rewrite (invoke_at_single false h ev w t r Hr), Hc. now destruct bubbles.
Qed.

Lemma dispatch_along_unreached (c : Cleanup) (path : list Target) (bubbles : bool) (ev : Event)
    (h : Hook) (w : World) :
  registry w = [registration_of c] ->
  reaches c path bubbles (ev_type ev) = false ->
  dispatch_along path bubbles ev h w = w.
Proof.
  intros Hr Hmiss. unfold reaches in Hmiss. unfold dispatch_along.
  assert (Hdown : fold_left (invoke_at true h ev) path w = w).
  { apply fold_invoke_at_miss with (r := registration_of c); [exact Hr|].
    intros t Ht. cbn [registration_of r_target r_type r_capture].
    destruct (String.eqb (c_eventName c) (ev_type ev)); [|now rewrite andb_false_r].
    rewrite andb_true_r. cbn [andb] in Hmiss.
    destruct (Target_eqb (c_target c) t) eqn:E; [|reflexivity]. cbn [andb].
    apply in_rev in Ht. destruct (List.rev path) as [|target ancestors]; [destruct Ht|].
    apply orb_false_elim in Hmiss as [Htarget Hanc].
    destruct Ht as [->|Ht]; [congruence|].
    assert (Hex : existsb (Target_eqb (c_target c)) ancestors = true).
    { apply existsb_exists. now exists t. }
    rewrite Hex in Hanc. cbn [andb] in Hanc. apply orb_false_elim in Hanc as [-> _].
    reflexivity. }
  rewrite Hdown. destruct (List.rev path) as [|target ancestors]; [reflexivity|].
  destruct (String.eqb (c_eventName c) (ev_type ev)) eqn:Hty; cbn [andb] in Hmiss.
  - apply orb_false_elim in Hmiss as [Htarget Hanc].
    rewrite (invoke_at_single false h ev w target _ Hr).
    cbn [registration_of r_target r_type r_capture]. rewrite Htarget. cbn [andb].
    destruct bubbles; [|reflexivity].
    apply fold_invoke_at_miss with (r := registration_of c); [exact Hr|].
    intros t Ht. cbn [registration_of r_target r_type r_capture].
    destruct (Target_eqb (c_target c) t) eqn:E; [|reflexivity].
    assert (Hex : existsb (Target_eqb (c_target c)) ancestors = true).
    { apply existsb_exists. now exists t. }
    rewrite Hex, orb_true_r in Hanc. discriminate.
  - rewrite (invoke_at_single false h ev w target _ Hr).
    cbn [registration_of r_target r_type r_capture]. rewrite Hty, andb_false_r. cbn [andb].
    destruct bubbles; [|reflexivity].
    apply fold_invoke_at_miss with (r := registration_of c); [exact Hr|].
    intros t _. cbn [registration_of r_target r_type r_capture].
    now rewrite Hty, andb_false_r.
Qed.

Lemma dispatch_along_reached (c : Cleanup) (path : list Target) (bubbles : bool) (ev : Event)
    (h : Hook) (w : World) :
  registry w = [registration_of c] ->
  flatten_once (c_options c) = false ->
  NoDup path ->
  reaches c path bubbles (ev_type ev) = true ->
  dispatch_along path bubbles ev h w = call_listener h ev w.
Proof.
  intros Hr Honce Hnd Hhit. unfold reaches in Hhit. apply andb_prop in Hhit as [Hty Hhit].
  unfold dispatch_along.
  assert (Hnd' : NoDup (List.rev path)).
  { apply NoDup_ListNoDup, List.NoDup_rev, NoDup_ListNoDup, Hnd. }
  assert (Hsame : forall t, In t path <-> In t (List.rev path)) by (intros t; apply in_rev).
  destruct (List.rev path) as [|target ancestors]; [discriminate|].
  apply NoDup_cons in Hnd' as [Hfresh Hnda].
  assert (Hcalled : registry (call_listener h ev w) = [registration_of c]) by exact Hr.
  assert (Hskip : forall cap w', registry w' = [registration_of c] ->
            flatten (c_options c) = negb cap ->
            forall ts, fold_left (invoke_at cap h ev) ts w' = w').
  { intros cap w' Hr' Hcap ts. apply fold_invoke_at_miss with (r := registration_of c);
      [exact Hr'|]. intros t _. cbn [registration_of r_target r_type r_capture].
    rewrite Hcap. destruct cap; cbn [negb Bool.eqb]; now rewrite andb_false_r. }
  destruct (flatten (c_options c)) eqn:Hcap.
  - (* a capture listener runs on the way down *)
    rewrite (fold_invoke_at_hit true h ev path w (registration_of c) Hr Honce Hnd);
      cbn [registration_of r_target r_type r_capture]; try assumption.
    + rewrite (invoke_at_single false h ev _ target _ Hcalled).
      cbn [registration_of r_target r_type r_capture]. rewrite Hcap. cbn [Bool.eqb].
      rewrite andb_false_r.
      destruct bubbles; [|reflexivity]. apply Hskip; [exact Hcalled | reflexivity].
    + apply Hsame.
      destruct (Target_eqb (c_target c) target) eqn:E.
      * apply Target_eqb_eq in E. now left.
      * cbn [orb] in Hhit. apply andb_prop in Hhit as [Hex _].
        apply existsb_exists in Hex as (t & Ht & E'). apply Target_eqb_eq in E'. subst t.
        now right.
  - rewrite (Hskip true w Hr) by reflexivity.
    rewrite (invoke_at_single false h ev w target _ Hr).
    cbn [registration_of r_target r_type r_capture r_once]. rewrite Hcap, Hty, Honce.
    cbn [Bool.eqb]. rewrite !andb_true_r.
    destruct (Target_eqb (c_target c) target) eqn:E.
    + (* at the target *)
      apply Target_eqb_eq in E.
      destruct bubbles; [|reflexivity].
      apply fold_invoke_at_miss with (r := registration_of c); [exact Hcalled|].
      intros t Ht. cbn [registration_of r_target r_type r_capture].
      destruct (Target_eqb (c_target c) t) eqn:E'; [|reflexivity].
      apply Target_eqb_eq in E'. exfalso. apply Hfresh. apply list_elem_of_In. congruence.
    + (* on the way up *)
      cbn [orb] in Hhit. apply andb_prop in Hhit as [Hex Hb]. cbn [orb] in Hb. subst bubbles.
      apply (fold_invoke_at_hit false h ev ancestors w (registration_of c) Hr Honce);
        cbn [registration_of r_target r_type r_capture]; try assumption.
      apply existsb_exists in Hex as (t & Ht & E'). apply Target_eqb_eq in E'. now subst t.
Qed.

(** ** Timelines *)

Lemma moments_inv_app (ms ms' : list Moment) (s : Stage) :
  stage_inv s ->
  unmutated (st_objects s) (ms ++ ms') = true ->
  exists s', moments ms s = Normal s' /\ stage_inv s' /\ unmutated (st_objects s') ms' = true.
Proof.
  revert s. induction ms as [|m ms IH]; intros s Hinv Hms; cbn [moments app] in *; [eauto|].
  apply unmutated_cons in Hms as [Hm Hms].
  destruct (moment_inv m s Hinv Hm) as (s1 & -> & Hinv1 & Hobjs). cbn [cbind].
  apply IH; [exact Hinv1 | now rewrite Hobjs].
Qed.

Lemma run_passive_effects_mounted (ph : Phase) (objs : gmap nat AddEventListenerOptions)
    (w : World) (ph' : Phase) (w' : World) :
  mounted ph = true ->
  run_passive_effects ph objs w = Normal (ph', w') ->
  exists h, ph' = Settled h.
Proof.
  destruct ph as [p|h|h p|h|h]; cbn [mounted run_passive_effects]; try discriminate; intros _.
  - destruct (useEventListener _ None w) as [[h1 w1]|e]; cbn [cbind]; [|discriminate].
    intros [= <- _]. eauto.
  - intros [= <- _]. eauto.
  - destruct (useEventListener _ (Some _) w) as [[h1 w1]|e]; cbn [cbind]; [|discriminate].
    intros [= <- _]. eauto.
Qed.

Lemma moments_mounted (ms : list Moment) (s s' : Stage) :
  existsb is_Remove ms = false ->
  mounted (st_phase s) = true ->
  moments ms s = Normal s' ->
  mounted (st_phase s') = true.
Proof.
  revert s. induction ms as [|m ms IH]; intros s Hms Hmo; cbn [moments].
  - now intros [= <-].
  - cbn [existsb] in Hms. apply orb_false_elim in Hms as [Hm Hms].
    destruct (moment m s) as [s1|e] eqn:Hstep; cbn [cbind]; [|discriminate].
    apply (IH s1 Hms). destruct m as [p| |r v|i f|path b ev|]; cbn [moment] in Hstep;
      try discriminate Hm.
    + destruct (run_passive_effects _ _ _) as [[ph w]|e] eqn:Hrun; [|discriminate].
      destruct (run_passive_effects_mounted _ _ _ _ _ Hmo Hrun) as [h ->].
      cbn [cbind] in Hstep. now injection Hstep as <-.
    + destruct (run_passive_effects _ _ _) as [[ph w]|e] eqn:Hrun; [|discriminate].
      destruct (run_passive_effects_mounted _ _ _ _ _ Hmo Hrun) as [h ->].
      cbn [cbind] in Hstep. now injection Hstep as <-.
    + now injection Hstep as <-.
    + now injection Hstep as <-.
    + now injection Hstep as <-.
Qed.

Lemma live_cleanup_known (objs : gmap nat AddEventListenerOptions) (c : Cleanup) :
  known objs (c_options c) -> live_cleanup objs c = c.
Proof. intros Hk. unfold live_cleanup. rewrite (live_options_known _ _ Hk). now destruct c. Qed.


Lemma stage_eta (s : Stage) :
  {| st_phase := st_phase s; st_objects := st_objects s; st_world := st_world s |} = s.
Proof. now destruct s. Qed.

(** The listener list of a stage, against the cleanup React keeps. *)
Lemma stage_registry (s : Stage) :
  stage_inv s ->
  registry (st_world s) = [] \/
  exists c, destroy (cell_hook (st_phase s)) = Some c /\
            known (st_objects s) (c_options c) /\
            registry (st_world s) = [registration_of c].
Proof.
  unfold stage_inv. destruct (st_phase s) as [p|h|h p|h|h]; cbn [cell_hook].
  - intros (_ & rs & ->). now left.
  - intros (_ & Hsh & Hk). unfold registry_shape, known_hook in *.
    destruct (destroy h) as [c|]; [|now left]. destruct Hsh as [Hr|[_ Hr]]; [right|now left].
    eauto.
  - intros (_ & Hsh & Hk & _). unfold registry_shape, known_hook in *.
    destruct (destroy h) as [c|]; [|now left]. destruct Hsh as [Hr|[_ Hr]]; [right|now left].
    eauto.
  - intros (_ & Hsh & Hk). unfold registry_shape, known_hook in *.
    destruct (destroy h) as [c|]; [|now left]. destruct Hsh as [Hr|[_ Hr]]; [right|now left].
    eauto.
  - now left.
Qed.

(** A cleanup whose listener is not [once] keeps its listener attached. *)
Lemma stage_attached (s : Stage) (c : Cleanup) :
  stage_inv s -> mounted (st_phase s) = true ->
  destroy (cell_hook (st_phase s)) = Some c ->
  flatten_once (c_options c) = false ->
  registry (st_world s) = [registration_of c].
Proof.
  unfold stage_inv. destruct (st_phase s) as [p|h|h p|h|h]; cbn [cell_hook mounted destroy];
    try discriminate.
  - intros (_ & Hsh & _) _ Hd Honce. unfold registry_shape in Hsh. rewrite Hd in Hsh.
    destruct Hsh as [Hr|[Ho _]]; [exact Hr | congruence].
  - intros (_ & Hsh & _) _ Hd Honce. unfold registry_shape in Hsh. rewrite Hd in Hsh.
    destruct Hsh as [Hr|[Ho _]]; [exact Hr | congruence].
Qed.

(** ** Renders that change the handler only, in time *)



Lemma first_effects (rs : gmap nat Target) (p0 : Props) :
  exists h0 w0,
    mount p0 (initial_world rs) = Normal (h0, w0) /\
    moment Effects (first_render rs p0)
    = Normal {| st_phase := Settled h0; st_objects := observe (options p0) ∅;
                st_world := w0 |} /\
    hook_inv h0 w0 /\ known_hook (observe (options p0) ∅) h0 /\
    savedHandler h0 = handler p0 /\ deps_binding h0 = deps_of p0.
Proof.
  destruct (mount_inv rs p0) as (h0 & w0 & Hm & Hinv & Hsaved & Hdeps & _).
  exists h0, w0. split; [exact Hm|].
  cbn [moment first_render st_phase st_objects st_world run_passive_effects].
  rewrite (live_props_known _ p0 (known_observe_self ∅ (options p0))).
  change (useEventListener p0 None (initial_world rs)) with (mount p0 (initial_world rs)).
  rewrite Hm. cbn [cbind]. split; [reflexivity|].
  split; [exact Hinv|]. split; [|split; assumption].
  exact (mount_known _ p0 _ h0 w0 (known_observe_self ∅ (options p0)) Hm).
Qed.





(* ===================================================================== *)
(** * Part III. Further properties                                        *)
(* ===================================================================== *)

(** ** The hook in time *)

(** X1. At every moment of a component's life (between a render and its
    effects and after unmount included), provided no options object is
    changed in place, the page holds at most one listener of the hook, and
    that one is the listener the pending cleanup names, with the capture
    flag its options hold now. *)
Theorem listener_list_has_at_most_one_entry (rs : gmap nat Target) (p0 : Props)
    (ms : list Moment) :
  unmutated (observe (options p0) ∅) ms = true ->
  exists s,
    timeline rs p0 ms = Normal s /\
    List.length (registry (st_world s)) <= 1 /\
    (forall r, In r (registry (st_world s)) ->
       exists c, destroy (cell_hook (st_phase s)) = Some c /\
                 r = registration_of (live_cleanup (st_objects s) c)).
Proof.
  intros Hms. destruct (timeline_inv rs p0 ms Hms) as (s & Ht & Hinv).
  exists s. split; [exact Ht|].
  destruct (stage_registry s Hinv) as [Hr|(c & Hd & Hk & Hr)]; rewrite Hr.
  - split; [cbn; lia | intros r []].
  - split; [cbn; lia|]. intros r [<-|[]]. exists c. split; [exact Hd|].
    now rewrite (live_cleanup_known _ _ Hk).
Qed.

Lemma listener_list_has_at_most_one_entry_witness :
  exists s,
    timeline {[ 0 := Element 7 ]}
      {| eventName := "click"; handler := 1; element := Some 0;
         options := OptObject {| opt_id := 3; capture := true; once := false;
                                 passive := false |} |}
      [ Propagate [Window; Document; Element 7] true {| ev_type := "click"; ev_detail := 0 |};
        Commit {| eventName := "keydown"; handler := 2; element := Some 0;
                  options := OptObject {| opt_id := 3; capture := true; once := false;
                                          passive := false |} |};
        Assign 0 (Some (Element 9));
        Effects;
        Remove ]
    = Normal s /\
    List.length (registry (st_world s)) <= 1 /\
    (forall r, In r (registry (st_world s)) ->
       exists c, destroy (cell_hook (st_phase s)) = Some c /\
                 r = registration_of (live_cleanup (st_objects s) c)).
Proof.
  exact (listener_list_has_at_most_one_entry {[ 0 := Element 7 ]}
    {| eventName := "click"; handler := 1; element := Some 0;
       options := OptObject {| opt_id := 3; capture := true; once := false;
                               passive := false |} |}
    [ Propagate [Window; Document; Element 7] true {| ev_type := "click"; ev_detail := 0 |};
      Commit {| eventName := "keydown"; handler := 2; element := Some 0;
                options := OptObject {| opt_id := 3; capture := true; once := false;
                                        passive := false |} |};
      Assign 0 (Some (Element 9));
      Effects;
      Remove ]
    eq_refl).
Defined.

(** X2. Once the component has left the tree and its cleanup has run, no
    event reaches the handler, provided no options object was changed in
    place: removal and cleanup invoke nothing, the listener list is empty,
    and an event of any type along any path changes nothing. *)
Theorem unmount_silences_the_handler (rs : gmap nat Target) (p0 : Props) (ms : list Moment)
    (path : list Target) (bubbles : bool) (ev : Event) :
  unmutated (observe (options p0) ∅) ms = true ->
  exists s0 s,
    timeline rs p0 ms = Normal s0 /\
    timeline rs p0 (ms ++ [Remove; Effects]) = Normal s /\
    invoked (st_world s) = invoked (st_world s0) /\
    registry (st_world s) = [] /\
    moment (Propagate path bubbles ev) s = Normal s.
Proof.
  intros Hms. destruct (timeline_inv rs p0 ms Hms) as (s0 & Ht & Hinv).
  exists s0. unfold timeline in *. rewrite moments_app, Ht. cbn [cbind moments moment].
  destruct (run_passive_effects_inv s0 Hinv) as (ph & w & -> & Hinv1 & Hi1 & Hph).
  cbn [cbind st_phase st_objects st_world].
  assert (Hgone : exists s,
    run_passive_effects (match ph with Settled h => Unmounting h | gone => gone end)
      (st_objects s0) w = Normal (st_phase s, st_world s) /\
    st_objects s = st_objects s0 /\
    invoked (st_world s) = invoked w /\ registry (st_world s) = []).
  { assert (Hcases : (exists h, ph = Settled h) \/ (exists h, ph = Unmounted h)).
    { destruct (st_phase s0); firstorder eauto. }
    destruct Hcases as [[h ->]|[h ->]].
    - destruct (run_passive_effects_inv
                  {| st_phase := Unmounting h; st_objects := st_objects s0; st_world := w |}
                  Hinv1) as (ph2 & w2 & Hrun & Hinv2 & Hi2 & ->).
      cbn [st_phase st_objects st_world] in *.
      exists {| st_phase := Unmounted h; st_objects := st_objects s0; st_world := w2 |}.
      cbn [st_phase st_objects st_world]. auto.
    - exists {| st_phase := Unmounted h; st_objects := st_objects s0; st_world := w |}.
      cbn [st_phase st_objects st_world run_passive_effects]. auto. }
  destruct Hgone as (s & -> & Hobjs & Hi & Hr). cbn [cbind].
  exists s. rewrite <- Hobjs, stage_eta. split; [reflexivity|]. split; [reflexivity|].
  split; [congruence|]. split; [exact Hr|].
  rewrite (dispatch_along_empty _ _ _ _ _ Hr). now rewrite stage_eta.
Qed.

Lemma unmount_silences_the_handler_witness :
  exists s0 s,
    timeline ∅ {| eventName := "resize"; handler := 1; element := None;
                  options := OptBool true |}
      [ Effects; Propagate [Window] false {| ev_type := "resize"; ev_detail := 0 |} ]
    = Normal s0 /\
    timeline ∅ {| eventName := "resize"; handler := 1; element := None;
                  options := OptBool true |}
      ([ Effects; Propagate [Window] false {| ev_type := "resize"; ev_detail := 0 |} ]
       ++ [Remove; Effects])
    = Normal s /\
    invoked (st_world s) = invoked (st_world s0) /\
    registry (st_world s) = [] /\
    moment (Propagate [Window] false {| ev_type := "resize"; ev_detail := 1 |}) s = Normal s.
Proof.
  exact (unmount_silences_the_handler ∅
    {| eventName := "resize"; handler := 1; element := None; options := OptBool true |}
    [ Effects; Propagate [Window] false {| ev_type := "resize"; ev_detail := 0 |} ]
    [Window] false {| ev_type := "resize"; ev_detail := 1 |} eq_refl).
Defined.

(** X3. An event that does not run the listener changes nothing: an event
    of another type, an event whose path does not pass through the object
    the listener is attached to, or one that passes through it only as an
    ancestor while the listener does not capture and the event does not
    bubble.  This holds at every moment of a timeline on which no options
    object is changed in place. *)
Theorem unrelated_event_is_ignored (rs : gmap nat Target) (p0 : Props) (ms : list Moment)
    (s : Stage) (path : list Target) (bubbles : bool) (ev : Event) :
  unmutated (observe (options p0) ∅) ms = true ->
  timeline rs p0 ms = Normal s ->
  (forall c, destroy (cell_hook (st_phase s)) = Some c ->
             reaches c path bubbles (ev_type ev) = false) ->
  moment (Propagate path bubbles ev) s = Normal s.
Proof.
  intros Hms Ht Hmiss. destruct (timeline_inv rs p0 ms Hms) as (s' & Ht' & Hinv).
  rewrite Ht in Ht'. injection Ht' as <-. cbn [moment].
  destruct (stage_registry s Hinv) as [Hr|(c & Hd & _ & Hr)].
  - rewrite (dispatch_along_empty _ _ _ _ _ Hr). now rewrite stage_eta.
  - rewrite (dispatch_along_unreached c _ _ _ _ _ Hr (Hmiss c Hd)). now rewrite stage_eta.
Qed.

Lemma unrelated_event_is_ignored_witness :
  exists s,
    timeline {[ 0 := Element 7 ]}
      {| eventName := "click"; handler := 1; element := Some 0; options := OptUndefined |}
      [ Effects ]
    = Normal s /\
    destroy (cell_hook (st_phase s))
    = Some {| c_target := Element 7; c_eventName := "click";
              c_listener := {| fn_id := 0 |}; c_options := OptUndefined |} /\
    moment (Propagate [Window; Document; Element 8] true
              {| ev_type := "click"; ev_detail := 0 |}) s = Normal s.
Proof.
  eexists. split; [reflexivity|]. split; [reflexivity|].
  apply (unrelated_event_is_ignored {[ 0 := Element 7 ]}
    {| eventName := "click"; handler := 1; element := Some 0; options := OptUndefined |}
    [ Effects ]).
  - reflexivity.
  - reflexivity.
  - intros c [= <-]. reflexivity.
Defined.

(** X4. After any moments without a change in place, a render with [p]
    and its effects: an event that runs the listener (of the bound type,
    with the listener's object on its path, see [reaches]) invokes exactly
    one handler, the handler of [p], and leaves the listener attached
    (options without [once]).  The same event after a further render whose
    effects have not run still invokes the handler of [p], not the newer
    one. *)
Theorem event_reaches_latest_handler (rs : gmap nat Target) (p0 : Props) (ms : list Moment)
    (p : Props) (s : Stage) (c : Cleanup) (path : list Target) (bubbles : bool) (ev : Event) :
  unmutated (observe (options p0) ∅) (ms ++ [Commit p; Effects]) = true ->
  existsb is_Remove ms = false ->
  timeline rs p0 (ms ++ [Commit p; Effects]) = Normal s ->
  destroy (cell_hook (st_phase s)) = Some c ->
  flatten_once (c_options c) = false ->
  NoDup path ->
  reaches c path bubbles (ev_type ev) = true ->
  (invoked (dispatch_along path bubbles ev (cell_hook (st_phase s)) (st_world s))
   = invoked (st_world s) ++ [(handler p, ev)] /\
   registry (dispatch_along path bubbles ev (cell_hook (st_phase s)) (st_world s))
   = registry (st_world s)) /\
  forall p', exists s',
    moment (Commit p') s = Normal s' /\
    invoked (dispatch_along path bubbles ev (cell_hook (st_phase s')) (st_world s'))
    = invoked (st_world s') ++ [(handler p, ev)].
Proof.
  intros Hms Hnr Ht Hd Honce Hnd Hhit.
  destruct (moments_inv_app ms [Commit p; Effects] (first_render rs p0)
              (first_render_inv rs p0) Hms) as (s0 & Ht0 & Hinv0 & Hms0).
  pose proof (moments_mounted ms (first_render rs p0) s0 Hnr eq_refl Ht0) as Hmo0.
  unfold timeline in Ht. rewrite moments_app, Ht0 in Ht. cbn [cbind moments] in Ht.
  apply unmutated_cons in Hms0 as [Hm0 _].
  destruct (moment_inv (Commit p) s0 Hinv0 Hm0) as (s1 & Hs1 & Hinv1 & Hobjs1).
  rewrite Hs1 in Ht. cbn [cbind moment] in Ht.
  assert (Hph1 : exists h1, st_phase s1 = Rendered h1 p).
  { cbn [moment] in Hs1.
    destruct (run_passive_effects (st_phase s0) (st_objects s0) (st_world s0))
      as [[ph w]|e] eqn:Hrun; [|discriminate].
    destruct (run_passive_effects_mounted _ _ _ _ _ Hmo0 Hrun) as [h1 ->].
    cbn [cbind] in Hs1. injection Hs1 as <-. eauto. }
  destruct Hph1 as [h1 Hph1].
  destruct (run_passive_effects_inv s1 Hinv1) as (ph & w & Hrun & Hinv & _ & Hph).
  rewrite Hph1 in Hph. destruct Hph as (h & -> & Hsaved).
  rewrite Hrun in Ht. cbn [cbind] in Ht. injection Ht as <-.
  cbn [st_phase st_objects st_world cell_hook] in *.
  assert (Hr : registry w = [registration_of c]).
  { apply (stage_attached _ c Hinv eq_refl Hd Honce). }
  rewrite (dispatch_along_reached c path bubbles ev h w Hr Honce Hnd Hhit).
  cbn [call_listener invoked registry]. rewrite Hsaved. split; [split; reflexivity|].
  intros p'. eexists. split; [reflexivity|]. cbn [st_phase st_world cell_hook].
  rewrite (dispatch_along_reached c path bubbles ev h w Hr Honce Hnd Hhit).
  cbn [call_listener invoked]. now rewrite Hsaved.
Qed.

Lemma event_reaches_latest_handler_witness :
  exists s,
    timeline ∅ {| eventName := "click"; handler := 1; element := None; options := OptUndefined |}
      ([ Effects;
         Commit {| eventName := "click"; handler := 2; element := None;
                   options := OptUndefined |} ]
       ++ [ Commit {| eventName := "click"; handler := 3; element := None;
                      options := OptUndefined |};
            Effects ])
    = Normal s /\
    (invoked (dispatch_along [Window; Document; Element 8] true
                {| ev_type := "click"; ev_detail := 0 |} (cell_hook (st_phase s)) (st_world s))
     = invoked (st_world s) ++ [(3, {| ev_type := "click"; ev_detail := 0 |})] /\
     registry (dispatch_along [Window; Document; Element 8] true
                 {| ev_type := "click"; ev_detail := 0 |} (cell_hook (st_phase s)) (st_world s))
     = registry (st_world s)) /\
    forall p', exists s',
      moment (Commit p') s = Normal s' /\
      invoked (dispatch_along [Window; Document; Element 8] true
                 {| ev_type := "click"; ev_detail := 0 |} (cell_hook (st_phase s')) (st_world s'))
      = invoked (st_world s') ++ [(3, {| ev_type := "click"; ev_detail := 0 |})].
Proof.
  eexists. split; [reflexivity|].
  apply (event_reaches_latest_handler ∅
    {| eventName := "click"; handler := 1; element := None; options := OptUndefined |}
    [ Effects;
      Commit {| eventName := "click"; handler := 2; element := None; options := OptUndefined |} ]
    {| eventName := "click"; handler := 3; element := None; options := OptUndefined |}
    _ {| c_target := Window; c_eventName := "click"; c_listener := {| fn_id := 0 |};
         c_options := OptUndefined |}
    [Window; Document; Element 8] true {| ev_type := "click"; ev_detail := 0 |});
    try reflexivity.
  repeat (apply NoDup_cons_2; [rewrite list_elem_of_In; cbn; intuition discriminate|]).
  apply NoDup_nil_2.
Defined.

(** ** An options object changed in place *)

Lemma same_listener_other_capture (r : Registration) :
  same_listener (r_target r) (r_type r) (r_callback r) (negb (r_capture r)) r = false.
Proof.
  unfold same_listener. rewrite Target_eqb_refl, String.eqb_refl, Listener_eqb_refl.
  now destruct (r_capture r).
Qed.

(** X20. When the options object the listener was attached with has its
    [capture] field changed in place afterwards, the cleanup does not
    detach: [removeEventListener] is called with the same object, reads the
    new flag and finds no such listener.  After unmount the listener is
    still on its target, and an event still reaches the handler. *)
Theorem changed_capture_keeps_the_listener_attached (rs : gmap nat Target) (p0 : Props)
    (o fields : AddEventListenerOptions) (bubbles : bool) (ev : Event) :
  options p0 = OptObject o ->
  has_addEventListener (resolve_target (element p0) (initial_world rs)) = true ->
  capture fields = negb (capture o) ->
  ev_type ev = eventName p0 ->
  exists s,
    timeline rs p0 [Effects; Mutate (opt_id o) fields; Remove; Effects] = Normal s /\
    mounted (st_phase s) = false /\
    trace (st_world s)
    = [ AddEventListener (resolve_target (element p0) (initial_world rs)) (eventName p0)
          {| fn_id := 0 |} (OptObject o);
        RemoveEventListener (resolve_target (element p0) (initial_world rs)) (eventName p0)
          {| fn_id := 0 |} (OptObject (reallocated fields (opt_id o))) ] /\
    registry (st_world s)
    = [ {| r_target := resolve_target (element p0) (initial_world rs);
           r_type := eventName p0; r_callback := {| fn_id := 0 |};
           r_capture := capture o; r_once := once o |} ] /\
    invoked (dispatch_along [resolve_target (element p0) (initial_world rs)] bubbles ev
               (cell_hook (st_phase s)) (st_world s))
    = [(handler p0, ev)].
Proof.
  intros Hopt Hcap Hflip Hty.
  destruct (first_effects rs p0) as (h0 & w0 & Hm & He & _ & _ & Hsaved & _).
  pose proof Hm as Hm'. rewrite (mount_capable rs p0 Hcap) in Hm'. injection Hm' as Hh0 Hw0.
  unfold timeline. cbn [moments]. rewrite He.
  cbn [cbind moment st_phase st_objects st_world run_passive_effects].
  unfold unmount. rewrite <- Hh0. cbn [live_hook destroy option_map run_destroy].
  unfold run_cleanup. cbn [live_cleanup c_target c_eventName c_listener c_options].
  rewrite Hopt. cbn [live_options observe]. rewrite lookup_insert_eq.
  change (reallocated (reallocated fields (opt_id o)) (opt_id o))
    with (reallocated fields (opt_id o)).
  unfold removeEventListener. rewrite Hcap. cbn [cbind].
  eexists. split; [reflexivity|]. cbn [st_phase st_world mounted cell_hook].
  split; [reflexivity|].
  assert (Hreg : remove_an_event_listener (resolve_target (element p0) (initial_world rs))
            (eventName p0) {| fn_id := 0 |}
            (OptObject (reallocated fields (opt_id o))) (registry w0)
          = [ {| r_target := resolve_target (element p0) (initial_world rs);
                 r_type := eventName p0; r_callback := {| fn_id := 0 |};
                 r_capture := capture o; r_once := once o |} ]).
  { pose proof (same_listener_other_capture
      {| r_target := resolve_target (element p0) (initial_world rs);
         r_type := eventName p0; r_callback := {| fn_id := 0 |};
         r_capture := capture o; r_once := once o |}) as Hother.
    cbn [r_target r_type r_callback r_capture] in Hother.
    rewrite <- Hw0, Hopt. unfold remove_an_event_listener.
    cbn [registry List.filter flatten flatten_once reallocated capture once].
    rewrite Hflip, Hother.
    reflexivity. }
  cbn [trace registry]. rewrite Hreg.
  split; [now rewrite <- Hw0, Hopt|]. split; [reflexivity|].
  erewrite dispatch_along_target by reflexivity.
  erewrite dispatchEvent_single by reflexivity.
  cbn [r_target r_type r_once savedHandler]. rewrite Target_eqb_refl, Hty, String.eqb_refl.
  cbn [andb]. rewrite <- Hw0. now destruct (once o).
Qed.

Lemma changed_capture_keeps_the_listener_attached_witness :
  exists s,
    timeline ∅
      {| eventName := "click"; handler := 1; element := None;
         options := OptObject {| opt_id := 4; capture := true; once := false;
                                 passive := false |} |}
      [ Effects;
        Mutate 4 {| opt_id := 4; capture := false; once := false; passive := false |};
        Remove; Effects ]
    = Normal s /\
    mounted (st_phase s) = false /\
    trace (st_world s)
    = [ AddEventListener Window "click" {| fn_id := 0 |}
          (OptObject {| opt_id := 4; capture := true; once := false; passive := false |});
        RemoveEventListener Window "click" {| fn_id := 0 |}
          (OptObject {| opt_id := 4; capture := false; once := false; passive := false |}) ] /\
    registry (st_world s)
    = [ {| r_target := Window; r_type := "click"; r_callback := {| fn_id := 0 |};
           r_capture := true; r_once := false |} ] /\
    invoked (dispatch_along [Window] true {| ev_type := "click"; ev_detail := 0 |}
               (cell_hook (st_phase s)) (st_world s))
    = [(1, {| ev_type := "click"; ev_detail := 0 |})].
Proof.
  exact (changed_capture_keeps_the_listener_attached ∅
    {| eventName := "click"; handler := 1; element := None;
       options := OptObject {| opt_id := 4; capture := true; once := false;
                               passive := false |} |}
    {| opt_id := 4; capture := true; once := false; passive := false |}
    {| opt_id := 4; capture := false; once := false; passive := false |}
    true {| ev_type := "click"; ev_detail := 0 |} eq_refl eq_refl eq_refl eq_refl).
Defined.


(** ** Histories are timelines

    A history of [Render], [SetRef] and [Dispatch] steps is the timeline in
    which the effects of every render run at once and every event visits
    one object: the properties proved on histories are properties of those
    timelines. *)

Lemma dispatch_along_one (t : Target) (bubbles : bool) (ev : Event) (h : Hook) (w : World) :
  registry_shape h w ->
  dispatch_along [t] bubbles ev h w = dispatchEvent t ev h w.
Proof.
  unfold registry_shape. destruct (destroy h) as [c|].
  - intros [Hr|[_ Hr]].
    + exact (dispatch_along_target t bubbles ev h w _ Hr).
    + now rewrite dispatch_along_empty, dispatchEvent_empty.
  - intros Hr. now rewrite dispatch_along_empty, dispatchEvent_empty.
Qed.

Lemma run_in_time (ss : list Step) (h : Hook) (objs : gmap nat AddEventListenerOptions)
    (w : World) :
  hook_inv h w -> registry_shape h w -> known_hook objs h ->
  unmutated objs (flat_map in_time ss) = true ->
  exists h' w' objs',
    run ss (h, w) = Normal (h', w') /\
    moments (flat_map in_time ss) {| st_phase := Settled h; st_objects := objs; st_world := w |}
    = Normal {| st_phase := Settled h'; st_objects := objs'; st_world := w' |}.
Proof.
  revert h objs w. induction ss as [|s ss IH]; intros h objs w Hinv Hsh Hkh Hms;
    cbn [flat_map run moments] in *; [eauto|].
  destruct s as [p|r v|t ev]; cbn [in_time app step cbind moments] in *.
  - cbn [unmutated] in Hms. apply andb_prop in Hms as [Hp Hms].
    cbn [moment st_phase st_objects st_world run_passive_effects cbind].
    pose proof (known_observe_self objs (options p)) as Hk.
    pose proof (known_hook_observe objs (options p) h Hp Hkh) as Hkh'.
    rewrite (live_props_known _ p Hk), (live_hook_known _ h Hkh').
    change (useEventListener p (Some h) w) with (update p h w).
    destruct (update_inv p h w Hinv) as (h1 & w1 & Hu & Hinv1 & _).
    rewrite Hu. cbn [cbind].
    apply IH; [exact Hinv1 | exact (update_shape p h w h1 w1 Hinv Hsh Hu) | | exact Hms].
    exact (update_known _ p h w h1 w1 Hk Hkh' Hu).
  - cbn [unmutated] in Hms. cbn [moment st_phase st_objects st_world cbind].
    apply IH; [now apply set_ref_inv | exact Hsh | exact Hkh | exact Hms].
  - cbn [unmutated] in Hms. cbn [moment st_phase st_objects st_world cbind cell_hook].
    rewrite (dispatch_along_one t false ev h w Hsh).
    apply IH; [now apply dispatchEvent_inv | now apply dispatchEvent_shape | exact Hkh
              | exact Hms].
Qed.

Lemma history_in_time (rs : gmap nat Target) (p0 : Props) (ss : list Step) :
  unmutated (observe (options p0) ∅) (flat_map in_time ss) = true ->
  exists h w s,
    history rs p0 ss = Normal (h, w) /\
    timeline rs p0 (Effects :: flat_map in_time ss) = Normal s /\
    st_phase s = Settled h /\ st_world s = w.
Proof.
  intros Hms.
  destruct (first_effects rs p0) as (h0 & w0 & Hm & He & Hinv & Hkh & _).
  destruct (run_in_time ss h0 _ w0 Hinv (mount_shape p0 rs h0 w0 Hm) Hkh Hms)
    as (h & w & objs & Hrun & Hmoments).
  exists h, w. eexists. unfold history, timeline. rewrite Hm. cbn [cbind moments].
  rewrite He. cbn [cbind]. rewrite Hmoments. auto.
Qed.

(** ** A [once] listener *)

Lemma run_keeps_binding_quiet (p0 : Props) (ss : list Step) (h : Hook) (w : World) :
  forallb (keeps_binding p0) ss = true ->
  areHookInputsEqual (deps_of p0) (deps_binding h) = true ->
  registry w = [] ->
  exists h' w',
    run ss (h, w) = Normal (h', w') /\
    invoked w' = invoked w /\ registry w' = [] /\ trace w' = trace w /\
    destroy h' = destroy h.
Proof.
  revert h w. induction ss as [|s ss IH]; intros h w Hall Hdeps Hreg; cbn [run].
  - eauto 10.
  - cbn [forallb] in Hall. apply andb_true_iff in Hall as [Hs Hall].
    destruct s as [p|r v|t ev]; cbn [step cbind keeps_binding] in *.
    + assert (Hsame : areHookInputsEqual (deps_binding h) (deps_of p) = true).
      { eapply areHookInputsEqual_trans; [|exact Hs]. now rewrite areHookInputsEqual_sym. }
      rewrite (update_same_deps p h w Hsame). cbn [cbind].
      match goal with |- context [run ss (?h1, w)] =>
        destruct (IH h1 w Hall Hs Hreg) as (h' & w' & Hr & Hi & Hr' & Ht & Hd)
      end.
      exists h', w'. auto.
    + apply (IH h (set_ref r v w) Hall Hdeps). exact Hreg.
    + rewrite (dispatchEvent_empty t ev h w Hreg). now apply IH.
Qed.

(** X5. With [once: true] in the options, only the first event of the
    bound type is delivered: every later event finds no listener, also when
    later renders supply new handlers, because the hook attaches again only
    when [eventName], [element] or [options] change. *)
Theorem once_listener_fires_once (rs : gmap nat Target) (p0 : Props) (ss : list Step)
    (ev : Event) :
  has_addEventListener (resolve_target (element p0) (initial_world rs)) = true ->
  flatten_once (options p0) = true ->
  ev_type ev = eventName p0 ->
  forallb (keeps_binding p0) ss = true ->
  exists h w,
    history rs p0 (Dispatch (resolve_target (element p0) (initial_world rs)) ev :: ss)
    = Normal (h, w) /\
    invoked w = [(handler p0, ev)] /\
    registry w = [] /\
    trace w = [AddEventListener (resolve_target (element p0) (initial_world rs))
                 (eventName p0) {| fn_id := 0 |} (options p0)].
Proof.
  intros Hcap Honce Hty Hall.
  unfold history. rewrite (mount_capable rs p0 Hcap). cbn [cbind run step].
  erewrite dispatchEvent_single by reflexivity.
  cbn [r_target r_type r_once]. rewrite Target_eqb_refl, Hty, String.eqb_refl, Honce.
  cbn [andb].
  match goal with |- context [run ss (?h0, ?w1)] =>
    destruct (run_keeps_binding_quiet p0 ss h0 w1 Hall) as (h & w & Hrun & Hi & Hr & Ht & _)
  end.
  - apply areHookInputsEqual_refl.
  - cbn [call_listener drop_registration registry List.filter r_target r_type r_callback
         r_capture].
    unfold same_listener. cbn [r_target r_type r_callback r_capture].
    rewrite Target_eqb_refl, String.eqb_refl, Listener_eqb_refl.
    now destruct (flatten (options p0)).
  - exists h, w. split; [exact Hrun|]. rewrite Hi, Hr, Ht. repeat split.
Qed.

Lemma once_listener_fires_once_witness :
  exists h w,
    history ∅
      {| eventName := "click"; handler := 1; element := None;
         options := OptObject {| opt_id := 0; capture := false; once := true;
                                 passive := false |} |}
      [ Dispatch Window {| ev_type := "click"; ev_detail := 0 |};
        Render {| eventName := "click"; handler := 2; element := None;
                  options := OptObject {| opt_id := 0; capture := false; once := true;
                                          passive := false |} |};
        Dispatch Window {| ev_type := "click"; ev_detail := 1 |} ]
    = Normal (h, w) /\
    invoked w = [(1, {| ev_type := "click"; ev_detail := 0 |})] /\
    registry w = [] /\
    trace w = [AddEventListener Window "click" {| fn_id := 0 |}
                 (OptObject {| opt_id := 0; capture := false; once := true;
                               passive := false |})].
Proof.
  exact (once_listener_fires_once ∅
    {| eventName := "click"; handler := 1; element := None;
       options := OptObject {| opt_id := 0; capture := false; once := true;
                               passive := false |} |}
    [ Render {| eventName := "click"; handler := 2; element := None;
                options := OptObject {| opt_id := 0; capture := false; once := true;
                                        passive := false |} |};
      Dispatch Window {| ev_type := "click"; ev_detail := 1 |} ]
    {| ev_type := "click"; ev_detail := 0 |} eq_refl eq_refl eq_refl eq_refl).
Defined.

(** ** Values that do not come back as themselves *)

Lemma image_members_keys (ps : list (JsString * JsValue)) (k : JsString) :
  In k (List.map fst (image_members JSON_image ps)) -> In k (List.map fst ps).
Proof.
  induction ps as [|[k' x] ps IH]; [auto|].
  cbn [image_members List.map fst].
  destruct x; cbn [List.map fst In]; tauto.
Qed.

Lemma image_members_NoDup (ps : list (JsString * JsValue)) :
  NoDup (List.map fst ps) -> NoDup (List.map fst (image_members JSON_image ps)).
Proof.
  induction ps as [|[k x] ps IH]; [auto|].
  cbn [List.map fst]. intros Hnd. apply NoDup_cons in Hnd as [Hk Hnd].
  assert (Hfresh : ~ In k (List.map fst (image_members JSON_image ps))).
  { intros Hin. apply Hk. apply list_elem_of_In. now apply image_members_keys. }
  cbn [image_members].
  destruct x; cbn [List.map fst]; try (apply NoDup_cons; split;
    [rewrite list_elem_of_In; exact Hfresh | now apply IH]).
  now apply IH.
Qed.

(** [JSON.stringify] of a storable value: no text for [undefined], and
    otherwise the text of the value's image, which is serializable. *)
Lemma SerializeJSONProperty_image (v : JsValue) :
  storable v = true ->
  SerializeJSONProperty v
  = Normal (match v with
            | VUndefined => None
            | _ => Some (json_text (JSON_image v))
            end) /\
  (v <> VUndefined -> serializable (JSON_image v) = true).
Proof.
  induction v as [| |b|n|z|s|elems IH|props IH] using JsValue_nested_ind;
    intros Hst; try discriminate.
  - split; [reflexivity | congruence].
  - split; reflexivity.
  - split; [now destruct b | reflexivity].
  - destruct n; split; try reflexivity; intros _; exact Hst.
  - split; [reflexivity | intros _; exact Hst].
  - cbn [storable] in Hst. cbn [SerializeJSONProperty JSON_image json_text serializable].
    assert (Hparts :
      (fix SerializeJSONArray (l : list JsValue) : Completion (list JsString) :=
         match l with
         | [] => Normal []
         | x :: l' =>
             let* sx := SerializeJSONProperty x in
             let* more := SerializeJSONArray l' in
             Normal (match sx with Some t => t | None => js "null" end :: more)
         end) elems
      = Normal (List.map json_text (List.map (image_element JSON_image) elems)) /\
      forallb serializable (List.map (image_element JSON_image) elems) = true).
    { induction elems as [|x xs IHxs]; [split; reflexivity|].
      apply Forall_cons in IH as [Hx Hxs].
      cbn [forallb] in Hst. apply andb_true_iff in Hst as [Hsx Hsxs].
      destruct (Hx Hsx) as [Htext Hser]. destruct (IHxs Hxs Hsxs) as [Hmore Hsers].
      rewrite Htext. cbn [cbind]. rewrite Hmore. cbn [cbind List.map forallb].
      rewrite Hsers, andb_true_r.
      destruct x; (split; [reflexivity|]); try (apply Hser; discriminate). reflexivity. }
    destruct Hparts as [-> Hsers]. split; [reflexivity | intros _; exact Hsers].
  - cbn [storable] in Hst. apply andb_true_iff in Hst as [Hst Hnodup].
    apply bool_decide_eq_true in Hnodup.
    cbn [SerializeJSONProperty JSON_image json_text serializable].
    assert (Hparts :
      (fix SerializeJSONObject (l : list (JsString * JsValue)) : Completion (list JsString) :=
         match l with
         | [] => Normal []
         | (k, x) :: l' =>
             let* sx := SerializeJSONProperty x in
             let* more := SerializeJSONObject l' in
             Normal (match sx with
                     | Some t => (QuoteJSONString k ++ 58%N :: t) :: more
                     | None => more
                     end)
         end) props
      = Normal (List.map (fun kv : JsString * JsValue =>
                            let '(k, x) := kv in QuoteJSONString k ++ 58%N :: json_text x)
                         (image_members JSON_image props)) /\
      forallb (fun kv : JsString * JsValue => let '(k, x) := kv in
                 wf_string k && serializable x) (image_members JSON_image props) = true).
    { clear Hnodup. induction props as [|[k x] ps IHps]; [split; reflexivity|].
      apply Forall_cons in IH as [Hx Hps]. cbn [snd] in Hx.
      cbn [forallb] in Hst. apply andb_true_iff in Hst as [Hkx Hsps].
      apply andb_true_iff in Hkx as [Hk Hsx].
      destruct (Hx Hsx) as [Htext Hser]. destruct (IHps Hps Hsps) as [Hmore Hsers].
      rewrite Htext. cbn [cbind]. rewrite Hmore. cbn [cbind image_members].
      destruct x; cbn [List.map forallb]; rewrite ?Hk, ?Hsers; cbn [andb];
        try (split; [reflexivity|]; rewrite andb_true_r; apply Hser; discriminate);
        try (split; [reflexivity|]; reflexivity). }
    destruct Hparts as [-> Hsers]. split; [reflexivity|]. intros _.
    rewrite Hsers. cbn [andb]. apply bool_decide_eq_true.
    now apply image_members_NoDup.
Qed.

(** A serializable value is its own image. *)
Lemma JSON_image_serializable (v : JsValue) :
  serializable v = true -> JSON_image v = v.
Proof.
  induction v as [| |b|n|z|s|elems IH|props IH] using JsValue_nested_ind;
    intros Hser; try discriminate; try reflexivity.
  - destruct n; try discriminate; reflexivity.
  - cbn [serializable] in Hser. cbn [JSON_image]. f_equal.
    induction elems as [|x xs IHxs]; [reflexivity|].
    apply Forall_cons in IH as [Hx Hxs].
    cbn [forallb] in Hser. apply andb_true_iff in Hser as [Hsx Hsxs].
    cbn [List.map]. rewrite (IHxs Hxs Hsxs). f_equal.
    destruct x; try discriminate; cbn [image_element]; now apply Hx.
  - cbn [serializable] in Hser. apply andb_true_iff in Hser as [Hser _].
    cbn [JSON_image]. f_equal.
    induction props as [|[k x] ps IHps]; [reflexivity|].
    apply Forall_cons in IH as [Hx Hps]. cbn [snd] in Hx.
    cbn [forallb] in Hser. apply andb_true_iff in Hser as [Hkx Hsps].
    apply andb_true_iff in Hkx as [_ Hsx].
    cbn [image_members]. rewrite (IHps Hps Hsps).
    destruct x; try discriminate; f_equal; f_equal; now apply Hx.
Qed.

(** X6. What the getter returns after the setter, for any value the setter
    accepts other than [undefined]: the value with [NaN] and the infinities
    replaced by [null], [-0] by [0], [undefined] array elements by [null],
    and [undefined] properties left out.  Nothing is logged. *)
Theorem storage_returns_the_json_image (a : Area) (key : JsString) (v : JsValue)
    (pg : Page) :
  storable v = true ->
  v <> VUndefined ->
  denied (area a pg) = false ->
  Storage_fits key (json_text (JSON_image v)) (area a pg) = true ->
  exists pg1,
    setter a key v pg = (Normal tt, pg1) /\
    getter a key pg1 = (Normal (JSON_image v), pg1) /\
    console pg1 = console pg.
Proof.
  intros Hst Hv Hden Hfits.
  destruct (SerializeJSONProperty_image v Hst) as [Htext Hser].
  destruct (JSON_parse_stringify (JSON_image v) (Hser Hv)) as [_ Hparse].
  assert (Hstr : JSON_stringify v = Normal (Some (json_text (JSON_image v)))).
  { unfold JSON_stringify. rewrite Htext. destruct v; congruence. }
  eexists. split.
  { rewrite setter_eq, Hden, Hstr. cbn [ToString]. rewrite Hfits. reflexivity. }
  split.
  - rewrite getter_eq, area_set_area. cbn [denied items]. rewrite ?Hden.
    rewrite lookup_insert_eq, Hparse. reflexivity.
  - now rewrite console_set_area.
Qed.

Lemma storage_returns_the_json_image_witness :
  exists pg1,
    setter LocalArea (js "k")
      (VObject [(js "a", VNumber NaN); (js "b", VUndefined);
                (js "c", VArray [VUndefined; VNumber NegZero])]) (empty_page 100)
    = (Normal tt, pg1) /\
    getter LocalArea (js "k") pg1
    = (Normal (VObject [(js "a", VNull); (js "c", VArray [VNull; VNumber (Integer 0)])]),
       pg1) /\
    console pg1 = console (empty_page 100).
Proof.
  exact (storage_returns_the_json_image LocalArea (js "k")
    (VObject [(js "a", VNumber NaN); (js "b", VUndefined);
              (js "c", VArray [VUndefined; VNumber NegZero])]) (empty_page 100)
    eq_refl ltac:(discriminate) eq_refl eq_refl).
Defined.

(** ** How the storage operations compose *)

Lemma area_with_console (a : Area) (pg : Page) (es : list ConsoleEntry) :
  area a (with_console pg es) = area a pg.
Proof. now destruct a. Qed.

Lemma area_set_area_other (a a' : Area) (st : Storage) (pg : Page) :
  a' <> a -> area a' (set_area a st pg) = area a' pg.
Proof. destruct a, a'; intros Hne; try reflexivity; congruence. Qed.

(** What the getter returns depends on the entry of its key and on the
    access to its area, and on nothing else. *)
Lemma getter_value (a : Area) (key : JsString) (pg pg' : Page) :
  denied (area a pg') = denied (area a pg) ->
  items (area a pg') !! key = items (area a pg) !! key ->
  fst (getter a key pg') = fst (getter a key pg).
Proof.
  intros Hden Hitem. rewrite !getter_eq, Hden, Hitem.
  destruct (denied (area a pg)); [reflexivity|].
  destruct (items (area a pg) !! key) as [text|]; [|reflexivity].
  destruct (JSON_parse text); reflexivity.
Qed.

(** The setter never throws; it leaves the access to every area and the
    room for its own key as they were. *)
Lemma setter_keeps_room (a : Area) (key : JsString) (v : JsValue) (pg : Page) :
  exists pg1,
    setter a key v pg = (Normal tt, pg1) /\
    denied (area a pg1) = denied (area a pg) /\
    forall text, Storage_fits key text (area a pg1) = Storage_fits key text (area a pg).
Proof.
  rewrite setter_eq. destruct (denied (area a pg)) eqn:Hden.
  { eexists. split; [reflexivity|]. now rewrite area_with_console. }
  destruct (JSON_stringify v) as [text|e].
  - destruct (Storage_fits key (ToString text) (area a pg)).
    + eexists. split; [reflexivity|]. rewrite area_set_area. cbn [denied].
      split; [reflexivity|]. intros t. unfold Storage_fits. cbn [items quota].
      now rewrite delete_insert_eq.
    + eexists. split; [reflexivity|]. now rewrite area_with_console.
  - eexists. split; [reflexivity|]. now rewrite area_with_console.
Qed.

(** X7. The last write wins, whatever the write before it was given and
    whether or not it succeeded: after two calls of the setter on one key,
    the getter returns the second value. *)
Theorem last_write_wins (a : Area) (key : JsString) (v1 v2 : JsValue) (pg : Page) :
  serializable v2 = true ->
  denied (area a pg) = false ->
  Storage_fits key (json_text v2) (area a pg) = true ->
  exists pg1 pg2,
    setter a key v1 pg = (Normal tt, pg1) /\
    setter a key v2 pg1 = (Normal tt, pg2) /\
    getter a key pg2 = (Normal v2, pg2).
Proof.
  intros Hser Hden Hfits.
  destruct (setter_keeps_room a key v1 pg) as (pg1 & Hset1 & Hden1 & Hroom).
  destruct (JSON_parse_stringify v2 Hser) as [Hstr Hparse].
  exists pg1. eexists. split; [exact Hset1|]. split.
  - rewrite setter_eq, Hden1, Hden, Hstr. cbn [ToString]. rewrite Hroom, Hfits. reflexivity.
  - rewrite getter_eq, area_set_area. cbn [denied items]. rewrite ?Hden1, ?Hden.
    rewrite lookup_insert_eq, Hparse. reflexivity.
Qed.

Lemma last_write_wins_witness :
  exists pg1 pg2,
    setter SessionArea (js "count") (VBigInt 5) (empty_page 100) = (Normal tt, pg1) /\
    setter SessionArea (js "count") (VNumber (Integer 6)) pg1 = (Normal tt, pg2) /\
    getter SessionArea (js "count") pg2 = (Normal (VNumber (Integer 6)), pg2).
Proof.
  exact (last_write_wins SessionArea (js "count") (VBigInt 5) (VNumber (Integer 6))
           (empty_page 100) eq_refl eq_refl eq_refl).
Defined.

Lemma Area_eq_dec (a b : Area) : {a = b} + {a <> b}.
Proof. decide equality. Qed.

(** X8. The setter and the remover of one key of one area do not change
    what the getter returns for another key, or for the same key in the
    other area: [localStorage] and [sessionStorage] are separate, and so
    are the keys. *)
Theorem other_entries_are_untouched (a a' : Area) (key key' : JsString) (v : JsValue)
    (pg : Page) :
  a' <> a \/ key' <> key ->
  fst (getter a' key' (snd (setter a key v pg))) = fst (getter a' key' pg) /\
  fst (getter a' key' (snd (remover a key pg))) = fst (getter a' key' pg).
Proof.
  intros Hother. split.
  - rewrite setter_eq.
    destruct (denied (area a pg)) eqn:Hden;
      [cbn [snd]; apply getter_value; now rewrite area_with_console|].
    destruct (JSON_stringify v) as [text|e];
      [|cbn [snd]; apply getter_value; now rewrite area_with_console].
    destruct (Storage_fits key (ToString text) (area a pg));
      [|cbn [snd]; apply getter_value; now rewrite area_with_console].
    cbn [snd]. destruct (Area_eq_dec a' a) as [->|Hne].
    + destruct Hother as [Ha|Hk]; [congruence|].
      apply getter_value; rewrite area_set_area; cbn [denied items]; [now rewrite ?Hden|].
      apply lookup_insert_ne. congruence.
    + apply getter_value; now rewrite (area_set_area_other a a' _ pg Hne).
  - rewrite remover_eq.
    destruct (denied (area a pg)) eqn:Hden;
      [cbn [snd]; apply getter_value; now rewrite area_with_console|].
    cbn [snd]. destruct (Area_eq_dec a' a) as [->|Hne].
    + destruct Hother as [Ha|Hk]; [congruence|].
      apply getter_value; rewrite area_set_area; cbn [denied items]; [now rewrite ?Hden|].
      apply lookup_delete_ne. congruence.
    + apply getter_value; now rewrite (area_set_area_other a a' _ pg Hne).
Qed.

Lemma other_entries_are_untouched_witness :
  fst (getter LocalArea (js "token")
         (snd (setter SessionArea (js "token") (VBool true) (empty_page 100))))
  = fst (getter LocalArea (js "token") (empty_page 100)) /\
  fst (getter LocalArea (js "token") (snd (remover SessionArea (js "token") (empty_page 100))))
  = fst (getter LocalArea (js "token") (empty_page 100)).
Proof.
  apply (other_entries_are_untouched SessionArea LocalArea (js "token") (js "token")
           (VBool true) (empty_page 100)).
  left. discriminate.
Defined.

(** X9. Storing [undefined] does not clear the entry: [JSON.stringify]
    returns [undefined], [setItem] stores its string conversion, the nine
    characters of the word, and every later read fails to parse them, logs
    the SyntaxError and returns [undefined]. *)
Theorem storing_undefined_leaves_an_unreadable_entry (a : Area) (key : JsString)
    (pg : Page) :
  denied (area a pg) = false ->
  Storage_fits key (js "undefined") (area a pg) = true ->
  exists pg1,
    setter a key VUndefined pg = (Normal tt, pg1) /\
    items (area a pg1) !! key = Some (js "undefined") /\
    console pg1 = console pg /\
    getter a key pg1 = (Normal VUndefined, with_console pg1 [logged a SyntaxError]) /\
    getter a key (with_console pg1 [logged a SyntaxError])
    = (Normal VUndefined,
       with_console (with_console pg1 [logged a SyntaxError]) [logged a SyntaxError]).
Proof.
  intros Hden Hfits. eexists. split.
  { rewrite setter_eq, Hden. cbn [JSON_stringify SerializeJSONProperty ToString].
    rewrite Hfits. reflexivity. }
  rewrite !getter_eq, !area_with_console, !area_set_area, console_set_area.
  cbn [denied items]. rewrite ?Hden, lookup_insert_eq.
  change (JSON_parse (js "undefined")) with (@Throw JsValue SyntaxError).
  repeat split.
Qed.

Lemma storing_undefined_leaves_an_unreadable_entry_witness :
  exists pg1,
    setter LocalArea (js "token") VUndefined (empty_page 100) = (Normal tt, pg1) /\
    items (area LocalArea pg1) !! js "token" = Some (js "undefined") /\
    console pg1 = console (empty_page 100) /\
    getter LocalArea (js "token") pg1
    = (Normal VUndefined, with_console pg1 [logged LocalArea SyntaxError]) /\
    getter LocalArea (js "token") (with_console pg1 [logged LocalArea SyntaxError])
    = (Normal VUndefined,
       with_console (with_console pg1 [logged LocalArea SyntaxError])
         [logged LocalArea SyntaxError]).
Proof.
  exact (storing_undefined_leaves_an_unreadable_entry LocalArea (js "token")
           (empty_page 100) eq_refl eq_refl).
Defined.

(** ** A value with a BigInt in it *)

Lemma SerializeJSONProperty_BigInt (v : JsValue) :
  if has_BigInt v then SerializeJSONProperty v = Throw TypeError
  else exists r, SerializeJSONProperty v = Normal r.
Proof.
  induction v as [| |b|n|z|s|elems IH|props IH] using JsValue_nested_ind;
    cbn [has_BigInt]; try (eexists; reflexivity); try reflexivity.
  - destruct b; eexists; reflexivity.
  - destruct n; eexists; reflexivity.
  - cbn [SerializeJSONProperty].
    assert (Hparts :
      if existsb has_BigInt elems then
        (fix SerializeJSONArray (l : list JsValue) : Completion (list JsString) :=
           match l with
           | [] => Normal []
           | x :: l' =>
               let* sx := SerializeJSONProperty x in
               let* more := SerializeJSONArray l' in
               Normal (match sx with Some t => t | None => js "null" end :: more)
           end) elems = Throw TypeError
      else exists parts,
        (fix SerializeJSONArray (l : list JsValue) : Completion (list JsString) :=
           match l with
           | [] => Normal []
           | x :: l' =>
               let* sx := SerializeJSONProperty x in
               let* more := SerializeJSONArray l' in
               Normal (match sx with Some t => t | None => js "null" end :: more)
           end) elems = Normal parts).
    { induction elems as [|x xs IHxs]; [eexists; reflexivity|].
      apply Forall_cons in IH as [Hx Hxs]. specialize (IHxs Hxs). cbn [existsb].
      destruct (has_BigInt x); cbn [orb].
      - now rewrite Hx.
      - destruct Hx as [sx ->]. cbn [cbind].
        destruct (existsb has_BigInt xs).
        + now rewrite IHxs.
        + destruct IHxs as [more ->]. eexists. reflexivity. }
    destruct (existsb has_BigInt elems).
    + now rewrite Hparts.
    + destruct Hparts as [parts ->]. eexists. reflexivity.
  - cbn [SerializeJSONProperty].
    assert (Hparts :
      if existsb (fun kv => has_BigInt (snd kv)) props then
        (fix SerializeJSONObject (l : list (JsString * JsValue))
           : Completion (list JsString) :=
           match l with
           | [] => Normal []
           | (k, x) :: l' =>
               let* sx := SerializeJSONProperty x in
               let* more := SerializeJSONObject l' in
               Normal (match sx with
                       | Some t => (QuoteJSONString k ++ 58%N :: t) :: more
                       | None => more
                       end)
           end) props = Throw TypeError
      else exists parts,
        (fix SerializeJSONObject (l : list (JsString * JsValue))
           : Completion (list JsString) :=
           match l with
           | [] => Normal []
           | (k, x) :: l' =>
               let* sx := SerializeJSONProperty x in
               let* more := SerializeJSONObject l' in
               Normal (match sx with
                       | Some t => (QuoteJSONString k ++ 58%N :: t) :: more
                       | None => more
                       end)
           end) props = Normal parts).
    { induction props as [|[k x] ps IHps]; [eexists; reflexivity|].
      apply Forall_cons in IH as [Hx Hps]. cbn [snd] in Hx. specialize (IHps Hps).
      cbn [existsb snd].
      destruct (has_BigInt x); cbn [orb].
      - now rewrite Hx.
      - destruct Hx as [sx ->]. cbn [cbind].
        destruct (existsb (fun kv => has_BigInt (snd kv)) ps).
        + now rewrite IHps.
        + destruct IHps as [more ->]. eexists. reflexivity. }
    destruct (existsb (fun kv => has_BigInt (snd kv)) props).
    + now rewrite Hparts.
    + destruct Hparts as [parts ->]. eexists. reflexivity.
Qed.

(** X10. A value with a BigInt anywhere in it is not stored: the setter
    logs the TypeError of [JSON.stringify] and the entry keeps what it held,
    so the getter returns the value of before. *)
Theorem value_with_BigInt_is_not_stored (a : Area) (key : JsString) (v : JsValue)
    (pg : Page) :
  has_BigInt v = true ->
  denied (area a pg) = false ->
  setter a key v pg = (Normal tt, with_console pg [logged a TypeError]) /\
  fst (getter a key (with_console pg [logged a TypeError])) = fst (getter a key pg).
Proof.
  intros Hbig Hden. pose proof (SerializeJSONProperty_BigInt v) as Hthrow.
  rewrite Hbig in Hthrow. split.
  - rewrite setter_eq, Hden. unfold JSON_stringify. now rewrite Hthrow.
  - apply getter_value; now rewrite area_with_console.
Qed.

Lemma value_with_BigInt_is_not_stored_witness :
  setter LocalArea (js "k") (VArray [VNumber (Integer 1); VObject [(js "n", VBigInt 2)]])
    (empty_page 100)
  = (Normal tt, with_console (empty_page 100) [logged LocalArea TypeError]) /\
  fst (getter LocalArea (js "k") (with_console (empty_page 100) [logged LocalArea TypeError]))
  = fst (getter LocalArea (js "k") (empty_page 100)).
Proof.
  exact (value_with_BigInt_is_not_stored LocalArea (js "k")
           (VArray [VNumber (Integer 1); VObject [(js "n", VBigInt 2)]]) (empty_page 100)
           eq_refl eq_refl).
Defined.

(** ** The demo components of the storage hooks *)

Lemma on_page_run {A : Type} (m : JsM A) (b : Browser) :
  on_page m b
  = (fst (m (page b)),
     {| page := snd (m (page b)); alerts := alerts b; logged_values := logged_values b |}).
Proof. unfold on_page. now destruct (m (page b)). Qed.

Lemma Storage_fits_shorter (key t1 t2 : JsString) (st : Storage) :
  Storage_fits key t1 st = true -> List.length t2 <= List.length t1 ->
  Storage_fits key t2 st = true.
Proof.
  unfold Storage_fits. intros Hfits Hlen.
  apply Nat.leb_le in Hfits. apply Nat.leb_le. lia.
Qed.

Lemma setter_stores (a : Area) (key : JsString) (v : JsValue) (pg : Page) :
  serializable v = true ->
  denied (area a pg) = false ->
  Storage_fits key (json_text v) (area a pg) = true ->
  setter a key v pg
  = (Normal tt,
     set_area a {| items := <[key := json_text v]> (items (area a pg));
                   quota := quota (area a pg); denied := false |} pg).
Proof.
  intros Hser Hden Hfits. destruct (JSON_parse_stringify v Hser) as [Hstr _].
  rewrite setter_eq, Hden, Hstr. cbn [ToString]. now rewrite Hfits.
Qed.

Lemma getter_reads (a : Area) (key : JsString) (v : JsValue) (pg : Page) :
  serializable v = true ->
  denied (area a pg) = false ->
  items (area a pg) !! key = Some (json_text v) ->
  getter a key pg = (Normal v, pg).
Proof.
  intros Hser Hden Hitem. destruct (JSON_parse_stringify v Hser) as [_ Hparse].
  now rewrite getter_eq, Hden, Hitem, Hparse.
Qed.

Lemma getter_absent (a : Area) (key : JsString) (pg : Page) :
  denied (area a pg) = false ->
  items (area a pg) !! key = None ->
  getter a key pg = (Normal VUndefined, pg).
Proof. intros Hden Hitem. now rewrite getter_eq, Hden, Hitem. Qed.

Lemma rem_2_even (n : Z) : (Z.rem n 2 =? 0)%Z = Z.even n.
Proof.
  pose proof (Z.quot_rem' n 2) as Hn.
  pose proof (Z.rem_bound_abs n 2 ltac:(lia)) as Hb.
  rewrite Hn at 2. rewrite Z.add_comm, Z.even_add_mul_2.
  assert (Hcases : Z.rem n 2 = (-1)%Z \/ Z.rem n 2 = 0%Z \/ Z.rem n 2 = 1%Z) by lia.
  destruct Hcases as [->|[->| ->]]; reflexivity.
Qed.

Lemma ToBoolean_remainder_2 (n : Z) :
  ToBoolean (VNumber (remainder_integers n 2)) = Z.odd n.
Proof.
  unfold remainder_integers. cbn [Z.eqb]. rewrite <- Z.negb_even, <- rem_2_even.
  destruct (Z.rem n 2 =? 0)%Z eqn:Hr; [now destruct (n <? 0)%Z|].
  cbn [ToBoolean]. now rewrite Hr.
Qed.

(** X11. UsageLocalStorage: after a click on "Set Item", "Show Item"
    alerts the boolean that was stored, [true] when the number drawn was
    odd; after a click on "Remove Item" it alerts [undefined].  No click
    throws or logs. *)
Theorem token_buttons_show_what_was_set (rounded : Z) (b : Browser) :
  denied (localStorage (page b)) = false ->
  Storage_fits TOKEN_KEY (js "false") (localStorage (page b)) = true ->
  exists b1 b2 b3 b4,
    set_item_onClick UsageLocalStorage rounded b = (Normal tt, b1) /\
    show_item_onClick UsageLocalStorage b1 = (Normal tt, b2) /\
    alerts b2 = alerts b ++ [if Z.odd rounded then js "true" else js "false"] /\
    remove_item_onClick UsageLocalStorage b2 = (Normal tt, b3) /\
    show_item_onClick UsageLocalStorage b3 = (Normal tt, b4) /\
    alerts b4 = alerts b2 ++ [js "undefined"] /\
    console (page b4) = console (page b).
Proof.
  intros Hden Hfits.
  change (set_item_onClick UsageLocalStorage rounded)
    with (on_page (setter LocalArea TOKEN_KEY
            (VBool (ToBoolean (VNumber (remainder_integers rounded 2)))))).
  change (show_item_onClick UsageLocalStorage)
    with (bind_b (on_page (getter LocalArea TOKEN_KEY)) alert).
  change (remove_item_onClick UsageLocalStorage)
    with (on_page (remover LocalArea TOKEN_KEY)).
  rewrite ToBoolean_remainder_2.
  assert (Hfit : Storage_fits TOKEN_KEY (json_text (VBool (Z.odd rounded)))
                   (area LocalArea (page b)) = true).
  { apply (Storage_fits_shorter _ _ _ _ Hfits).
    destruct (Z.odd rounded); [apply Nat.lt_le_incl|]; apply Nat.leb_le; reflexivity. }
  do 4 eexists. split.
  { rewrite on_page_run, (setter_stores LocalArea TOKEN_KEY (VBool (Z.odd rounded)) (page b)
      eq_refl Hden Hfit). reflexivity. }
  split.
  { unfold bind_b. rewrite on_page_run. cbn [page].
    rewrite (getter_reads LocalArea TOKEN_KEY (VBool (Z.odd rounded)));
      [reflexivity | reflexivity | reflexivity | cbn [area set_area localStorage items];
       apply lookup_insert_eq]. }
  split.
  { cbn [alerts fst snd]. now destruct (Z.odd rounded). }
  split.
  { rewrite on_page_run. cbn [page fst snd]. rewrite remover_eq. reflexivity. }
  split.
  { unfold bind_b. rewrite on_page_run. cbn [page fst snd area set_area localStorage
      denied items].
    rewrite (getter_absent LocalArea TOKEN_KEY);
      [reflexivity | reflexivity | cbn [area localStorage items]; apply lookup_delete_eq]. }
  split; reflexivity.
Qed.

Lemma token_buttons_show_what_was_set_witness :
  exists b1 b2 b3 b4,
    set_item_onClick UsageLocalStorage 7 (empty_browser 100) = (Normal tt, b1) /\
    show_item_onClick UsageLocalStorage b1 = (Normal tt, b2) /\
    alerts b2 = alerts (empty_browser 100) ++ [js "true"] /\
    remove_item_onClick UsageLocalStorage b2 = (Normal tt, b3) /\
    show_item_onClick UsageLocalStorage b3 = (Normal tt, b4) /\
    alerts b4 = alerts b2 ++ [js "undefined"] /\
    console (page b4) = console (page (empty_browser 100)).
Proof.
  exact (token_buttons_show_what_was_set 7 (empty_browser 100) eq_refl eq_refl).
Defined.

(** ** The counter of UsageSessionStorage *)

Lemma count_read (b : Browser) (n : Z) :
  count_is b n ->
  exists v,
    getter SessionArea COUNT_KEY (page b) = (Normal v, page b) /\
    logical_or v (VNumber (Integer 0)) = VNumber (Integer n).
Proof.
  intros [Hden [Hsome|[-> Hnone]]].
  - exists (VNumber (Integer n)). split.
    + now apply (getter_reads SessionArea COUNT_KEY (VNumber (Integer n))).
    + unfold logical_or. cbn [ToBoolean].
      destruct (Z.eqb_spec n 0) as [->|]; reflexivity.
  - exists VUndefined. split; [now apply getter_absent | reflexivity].
Qed.

Lemma count_write (b : Browser) (n : Z) :
  denied (sessionStorage (page b)) = false ->
  Storage_fits COUNT_KEY (Number_toString (Integer n)) (sessionStorage (page b)) = true ->
  exists b',
    on_page (setter SessionArea COUNT_KEY (VNumber (Integer n))) b = (Normal tt, b') /\
    count_is b' n /\
    items (sessionStorage (page b')) !! COUNT_KEY = Some (Number_toString (Integer n)) /\
    (forall text, Storage_fits COUNT_KEY text (sessionStorage (page b'))
                  = Storage_fits COUNT_KEY text (sessionStorage (page b))) /\
    alerts b' = alerts b /\ logged_values b' = logged_values b /\
    console (page b') = console (page b) /\
    localStorage (page b') = localStorage (page b).
Proof.
  intros Hden Hfits. eexists. split.
  { rewrite on_page_run,
      (setter_stores SessionArea COUNT_KEY (VNumber (Integer n)) (page b) eq_refl Hden Hfits).
    reflexivity. }
  cbn [page alerts logged_values fst snd set_area area sessionStorage localStorage console
       items denied].
  assert (Hitem : <[COUNT_KEY := json_text (VNumber (Integer n))]>
                    (items (sessionStorage (page b))) !! COUNT_KEY
                  = Some (Number_toString (Integer n))) by apply lookup_insert_eq.
  split; [split; [reflexivity | left; exact Hitem]|].
  split; [exact Hitem|].
  split; [|repeat split].
  intros text. unfold Storage_fits. cbn [items quota]. now rewrite delete_insert_eq.
Qed.

Section Counting.

Variable binary_plus : JsValue -> JsValue -> Completion JsValue.
Variable binary_minus : JsValue -> JsValue -> Completion JsValue.

Hypothesis plus_safe_integers : forall x y : Z,
  safe_integer x -> safe_integer y -> safe_integer (x + y) ->
  binary_plus (VNumber (Integer x)) (VNumber (Integer y)) = Normal (VNumber (Integer (x + y))).

Hypothesis minus_safe_integers : forall x y : Z,
  safe_integer x -> safe_integer y -> safe_integer (x - y) ->
  binary_minus (VNumber (Integer x)) (VNumber (Integer y)) = Normal (VNumber (Integer (x - y))).

Lemma safe_integer_1 : safe_integer 1.
Proof. unfold safe_integer. cbn. lia. Qed.

Lemma click_button (c : bool) (b : Browser) (n : Z) :
  count_is b n ->
  safe_integer n -> safe_integer (n + (if c then 1 else -1)) ->
  Storage_fits COUNT_KEY (Number_toString (Integer (n + (if c then 1 else -1))))
    (sessionStorage (page b)) = true ->
  exists b',
    (if c then handleIncrement (UsageSessionStorage binary_plus binary_minus)
     else handleDecrement (UsageSessionStorage binary_plus binary_minus)) b
    = (Normal tt, b') /\
    count_is b' (n + (if c then 1 else -1)) /\
    items (sessionStorage (page b')) !! COUNT_KEY
    = Some (Number_toString (Integer (n + (if c then 1 else -1)))) /\
    (forall text, Storage_fits COUNT_KEY text (sessionStorage (page b'))
                  = Storage_fits COUNT_KEY text (sessionStorage (page b))) /\
    alerts b' = alerts b /\ logged_values b' = logged_values b /\
    console (page b') = console (page b) /\
    localStorage (page b') = localStorage (page b).
Proof.
  intros Hcount Hn Hnext Hfits.
  destruct (count_read b n Hcount) as (v & Hget & Hor).
  destruct (count_write b _ (proj1 Hcount) Hfits) as (b' & Hset & Hrest).
  exists b'. split; [|exact Hrest].
  destruct c.
  - change (handleIncrement (UsageSessionStorage binary_plus binary_minus))
      with (bind_b (on_page (getter SessionArea COUNT_KEY)) (fun count =>
              bind_b (lift_b (binary_plus (logical_or count (VNumber (Integer 0)))
                                (VNumber (Integer 1))))
                (fun next => on_page (setter SessionArea COUNT_KEY next)))).
    unfold bind_b at 1. rewrite on_page_run, Hget. cbn [fst snd]. rewrite Hor.
    unfold bind_b, lift_b. rewrite (plus_safe_integers n 1 Hn safe_integer_1 Hnext).
    destruct b. exact Hset.
  - change (handleDecrement (UsageSessionStorage binary_plus binary_minus))
      with (bind_b (on_page (getter SessionArea COUNT_KEY)) (fun count =>
              bind_b (lift_b (binary_minus (logical_or count (VNumber (Integer 0)))
                                (VNumber (Integer 1))))
                (fun next => on_page (setter SessionArea COUNT_KEY next)))).
    unfold bind_b at 1. rewrite on_page_run, Hget. cbn [fst snd]. rewrite Hor.
    unfold bind_b, lift_b.
    replace (n + -1)%Z with (n - 1)%Z in * by lia.
    rewrite (minus_safe_integers n 1 Hn safe_integer_1 Hnext).
    destruct b. exact Hset.
Qed.

Lemma tally_bound (clicks : list bool) :
  (Z.abs (tally clicks) <= Z.of_nat (List.length clicks))%Z.
Proof.
  induction clicks as [|[|] cs IH]; cbn [tally List.length]; lia.
Qed.

Lemma click_buttons_count (clicks : list bool) (b : Browser) (n : Z) :
  count_is b n ->
  (Z.abs n + Z.of_nat (List.length clicks) <= 2 ^ 53 - 1)%Z ->
  (forall z, (Z.abs (z - n) <= Z.of_nat (List.length clicks))%Z ->
             Storage_fits COUNT_KEY (Number_toString (Integer z))
               (sessionStorage (page b)) = true) ->
  exists b',
    click_buttons binary_plus binary_minus clicks b = (Normal tt, b') /\
    count_is b' (n + tally clicks) /\
    (clicks <> [] -> items (sessionStorage (page b')) !! COUNT_KEY
                     = Some (Number_toString (Integer (n + tally clicks)))) /\
    alerts b' = alerts b /\ logged_values b' = logged_values b /\
    console (page b') = console (page b) /\
    localStorage (page b') = localStorage (page b).
Proof.
  revert b n. induction clicks as [|c cs IH]; intros b n Hcount Hsafe Hroom.
  - exists b. cbn [click_buttons tally]. rewrite Z.add_0_r.
    split; [reflexivity|]. split; [exact Hcount|]. split; [congruence|]. repeat split.
  - cbn [List.length] in Hsafe, Hroom.
    assert (Hstep : (Z.abs (if c then 1 else -1) = 1)%Z) by now destruct c.
    destruct (click_button c b n Hcount) as (b1 & Hclick & Hcount1 & Hitem1 & Hfits1 & Ha & Hl
                                              & Hc & Hls).
    { unfold safe_integer. lia. }
    { unfold safe_integer. lia. }
    { apply Hroom. lia. }
    destruct (IH b1 (n + (if c then 1 else -1))%Z Hcount1) as (b' & Hrun & Hcount' & Hitem'
                                                               & Ha' & Hl' & Hc' & Hls').
    { lia. }
    { intros z Hz. rewrite Hfits1. apply Hroom. lia. }
    exists b'. cbn [click_buttons]. unfold bind_b at 1. rewrite Hclick.
    replace (n + tally (c :: cs))%Z with (n + (if c then 1 else -1) + tally cs)%Z
      by (destruct c; cbn [tally]; lia).
    split; [exact Hrun|]. split; [exact Hcount'|].
    split.
    + intros _. destruct cs as [|c' cs'].
      * cbn [click_buttons] in Hrun. injection Hrun as <-.
        cbn [tally]. rewrite Z.add_0_r. exact Hitem1.
      * apply Hitem'. discriminate.
    + repeat split; congruence.
Qed.

Lemma handleShow_run (b : Browser) (v : JsValue) :
  getter SessionArea COUNT_KEY (page b) = (Normal v, page b) ->
  handleShow (UsageSessionStorage binary_plus binary_minus) b
  = (Normal tt,
     {| page := page b;
        alerts := alerts b
                  ++ [js "The current count is "
                      ++ ToString_value
                           (nullish_coalescing v (VString undefined_count_message))];
        logged_values := logged_values b ++ [[v; VString (js "getSessionCount")]] |}).
Proof.
  intros Hget.
  change (handleShow (UsageSessionStorage binary_plus binary_minus))
    with (bind_b (on_page (getter SessionArea COUNT_KEY)) (fun count =>
            bind_b (alert (VString (js "The current count is "
                      ++ ToString_value
                           (nullish_coalescing count (VString undefined_count_message)))))
              (fun _ => bind_b (on_page (getter SessionArea COUNT_KEY)) (fun count' =>
                 window_console_log_values [count'; VString (js "getSessionCount")])))).
  unfold bind_b at 1. rewrite on_page_run, Hget. cbn [fst snd].
  unfold bind_b at 1. unfold alert at 1. cbn beta iota.
  unfold bind_b. rewrite on_page_run. cbn [page]. rewrite Hget. reflexivity.
Qed.

(** X12. UsageSessionStorage: starting without an entry, after any
    sequence of clicks on Increment and Decrement the Show button alerts
    the number of increments minus the number of decrements, also when that
    number is 0; the clicks themselves alert and log nothing. *)
Theorem counter_shows_increments_minus_decrements (clicks : list bool) (b : Browser) :
  denied (sessionStorage (page b)) = false ->
  items (sessionStorage (page b)) !! COUNT_KEY = None ->
  clicks <> [] ->
  (Z.of_nat (List.length clicks) <= 2 ^ 53 - 1)%Z ->
  (forall z, (Z.abs z <= Z.of_nat (List.length clicks))%Z ->
             Storage_fits COUNT_KEY (Number_toString (Integer z))
               (sessionStorage (page b)) = true) ->
  exists b1 b2,
    click_buttons binary_plus binary_minus clicks b = (Normal tt, b1) /\
    alerts b1 = alerts b /\ console (page b1) = console (page b) /\
    handleShow (UsageSessionStorage binary_plus binary_minus) b1 = (Normal tt, b2) /\
    alerts b2 = alerts b
                ++ [js "The current count is " ++ Number_toString (Integer (tally clicks))] /\
    logged_values b2 = logged_values b
                       ++ [[VNumber (Integer (tally clicks)); VString (js "getSessionCount")]].
Proof.
  intros Hden Hnone Hne Hlen Hroom.
  destruct (click_buttons_count clicks b 0) as (b1 & Hrun & Hcount & Hitem & Ha & Hl & Hc & _).
  { split; [exact Hden | right; now split]. }
  { cbn [Z.abs]. lia. }
  { intros z Hz. apply Hroom. now rewrite Z.sub_0_r in Hz. }
  rewrite Z.add_0_l in Hcount, Hitem. specialize (Hitem Hne).
  exists b1. eexists. split; [exact Hrun|]. split; [exact Ha|]. split; [exact Hc|].
  split.
  { apply handleShow_run.
    apply (getter_reads SessionArea COUNT_KEY (VNumber (Integer (tally clicks))));
      [reflexivity | apply Hcount | exact Hitem]. }
  cbn [alerts logged_values nullish_coalescing ToString_value]. rewrite Ha, Hl.
  split; reflexivity.
Qed.

(** X13. UsageSessionStorage: after a click on Reset, whatever the entry
    held, Show alerts that the count is undefined and logs [undefined]. *)
Theorem counter_is_undefined_after_reset (b : Browser) :
  denied (sessionStorage (page b)) = false ->
  exists b1 b2,
    reset_onClick (UsageSessionStorage binary_plus binary_minus) b = (Normal tt, b1) /\
    handleShow (UsageSessionStorage binary_plus binary_minus) b1 = (Normal tt, b2) /\
    alerts b2 = alerts b ++ [js "The current count is " ++ undefined_count_message] /\
    logged_values b2 = logged_values b ++ [[VUndefined; VString (js "getSessionCount")]] /\
    console (page b2) = console (page b).
Proof.
  intros Hden.
  change (reset_onClick (UsageSessionStorage binary_plus binary_minus))
    with (on_page (remover SessionArea COUNT_KEY)).
  do 2 eexists. split.
  { rewrite on_page_run, remover_eq. cbn [area]. rewrite Hden. reflexivity. }
  split.
  { apply handleShow_run. cbn [page fst snd].
    apply getter_absent; rewrite area_set_area; cbn [denied items];
      [first [reflexivity | exact Hden]|].
    apply lookup_delete_eq. }
  cbn [alerts logged_values page fst snd nullish_coalescing ToString_value].
  rewrite console_set_area. repeat split.
Qed.

End Counting.

Lemma counter_shows_increments_minus_decrements_witness :
  exists b1 b2,
    click_buttons integer_plus integer_minus [true; true; false] (empty_browser 100)
    = (Normal tt, b1) /\
    alerts b1 = alerts (empty_browser 100) /\
    console (page b1) = console (page (empty_browser 100)) /\
    handleShow (UsageSessionStorage integer_plus integer_minus) b1 = (Normal tt, b2) /\
    alerts b2 = alerts (empty_browser 100)
                ++ [js "The current count is "
                    ++ Number_toString (Integer (tally [true; true; false]))] /\
    logged_values b2
    = logged_values (empty_browser 100)
      ++ [[VNumber (Integer (tally [true; true; false])); VString (js "getSessionCount")]].
Proof.
  apply (counter_shows_increments_minus_decrements integer_plus integer_minus
           (fun x y _ _ _ => eq_refl) (fun x y _ _ _ => eq_refl)
           [true; true; false] (empty_browser 100) eq_refl eq_refl).
  - discriminate.
  - cbn. lia.
  - intros z Hz. cbn [List.length] in Hz.
    assert (Hcases : z = (-3)%Z \/ z = (-2)%Z \/ z = (-1)%Z \/ z = 0%Z \/ z = 1%Z
                     \/ z = 2%Z \/ z = 3%Z) by lia.
    destruct Hcases as [->|[->|[->|[->|[->|[->| ->]]]]]]; reflexivity.
Defined.

Lemma counter_is_undefined_after_reset_witness :
  exists b1 b2,
    reset_onClick (UsageSessionStorage integer_plus integer_minus) (empty_browser 100)
    = (Normal tt, b1) /\
    handleShow (UsageSessionStorage integer_plus integer_minus) b1 = (Normal tt, b2) /\
    alerts b2 = alerts (empty_browser 100)
                ++ [js "The current count is " ++ undefined_count_message] /\
    logged_values b2 = logged_values (empty_browser 100)
                       ++ [[VUndefined; VString (js "getSessionCount")]] /\
    console (page b2) = console (page (empty_browser 100)).
Proof.
  exact (counter_is_undefined_after_reset integer_plus integer_minus (empty_browser 100)
           eq_refl).
Defined.


(** ** A component with several hooks *)

(** For a component that calls the hook once, the commit is the one the
    hook's own model describes. *)
Lemma commit_effects_one (p : Props) (prev : option Hook) (w : World) :
  commit_effects [(p, prev)] w
  = let* (h, w') := useEventListener p prev w in Normal ([h], w').
Proof.
  unfold commit_effects, useEventListener.
  cbn [destroy_effects create_effects]. unfold binding_is_due, handler_is_due.
  cbn [fst snd].
  destruct (effect_is_due areHookInputsEqual (option_map deps_binding prev) (deps_of p)).
  - destruct (run_destroy (previous_destroy prev) w) as [w1|err]; cbn [cbind]; [|reflexivity].
    destruct (bind_effect p w1) as [[d w2]|err]; reflexivity.
  - reflexivity.
Qed.

Lemma destroy_effects_same_deps (calls : list HookCall) (w : World) :
  forallb (fun c => negb (binding_is_due c)) calls = true ->
  destroy_effects calls w = Normal w.
Proof.
  induction calls as [|c cs IH]; [reflexivity|].
  cbn [forallb]. intros Hall. apply andb_true_iff in Hall as [Hc Hcs].
  apply negb_true_iff in Hc. cbn [destroy_effects]. rewrite Hc. cbn [cbind]. auto.
Qed.

(** A commit at which no binding effect is due makes no platform call. *)
Lemma commit_effects_same_deps (calls : list HookCall) (w : World) :
  forallb (fun c => negb (binding_is_due c)) calls = true ->
  commit_effects calls w
  = Normal (List.map (fun c : HookCall =>
              {| savedHandler := if handler_is_due c then handler (fst c)
                                 else useRef (handler (fst c)) (snd c);
                 deps_handler := handler (fst c);
                 deps_binding := deps_of (fst c);
                 destroy := previous_destroy (snd c) |}) calls, w).
Proof.
  intros Hall. unfold commit_effects.
  rewrite (destroy_effects_same_deps calls w Hall). cbn [cbind].
  induction calls as [|c cs IH]; [reflexivity|].
  cbn [forallb] in Hall. apply andb_true_iff in Hall as [Hc Hcs].
  apply negb_true_iff in Hc. cbn [create_effects List.map]. rewrite Hc. cbn [cbind].
  now rewrite (IH Hcs).
Qed.

(** ** UsageEventLister *)

Lemma mount_UsageEventLister_inv (width : JsValue) (ref : RefId) (button : nat) :
  exists f e,
    mount_UsageEventLister ref button (initial_env width) = Normal (f, e) /\
    usage_inv ref button f e /\ count_inv 0 false f /\
    shown_windowWidth f = width /\ windowWidth f = width /\ innerWidth e = width /\
    trace (world e) = [call_of_add (click_cleanup button); call_of_add resize_cleanup;
                       call_of_add dblclick_cleanup] /\
    refs (world e) !! ref = Some (Element button) /\
    shown_alerts e = [] /\ reported e = [].
Proof.
  unfold mount_UsageEventLister, UsageEventLister, new_function, initial_env, initial_world.
  cbn [world next_fn refs registry trace invoked innerWidth functions shown_alerts reported].
  unfold commit_effects.
  cbn [List.map destroy_effects create_effects]. unfold binding_is_due, handler_is_due.
  cbn [fst snd option_map effect_is_due previous_destroy run_destroy cbind].
  unfold bind_effect, resolve_target, set_ref.
  cbn [element refs registry next_fn trace invoked eventName options handler].
  rewrite lookup_insert_eq.
  cbn [has_addEventListener negb new_listener next_fn refs registry trace invoked].
  set (rs := <[ref := Element button]> (∅ : gmap nat Target)).
  set (fs := <[2 := dblclick_callback 1]> _).
  unfold addEventListener, add_an_event_listener.
  cbn -[rs fs].
  do 2 eexists. split; [reflexivity|].
  split.
  { split; cbn -[rs fs]; try reflexivity; try lia.
    do 3 eexists. split; [reflexivity|]. cbn -[rs fs].
    repeat split; try lia; try reflexivity.
    exists 1. split; [reflexivity | lia]. }
  split; [repeat split; cbn; lia|].
  cbn -[rs fs]. repeat split. apply lookup_insert_eq.
Qed.

Lemma handler_is_due_fresh (p : Props) (h : Hook) :
  deps_handler h < handler p -> handler_is_due (p, Some h) = true.
Proof.
  intros Hlt. unfold handler_is_due, effect_is_due, Object_is_handler.
  cbn [snd fst option_map]. apply negb_true_iff, Nat.eqb_neq. lia.
Qed.

Lemma binding_is_due_same (p : Props) (h : Hook) :
  deps_binding h = deps_of p -> negb (binding_is_due (p, Some h)) = true.
Proof.
  intros Hd. unfold binding_is_due, effect_is_due. cbn [snd fst option_map].
  now rewrite Hd, areHookInputsEqual_refl.
Qed.

(** A render of the mounted component: new callbacks in the cells, no
    platform call. *)
Lemma rerender_inv (ref : RefId) (button : nat) (f : Fiber) (e : Env) :
  usage_inv ref button f e ->
  exists f' e',
    rerender f e = Normal (f', e') /\
    usage_inv ref button f' e' /\
    shown_buttonClicked f' = buttonClicked f /\ buttonClicked f' = buttonClicked f /\
    shown_windowWidth f' = windowWidth f /\ windowWidth f' = windowWidth f /\
    innerWidth e' = innerWidth e /\
    trace (world e') = trace (world e) /\ refs (world e') = refs (world e) /\
    invoked (world e') = invoked (world e) /\
    shown_alerts e' = shown_alerts e /\ reported e' = reported e.
Proof.
  intros [Href (h1 & h2 & h3 & Hhooks & (Hd1 & Hd2 & Hd3) & (Hb1 & Hb2 & Hb3)
                & (Hh1 & Hh2 & Hh3) & Hf1 & Hf2 & fn & Hf3 & Hfn) Hreg Hadds Hnext].
  unfold rerender, UsageEventLister, new_function.
  cbn [world next_fn refs registry trace invoked innerWidth functions shown_alerts reported].
  rewrite Hhooks. cbn [List.map List.combine].
  rewrite commit_effects_same_deps.
  2:{ cbn [forallb]. rewrite !binding_is_due_same; [reflexivity | | |];
      first [now rewrite Hb3 | now rewrite Hb2 | now rewrite Hb1, Href]. }
  cbn [cbind List.map fst snd handler].
  rewrite !handler_is_due_fresh by (cbn [handler]; lia).
  do 2 eexists. split; [reflexivity|].
  split; [|cbn; repeat split].
  split.
  - exact Href.
  - do 3 eexists. split; [reflexivity|].
    cbn [destroy previous_destroy deps_binding deps_handler savedHandler deps_of eventName
         element options handler set_world world next_fn functions shown_buttonClicked].
    rewrite Href.
    split; [auto|]. split; [auto|]. split; [lia|].
    split; [|split].
    + rewrite lookup_insert_ne, lookup_insert_ne, lookup_insert_eq by lia. reflexivity.
    + rewrite lookup_insert_ne, lookup_insert_eq by lia. reflexivity.
    + eexists. rewrite lookup_insert_eq. split; [reflexivity | lia].
  - exact Hreg.
  - exact Hadds.
  - cbn. lia.
Qed.

Lemma is_registered_In (r : Registration) (w : World) :
  In r (registry w) -> is_registered r w = true.
Proof.
  intros Hin. unfold is_registered. apply existsb_exists. exists r.
  split; [exact Hin | apply same_listener_self].
Qed.

(** The listeners an event finds on the page of the mounted component. *)
Lemma usage_snapshot (button : nat) (t : Target) (ev : Event) :
  List.filter (fun r => Target_eqb (r_target r) t && String.eqb (r_type r) (ev_type ev))
    (usage_registry button)
  = if is_click_on button t ev then [registration_of (click_cleanup button)]
    else if Target_eqb Window t && String.eqb "resize" (ev_type ev)
         then [registration_of resize_cleanup]
    else if Target_eqb Window t && String.eqb "dblclick" (ev_type ev)
         then [registration_of dblclick_cleanup]
    else [].
Proof.
  unfold usage_registry, is_click_on.
  cbn [List.filter registration_of click_cleanup resize_cleanup dblclick_cleanup
       r_target r_type c_target c_eventName].
  destruct (Target_eqb (Element button) t) eqn:Hb.
  - apply Target_eqb_eq in Hb as <-. cbn [Target_eqb andb].
    now destruct (String.eqb "click" (ev_type ev)).
  - cbn [andb]. destruct (Target_eqb Window t); cbn [andb]; [|reflexivity].
    destruct (String.eqb_spec "resize" (ev_type ev)) as [Hr|Hr];
      destruct (String.eqb_spec "dblclick" (ev_type ev)) as [Hd|Hd];
      try reflexivity.
    rewrite <- Hr in Hd. discriminate.
Qed.

Section EventDemoProperties.

Variable binary_plus : JsValue -> JsValue -> Completion JsValue.

(** An event on the page of the mounted component: a click on the button
    sets the count to one more than the count shown, a resize of the window
    sets the width to [window.innerWidth], a double click on the window
    shows an alert and calls [removeEventListener] with a function that is
    no listener; the three listeners stay. *)
Lemma fire_inv (ref : RefId) (button : nat) (f : Fiber) (e : Env) (t : Target) (ev : Event) :
  usage_inv ref button f e ->
  exists f' e',
    fire binary_plus t ev (f, e) = (f', e') /\
    usage_inv ref button f' e' /\
    shown_buttonClicked f' = shown_buttonClicked f /\
    shown_windowWidth f' = shown_windowWidth f /\
    innerWidth e' = innerWidth e /\
    refs (world e') = refs (world e) /\
    buttonClicked f'
    = (if is_click_on button t ev then
         match binary_plus (shown_buttonClicked f) (VNumber (Integer 1)) with
         | Normal v => v
         | Throw _ => buttonClicked f
         end
       else buttonClicked f) /\
    windowWidth f'
    = (if Target_eqb Window t && String.eqb "resize" (ev_type ev) then innerWidth e
       else windowWidth f).
Proof.
  intros [Href (h1 & h2 & h3 & Hhooks & (Hd1 & Hd2 & Hd3) & (Hb1 & Hb2 & Hb3)
                & (Hh1 & Hh2 & Hh3) & Hf1 & Hf2 & fn & Hf3 & Hfn) Hreg Hadds Hnext].
  assert (Hinv : usage_inv ref button f e).
  { split; try assumption. exists h1, h2, h3. repeat split; try assumption.
    exists fn. now split. }
  unfold fire. cbn [snd]. rewrite Hreg, usage_snapshot.
  assert (Hin1 : is_registered (registration_of (click_cleanup button)) (world e) = true).
  { apply is_registered_In. rewrite Hreg. now left. }
  assert (Hin2 : is_registered (registration_of resize_cleanup) (world e) = true).
  { apply is_registered_In. rewrite Hreg. right. now left. }
  assert (Hin3 : is_registered (registration_of dblclick_cleanup) (world e) = true).
  { apply is_registered_In. rewrite Hreg. right. right. now left. }
  destruct (is_click_on button t ev) eqn:Hclick.
  { (* a click on the button *)
    assert (Hres : Target_eqb Window t && String.eqb "resize" (ev_type ev) = false).
    { unfold is_click_on in Hclick. apply andb_true_iff in Hclick as [Ht _].
      apply Target_eqb_eq in Ht as <-. reflexivity. }
    rewrite Hres. cbn [fold_left deliver]. rewrite Hhooks. unfold owner.
    cbn [List.find registration_of click_cleanup r_callback c_listener]. rewrite Hd1.
    cbn [click_cleanup c_listener Listener_eqb fn_id Nat.eqb].
    change ({| r_target := Element button; r_type := "click"; r_callback := {| fn_id := 3 |};
               r_capture := flatten OptUndefined; r_once := flatten_once OptUndefined |})
      with (registration_of (click_cleanup button)).
    rewrite Hin1. unfold inner_invoke. rewrite Hin1.
    cbn [registration_of r_once flatten_once click_cleanup c_options].
    unfold call_function. cbn [set_world functions]. rewrite Hf1.
    destruct (binary_plus (shown_buttonClicked f) (VNumber (Integer 1))) as [v|err].
    - do 2 eexists. split; [reflexivity|].
      split; [|cbn; repeat split].
      destruct Hinv as [Hr' Hh' Hreg' Hadds' Hnext'].
      split; assumption.
    - do 2 eexists. split; [reflexivity|].
      split; [|cbn; repeat split].
      destruct Hinv as [Hr' Hh' Hreg' Hadds' Hnext'].
      split; assumption. }
  destruct (Target_eqb Window t && String.eqb "resize" (ev_type ev)) eqn:Hres.
  { (* a resize of the window *)
    cbn [fold_left deliver]. rewrite Hhooks. unfold owner.
    cbn [List.find registration_of resize_cleanup r_callback c_listener]. rewrite Hd1, Hd2.
    cbn [click_cleanup resize_cleanup c_listener Listener_eqb fn_id Nat.eqb].
    change ({| r_target := Window; r_type := "resize"; r_callback := {| fn_id := 4 |};
               r_capture := flatten OptUndefined; r_once := flatten_once OptUndefined |})
      with (registration_of resize_cleanup).
    rewrite Hin2. unfold inner_invoke. rewrite Hin2.
    cbn [registration_of r_once flatten_once resize_cleanup c_options].
    unfold call_function. cbn [set_world functions]. rewrite Hf2.
    do 2 eexists. split; [reflexivity|].
    split; [|cbn; repeat split].
    destruct Hinv as [Hr' Hh' Hreg' Hadds' Hnext'].
    split; assumption. }
  destruct (Target_eqb Window t && String.eqb "dblclick" (ev_type ev)) eqn:Hdbl.
  { (* a double click on the window *)
    cbn [fold_left deliver]. rewrite Hhooks. unfold owner.
    cbn [List.find registration_of dblclick_cleanup r_callback c_listener].
    rewrite Hd1, Hd2, Hd3.
    cbn [click_cleanup resize_cleanup dblclick_cleanup c_listener Listener_eqb fn_id Nat.eqb].
    change ({| r_target := Window; r_type := "dblclick"; r_callback := {| fn_id := 5 |};
               r_capture := flatten OptUndefined; r_once := flatten_once OptUndefined |})
      with (registration_of dblclick_cleanup).
    rewrite Hin3. unfold inner_invoke. rewrite Hin3.
    cbn [registration_of r_once flatten_once dblclick_cleanup c_options].
    unfold call_function. cbn [set_world functions]. rewrite Hf3.
    unfold removeEventListener. cbn [has_addEventListener].
    do 2 eexists. split; [reflexivity|].
    split; [|cbn; repeat split].
    split.
    - exact Href.
    - exists h1, h2, h3. repeat split; try assumption. exists fn. now split.
    - cbn [set_world show_alert world registry call_listener]. rewrite Hreg.
      unfold remove_an_event_listener, usage_registry, same_listener.
      cbn [List.filter registration_of click_cleanup resize_cleanup dblclick_cleanup
           r_target r_type r_callback r_capture c_target c_eventName c_listener c_options
           Target_eqb flatten andb negb].
      unfold Listener_eqb. cbn [fn_id].
      replace (Nat.eqb 4 fn) with false by (symmetry; apply Nat.eqb_neq; lia).
      reflexivity.
    - cbn [set_world show_alert world trace call_listener].
      rewrite List.filter_app. cbn [List.filter is_add]. now rewrite app_nil_r.
    - exact Hnext. }
  (* any other event *)
  cbn [fold_left]. exists f, e. split; [reflexivity|]. split; [exact Hinv|]. repeat split.
Qed.

Lemma usage_inv_set_innerWidth (ref : RefId) (button : nat) (f : Fiber) (e : Env)
    (width : JsValue) :
  usage_inv ref button f e -> usage_inv ref button f (set_innerWidth width e).
Proof. intros [Href Hh Hreg Hadds Hnext]. split; assumption. Qed.

Lemma usage_run_app (xs ys : list UsageStep) (st : Fiber * Env) :
  usage_run binary_plus (xs ++ ys) st
  = let* st' := usage_run binary_plus xs st in usage_run binary_plus ys st'.
Proof.
  revert st. induction xs as [|x xs IH]; intros st; cbn [app usage_run]; [reflexivity|].
  destruct (usage_step binary_plus x st) as [st1|err]; cbn [cbind]; [apply IH | reflexivity].
Qed.

(** The steps never throw and keep the three listeners. *)
Lemma usage_run_inv (ref : RefId) (button : nat) (ss : list UsageStep) (f : Fiber) (e : Env) :
  usage_inv ref button f e ->
  exists f' e',
    usage_run binary_plus ss (f, e) = Normal (f', e') /\ usage_inv ref button f' e' /\
    refs (world e') = refs (world e).
Proof.
  revert f e. induction ss as [|s ss IH]; intros f e Hinv; cbn [usage_run].
  - eauto.
  - destruct s as [|t ev|width]; cbn [usage_step fst snd cbind].
    + destruct (rerender_inv ref button f e Hinv)
        as (f1 & e1 & -> & Hinv1 & _ & _ & _ & _ & _ & _ & Hrefs & _).
      cbn [cbind]. destruct (IH f1 e1 Hinv1) as (f' & e' & Hrun & Hinv' & Hrefs').
      exists f', e'. split; [exact Hrun|]. split; [exact Hinv' | congruence].
    + destruct (fire_inv ref button f e t ev Hinv)
        as (f1 & e1 & -> & Hinv1 & _ & _ & _ & Hrefs & _).
      destruct (IH f1 e1 Hinv1) as (f' & e' & Hrun & Hinv' & Hrefs').
      exists f', e'. split; [exact Hrun|]. split; [exact Hinv' | congruence].
    + apply (IH f (set_innerWidth width e)). now apply usage_inv_set_innerWidth.
Qed.

Lemma usage_history_inv (width : JsValue) (ref : RefId) (button : nat)
    (ss : list UsageStep) :
  exists f e,
    usage_history binary_plus width ref button ss = Normal (f, e) /\
    usage_inv ref button f e /\
    refs (world e) !! ref = Some (Element button).
Proof.
  destruct (mount_UsageEventLister_inv width ref button)
    as (f0 & e0 & Hm & Hinv0 & _ & _ & _ & _ & _ & Href & _).
  unfold usage_history. rewrite Hm. cbn [cbind].
  destruct (usage_run_inv ref button ss f0 e0 Hinv0) as (f & e & Hrun & Hinv & Hrefs).
  exists f, e. split; [exact Hrun|]. split; [exact Hinv | now rewrite Hrefs].
Qed.

(** X14. UsageEventLister: the three listeners are attached at mount, the
    click listener to the button the ref holds by then; whatever renders,
    events and resizes follow, they stay the only listeners and nothing is
    attached again, although every render makes new callbacks; unmount
    removes the three with the arguments they were attached with, the click
    listener from the button although the ref has been cleared by then. *)
Theorem usage_listeners_are_attached_once (width : JsValue) (ref : RefId) (button : nat)
    (ss : list UsageStep) :
  exists f e e',
    usage_history binary_plus width ref button ss = Normal (f, e) /\
    registry (world e) = usage_registry button /\
    List.filter is_add (trace (world e))
    = [call_of_add (click_cleanup button); call_of_add resize_cleanup;
       call_of_add dblclick_cleanup] /\
    unmount_UsageEventLister f e = Normal e' /\
    registry (world e') = [] /\
    trace (world e')
    = trace (world e) ++ [call_of_remove (click_cleanup button);
                          call_of_remove resize_cleanup;
                          call_of_remove dblclick_cleanup] /\
    refs (world e') !! ref = None.
Proof.
  destruct (usage_history_inv width ref button ss) as (f & e & Hh & Hinv & _).
  destruct Hinv as [Href (h1 & h2 & h3 & Hhooks & (Hd1 & Hd2 & Hd3) & _) Hreg Hadds Hnext].
  exists f, e. eexists. split; [exact Hh|]. split; [exact Hreg|]. split; [exact Hadds|].
  unfold unmount_UsageEventLister. rewrite Hhooks, Href.
  cbn [unmount_effects]. unfold unmount. rewrite Hd1, Hd2, Hd3.
  cbn [run_destroy]. unfold run_cleanup, removeEventListener, remove_an_event_listener.
  cbn [click_cleanup resize_cleanup dblclick_cleanup c_target c_eventName c_listener
       c_options has_addEventListener cbind set_ref registry trace refs next_fn invoked].
  rewrite Hreg. unfold usage_registry, same_listener, Listener_eqb.
  cbn [List.filter registration_of click_cleanup resize_cleanup dblclick_cleanup
       r_target r_type r_callback r_capture c_target c_eventName c_listener c_options
       Target_eqb flatten fn_id].
  rewrite Nat.eqb_refl.
  split; [reflexivity|].
  cbn [set_world world registry trace refs]. split; [reflexivity|].
  split; [now rewrite <- !app_assoc | apply lookup_delete_eq].
Qed.

(** X15. UsageEventLister: the page shows the width of the window at its
    last resize event, also after double clicks, whose callback calls
    [window.removeEventListener('resize', handleResize)]: [handleResize] is
    not the function the hook attached, so the call removes nothing. *)
Theorem resize_is_shown_after_any_steps (width : JsValue) (ref : RefId) (button : nat)
    (ss : list UsageStep) (new_width : JsValue) (ev : Event) :
  ev_type ev = "resize" ->
  exists f e,
    usage_history binary_plus width ref button
      (ss ++ [ResizeWindow new_width; Fire Window ev; Rerender])
    = Normal (f, e) /\
    shown_windowWidth f = new_width.
Proof.
  intros Hty.
  destruct (usage_history_inv width ref button ss) as (f0 & e0 & Hh & Hinv & _).
  unfold usage_history in *.
  destruct (mount_UsageEventLister ref button (initial_env width)) as [st|err];
    [|discriminate].
  cbn [cbind] in *. rewrite usage_run_app, Hh. cbn [cbind usage_run usage_step fst snd].
  destruct (fire_inv ref button f0 (set_innerWidth new_width e0) Window ev
              (usage_inv_set_innerWidth ref button f0 e0 new_width Hinv))
    as (f1 & e1 & -> & Hinv1 & _ & _ & _ & _ & _ & Hw).
  rewrite <- Hty in Hw. cbn [Target_eqb andb] in Hw. rewrite String.eqb_refl in Hw.
  cbn [set_innerWidth innerWidth] in Hw. cbn [fst snd].
  destruct (rerender_inv ref button f1 e1 Hinv1)
    as (f & e & -> & _ & _ & _ & Hshown & _).
  exists f, e. split; [reflexivity|]. now rewrite Hshown.
Qed.

End EventDemoProperties.

Lemma resize_is_shown_after_any_steps_witness :
  exists f e,
    usage_history integer_plus (VNumber (Integer 1024)) 0 7
      ([Fire Window {| ev_type := "dblclick"; ev_detail := 0 |}; Rerender]
       ++ [ResizeWindow (VNumber (Integer 640));
           Fire Window {| ev_type := "resize"; ev_detail := 0 |}; Rerender])
    = Normal (f, e) /\
    shown_windowWidth f = VNumber (Integer 640).
Proof.
  exact (resize_is_shown_after_any_steps integer_plus (VNumber (Integer 1024)) 0 7
           [Fire Window {| ev_type := "dblclick"; ev_detail := 0 |}; Rerender]
           (VNumber (Integer 640)) {| ev_type := "resize"; ev_detail := 0 |} eq_refl).
Defined.

Section ClickCounting.

Variable binary_plus : JsValue -> JsValue -> Completion JsValue.

Hypothesis plus_safe_integers : forall x y : Z,
  safe_integer x -> safe_integer y -> safe_integer (x + y) ->
  binary_plus (VNumber (Integer x)) (VNumber (Integer y)) = Normal (VNumber (Integer (x + y))).

Lemma usage_run_count (ref : RefId) (button : nat) (ss : list UsageStep) (shown : Z)
    (pending : bool) (f : Fiber) (e : Env) :
  usage_inv ref button f e ->
  count_inv shown pending f ->
  (shown + Z.of_nat (List.length ss) + 1 <= 2 ^ 53 - 1)%Z ->
  exists f' e' pending',
    usage_run binary_plus ss (f, e) = Normal (f', e') /\
    usage_inv ref button f' e' /\
    count_inv (shown + rendered_clicks button pending ss) pending' f'.
Proof.
  revert shown pending f e.
  induction ss as [|s ss IH]; intros shown pending f e Hinv Hcount Hsafe;
    cbn [usage_run rendered_clicks].
  - exists f, e, pending. rewrite Z.add_0_r. auto.
  - cbn [List.length] in Hsafe. destruct Hcount as (Hshown & Hstate & Hpos).
    destruct s as [|t ev|width]; cbn [usage_step fst snd cbind].
    + destruct (rerender_inv ref button f e Hinv)
        as (f1 & e1 & -> & Hinv1 & Hs1 & Hb1 & _).
      cbn [cbind].
      destruct (IH (shown + (if pending then 1 else 0))%Z false f1 e1 Hinv1)
        as (f' & e' & pending' & Hrun & Hinv' & Hcount').
      { repeat split.
        - now rewrite Hs1.
        - rewrite Hb1, Hstate. cbn [Z.add]. now rewrite Z.add_0_r.
        - destruct pending; lia. }
      { destruct pending; lia. }
      exists f', e', pending'. rewrite Z.add_assoc. auto.
    + destruct (fire_inv binary_plus ref button f e t ev Hinv)
        as (f1 & e1 & -> & Hinv1 & Hs1 & _ & _ & _ & Hb1 & _).
      destruct (IH shown (pending || is_click_on button t ev) f1 e1 Hinv1)
        as (f' & e' & pending' & Hrun & Hinv' & Hcount').
      { repeat split; [now rewrite Hs1 | | exact Hpos].
        rewrite Hb1. destruct (is_click_on button t ev).
        - rewrite orb_true_r, Hshown, plus_safe_integers; [reflexivity | | |];
            unfold safe_integer; cbn [Z.abs]; lia.
        - now rewrite orb_false_r. }
      { lia. }
      exists f', e', pending'. auto.
    + apply (IH shown pending f (set_innerWidth width e));
        [now apply usage_inv_set_innerWidth | repeat split; assumption | lia].
Qed.

(** X16. UsageEventLister: the count the page shows is the number of
    renders that followed at least one click on the button since the render
    before.  A click is counted from the count the page shows, through the
    handler of the latest render, so one click per render counts every
    click, and several clicks between two renders count once. *)
Theorem shown_count_is_renders_after_clicks (width : JsValue) (ref : RefId) (button : nat)
    (ss : list UsageStep) :
  (Z.of_nat (List.length ss) + 1 <= 2 ^ 53 - 1)%Z ->
  exists f e,
    usage_history binary_plus width ref button ss = Normal (f, e) /\
    shown_buttonClicked f = VNumber (Integer (rendered_clicks button false ss)).
Proof.
  intros Hsafe.
  destruct (mount_UsageEventLister_inv width ref button)
    as (f0 & e0 & Hm & Hinv0 & Hcount0 & _).
  unfold usage_history. rewrite Hm. cbn [cbind].
  destruct (usage_run_count ref button ss 0 false f0 e0 Hinv0 Hcount0)
    as (f & e & pending & Hrun & _ & Hcount); [lia|].
  exists f, e. split; [exact Hrun|]. rewrite Z.add_0_l in Hcount. apply Hcount.
Qed.

End ClickCounting.

Lemma shown_count_is_renders_after_clicks_witness :
  exists f e,
    usage_history integer_plus (VNumber (Integer 1024)) 0 7
      [ Fire (Element 7) {| ev_type := "click"; ev_detail := 0 |}; Rerender;
        Fire (Element 7) {| ev_type := "click"; ev_detail := 1 |};
        Fire (Element 7) {| ev_type := "click"; ev_detail := 2 |}; Rerender;
        Fire Window {| ev_type := "click"; ev_detail := 3 |}; Rerender ]
    = Normal (f, e) /\
    shown_buttonClicked f = VNumber (Integer 2).
Proof.
  apply (shown_count_is_renders_after_clicks integer_plus (fun x y _ _ _ => eq_refl)
           (VNumber (Integer 1024)) 0 7
           [ Fire (Element 7) {| ev_type := "click"; ev_detail := 0 |}; Rerender;
             Fire (Element 7) {| ev_type := "click"; ev_detail := 1 |};
             Fire (Element 7) {| ev_type := "click"; ev_detail := 2 |}; Rerender;
             Fire Window {| ev_type := "click"; ev_detail := 3 |}; Rerender ]).
  cbn. lia.
Defined.

(** ** Reads do not write, and removing nothing changes nothing *)

(** X17. The getter never writes to either storage area; it adds at most
    one entry to the console.  An entry that does not parse is therefore
    never repaired or removed by reading it: the next read returns the same
    value, [undefined], and logs again. *)
Theorem getter_never_writes (a : Area) (key : JsString) (pg : Page) :
  localStorage (snd (getter a key pg)) = localStorage pg /\
  sessionStorage (snd (getter a key pg)) = sessionStorage pg /\
  fst (getter a key (snd (getter a key pg))) = fst (getter a key pg) /\
  exists entries,
    console (snd (getter a key pg)) = console pg ++ entries /\ List.length entries <= 1.
Proof.
  assert (Hcases : snd (getter a key pg) = pg \/
                   exists err, snd (getter a key pg) = with_console pg [logged a err]).
  { rewrite getter_eq. destruct (denied (area a pg)); [right; eauto|].
    destruct (items (area a pg) !! key) as [text|]; [|now left].
    destruct (JSON_parse text); [now left | right; eauto]. }
  destruct Hcases as [->|[err ->]].
  - repeat split. exists []. split; [now rewrite app_nil_r | cbn; lia].
  - repeat split.
    + apply getter_value; now rewrite area_with_console.
    + exists [logged a err]. split; [reflexivity | cbn; lia].
Qed.

(** X18. Removing a key that has no entry is silent and leaves the page
    exactly as it was. *)
Theorem removing_an_absent_key_changes_nothing (a : Area) (key : JsString) (pg : Page) :
  denied (area a pg) = false ->
  items (area a pg) !! key = None ->
  remover a key pg = (Normal tt, pg).
Proof.
  intros Hden Hnone. rewrite remover_eq, Hden, (delete_id _ _ Hnone). f_equal.
  destruct a, pg as [[li lq ld] [si sq sd] c]; cbn in *; now subst.
Qed.

Lemma removing_an_absent_key_changes_nothing_witness :
  remover SessionArea (js "count") (empty_page 10) = (Normal tt, empty_page 10).
Proof.
  exact (removing_an_absent_key_changes_nothing SessionArea (js "count") (empty_page 10)
           eq_refl eq_refl).
Defined.

(** ** A counter entry that cannot be used *)

Section Restart.

Variable binary_plus : JsValue -> JsValue -> Completion JsValue.
Variable binary_minus : JsValue -> JsValue -> Completion JsValue.

Hypothesis plus_safe_integers : forall x y : Z,
  safe_integer x -> safe_integer y -> safe_integer (x + y) ->
  binary_plus (VNumber (Integer x)) (VNumber (Integer y)) = Normal (VNumber (Integer (x + y))).

(** X19. UsageSessionStorage: when the entry of the counter does not
    parse, or holds a falsy value ([null], [false], [0], the empty string),
    a click on Increment counts from [0]: it stores [1] over the entry.  A
    parse error is logged once, by the getter; nothing is shown. *)
Theorem increment_restarts_from_an_unusable_entry (b : Browser) (text : JsString) :
  denied (sessionStorage (page b)) = false ->
  items (sessionStorage (page b)) !! COUNT_KEY = Some text ->
  match JSON_parse text with
  | Normal v => ToBoolean v = false
  | Throw _ => True
  end ->
  Storage_fits COUNT_KEY (js "1") (sessionStorage (page b)) = true ->
  exists b',
    handleIncrement (UsageSessionStorage binary_plus binary_minus) b = (Normal tt, b') /\
    items (sessionStorage (page b')) !! COUNT_KEY = Some (js "1") /\
    console (page b')
    = console (page b) ++ match JSON_parse text with
                          | Normal _ => []
                          | Throw err => [ConsoleError err]
                          end /\
    alerts b' = alerts b /\ logged_values b' = logged_values b.
Proof.
  intros Hden Hitem Hunusable Hfits.
  change (handleIncrement (UsageSessionStorage binary_plus binary_minus))
    with (bind_b (on_page (getter SessionArea COUNT_KEY)) (fun count =>
            bind_b (lift_b (binary_plus (logical_or count (VNumber (Integer 0)))
                              (VNumber (Integer 1))))
              (fun next => on_page (setter SessionArea COUNT_KEY next)))).
  assert (Hone : binary_plus (VNumber (Integer 0)) (VNumber (Integer 1))
                 = Normal (VNumber (Integer 1))).
  { apply (plus_safe_integers 0 1); unfold safe_integer; cbn; lia. }
  unfold bind_b at 1. rewrite on_page_run, getter_eq. cbn [area]. rewrite Hden, Hitem.
  destruct (JSON_parse text) as [v|err]; cbn [fst snd].
  - unfold logical_or. rewrite Hunusable. unfold bind_b, lift_b. rewrite Hone.
    rewrite on_page_run. cbn [page].
    rewrite (setter_stores SessionArea COUNT_KEY (VNumber (Integer 1)) (page b) eq_refl
               Hden Hfits).
    eexists. split; [reflexivity|].
    cbn [page fst snd set_area sessionStorage items console alerts logged_values].
    rewrite app_nil_r. repeat split. apply lookup_insert_eq.
  - unfold logical_or. cbn [ToBoolean]. unfold bind_b, lift_b. rewrite Hone.
    rewrite on_page_run. cbn [page].
    rewrite (setter_stores SessionArea COUNT_KEY (VNumber (Integer 1))
               (with_console (page b) [logged SessionArea err]) eq_refl Hden Hfits).
    eexists. split; [reflexivity|].
    cbn [page fst snd set_area sessionStorage items console alerts logged_values
         with_console area logged].
    repeat split. apply lookup_insert_eq.
Qed.

End Restart.

Lemma increment_restarts_from_an_unusable_entry_witness :
  exists b',
    handleIncrement (UsageSessionStorage integer_plus integer_minus)
      {| page := {| localStorage := {| items := ∅; quota := 100; denied := false |};
                    sessionStorage := {| items := {[ COUNT_KEY := js "one" ]};
                                         quota := 100; denied := false |};
                    console := [] |};
         alerts := []; logged_values := [] |}
    = (Normal tt, b') /\
    items (sessionStorage (page b')) !! COUNT_KEY = Some (js "1") /\
    console (page b') = [] ++ [ConsoleError SyntaxError] /\
    alerts b' = [] /\ logged_values b' = [].
Proof.
  exact (increment_restarts_from_an_unusable_entry integer_plus integer_minus
           (fun x y _ _ _ => eq_refl)
           {| page := {| localStorage := {| items := ∅; quota := 100; denied := false |};
                         sessionStorage := {| items := {[ COUNT_KEY := js "one" ]};
                                              quota := 100; denied := false |};
                         console := [] |};
              alerts := []; logged_values := [] |}
           (js "one") eq_refl eq_refl I eq_refl).
Defined.
